(** * YouTubeAudioDownloader: the download orchestrator of [src/downloader.py]

    A shallow embedding of the class [Downloader] and the properties its
    specification states about it.

    The Python code is effectful: it calls the two callbacks it was given
    ([log_callback], [progress_callback]) and the completion callback, it
    looks at and changes the file system, it calls yt_dlp and the metadata
    helpers, and it reads a [threading.Event] that another thread sets.
    All of this is threaded through one record, [World]:
    - [files]      the paths that exist on disk;
    - [stop_event] the flag of [self.stop_event];
    - [sched]      what the other thread does while the worker runs: one
                   [tick] per atomic action of the worker, [StopDownload]
                   when [stop_download()] is called during that action;
    - [trace]      the calls made so far to the callbacks and to the external
                   collaborators, oldest first.
    Functions of the class are computations in the monad [M], which passes
    the world along and carries a raised exception to the nearest handler.

    What the model takes for granted:
    - the three callbacks return: a call is an event of the trace;
    - while a worker runs, the other thread calls [stop_download] and
      nothing else of the class ([start_download] would clear the flag and
      start a second worker);
    - what is not in [downloader.py] (yt_dlp, [metadata.py], [shutil],
      [os.path], [subprocess], [float], and what the operating system
      refuses to [os.makedirs] and [os.remove]) is a field of the class
      [Externals]: the theorems hold for every instance of it;
    - strings are byte strings, so [strip] knows the ASCII blanks only;
    - a [float] is a binary64 number as the Standard Library specifies it
      ([SpecFloat], the specification of Rocq's primitive floats): the
      progress value of the loop is computed with the two roundings of
      [(idx + 1) / total * 100]. *)

From Stdlib Require Import ZArith Lia Ascii String.
From Stdlib Require Import Floats.SpecFloat Floats.FloatOps.
From Stdlib Require Import Floats.PrimFloat Numbers.Cyclic.Int63.Uint63.
From stdpp Require Import gmap strings list.

Open Scope string_scope.
Open Scope list_scope.
Open Scope nat_scope.

(** ** Python values *)

(** An exception object: its class name and [str(e)].  Every exception of the
    model is an instance of [Exception], the class [_download_all] catches;
    [SystemExit] and [KeyboardInterrupt], which are not, are never delivered
    to a worker thread by the code modelled here. *)
Inductive exn := Exception (cls msg : string).

Definition exn_class (e : exn) : string := let 'Exception c _ := e in c.
Definition str_exn (e : exn) : string := let 'Exception _ m := e in m.

Definition KeyError (key : string) : exn := Exception "KeyError" ("'" +:+ key +:+ "'").
Definition ValueError (msg : string) : exn := Exception "ValueError" msg.
Definition AttributeError (msg : string) : exn := Exception "AttributeError" msg.
Definition IndexError (msg : string) : exn := Exception "IndexError" msg.
Definition ZeroDivisionError : exn := Exception "ZeroDivisionError" "division by zero".
Definition OverflowError (msg : string) : exn := Exception "OverflowError" msg.

(** A Python [float]: a binary64 number, that is a signed zero, a signed
    infinity, a NaN, or [(-1)^s * m * 2^e] with a mantissa [m] of at most 53
    bits. *)
Definition pyfloat : Type := spec_float.

(** [0.0] *)
Definition float_zero : pyfloat := S754_zero false.

(** An [int] as the exact number it is, before any rounding. *)
Definition Z_to_SF (z : Z) : spec_float :=
  match z with
  | Z0 => S754_zero false
  | Zpos p => S754_finite false p 0
  | Zneg p => S754_finite true p 0
  end.

(** [float(z)]: the integer rounded to nearest, ties to even.  (Beyond the
    range of binary64 Python raises [OverflowError]; the code converts the
    literal [100] only.) *)
Definition float_of_int (z : Z) : pyfloat := binary_normalize prec emax z 0 false.

(** The value of [a / b] for two integers, [b] not zero: CPython's
    [long_true_divide] returns the quotient of the two integers rounded
    once to nearest, ties to even.  [SFdiv] divides the mantissas to at
    least 53 bits, records where the remainder lies, and rounds.  The result
    is an infinity exactly when the quotient is too large for a float. *)
Definition int_true_divide (a b : Z) : pyfloat := SFdiv prec emax (Z_to_SF a) (Z_to_SF b).

(** [x * y] on two floats. *)
Definition float_mul (x y : pyfloat) : pyfloat := SFmul prec emax x y.

(** The values a hook dictionary of yt_dlp holds. *)
Inductive pyval :=
| PyStr (s : string)
| PyFloat (x : pyfloat)
| PyInt (z : Z)
| PyNone.

Definition type_name (v : pyval) : string :=
  match v with
  | PyStr _ => "str"
  | PyFloat _ => "float"
  | PyInt _ => "int"
  | PyNone => "NoneType"
  end.

(** [v == s] for a string literal [s]. *)
Definition py_eq_str (v : pyval) (s : string) : bool :=
  match v with
  | PyStr s' => String.eqb s' s
  | _ => false
  end.

(** One element of [info_dict['requested_downloads']]. *)
Record download := { filepath : option string }.

(** The dictionary [ydl.extract_info] returns, with the keys the code reads
    ([None] is a missing key) and the remaining metadata, which the code only
    hands over to [add_metadata]. *)
#[warnings="-register-all"]
Inductive info_dict := InfoDict {
  _type : option string;
  entries : option (list info_dict);
  requested_downloads : option (list download);
  metadata : gmap string pyval
}.

Record postprocessor := {
  key : string;
  preferredcodec : string;
  preferredquality : string
}.

(** [ydl_opts] of [download_audio]; its ['progress_hooks'] entry is the
    argument [hooks] of [YoutubeDL_extract_info]. *)
Record ydl_opts := {
  format : string;
  outtmpl : string;
  postprocessors : list postprocessor;
  ffmpeg_location : string;
  writethumbnail : bool;
  no_color : bool
}.

(** The fields of a [Downloader] that do not change after [__init__]. *)
Record Downloader := {
  download_folder : string;
  ffmpeg_path : string;
  ffprobe_path : string
}.

(** ** The world *)

(** Who called [progress_callback]: line 78 of the worker loop or line 162 of
    the progress hook. *)
Inductive caller := WorkerLoop | ProgressHook.

Inductive event :=
| Log (msg : string)                       (* self.log_callback(msg) *)
| Progress (src : caller) (v : pyfloat)    (* self.progress_callback(v) *)
| Completion                               (* completion_callback() *)
| SubprocessRun (argv : list string)       (* subprocess.run(argv, ...) *)
| ExtractInfo (opts : ydl_opts) (url : string) (* ydl.extract_info(url, download=True) *)
| ConvertThumbnail (webp : string)         (* convert_thumbnail(webp) *)
| AddMetadata (path : string) (info : info_dict) (thumb : option string).
                                           (* add_metadata(path, info, thumb) *)

(** What the other thread does during one atomic action of the worker:
    nothing that concerns the worker, or a call of [stop_download()]. *)
Inductive tick := Quiet | StopDownload.

Record World := {
  files : gset string;
  stop_event : bool;
  sched : list tick;
  trace : list event
}.

Definition set_files (fs : gset string) (w : World) : World :=
  {| files := fs; stop_event := stop_event w; sched := sched w; trace := trace w |}.
Definition set_stop_event (b : bool) (w : World) : World :=
  {| files := files w; stop_event := b; sched := sched w; trace := trace w |}.
Definition set_sched (s : list tick) (w : World) : World :=
  {| files := files w; stop_event := stop_event w; sched := s; trace := trace w |}.
Definition add_event (e : event) (w : World) : World :=
  {| files := files w; stop_event := stop_event w; sched := sched w;
     trace := trace w ++ [e] |}.

(** [stop_download], lines 58-62: [self.stop_event.set()]. *)
Definition stop_download (w : World) : World := set_stop_event true w.

(** One atomic action of the worker goes by: the other thread has done what
    the head of the schedule says.  An exhausted schedule is a quiet one. *)
Definition yield (w : World) : World :=
  match sched w with
  | [] => w
  | Quiet :: s => set_sched s w
  | StopDownload :: s => set_sched s (stop_download w)
  end.

(** ** The monad *)

Inductive result (A : Type) := Ok (a : A) | Raise (e : exn).
Arguments Ok {A} a.
Arguments Raise {A} e.

Definition M (A : Type) : Type := World → result A * World.

Definition ret {A} (a : A) : M A := λ w, (Ok a, w).
Definition raise {A} (e : exn) : M A := λ w, (Raise e, w).
Definition bind {A B} (m : M A) (k : A → M B) : M B :=
  λ w, match m w with
       | (Ok a, w') => k a w'
       | (Raise e, w') => (Raise e, w')
       end.

Notation "x <- m ;; k" := (bind m (λ x, k))
  (at level 20, m at level 99, k at level 200, only parsing).
Notation "m ;; k" := (bind m (λ _, k))
  (at level 100, right associativity).

(** [try: body  except cls: handler]; [catches] tells the class caught. *)
Definition try_except {A} (body : M A) (catches : exn → bool)
    (handler : exn → M A) : M A :=
  λ w, match body w with
       | (Raise e, w') => if catches e then handler e w' else (Raise e, w')
       | r => r
       end.

Definition except_Exception (e : exn) : bool := true.
Definition except_ValueError (e : exn) : bool := String.eqb (exn_class e) "ValueError".

(** [for x in xs: acc = body(acc, x)], left to right. *)
Fixpoint for_each {A B} (xs : list A) (acc : B) (body : B → A → M B) : M B :=
  match xs with
  | [] => ret acc
  | x :: xs' => acc' <- body acc x ;; for_each xs' acc' body
  end.

(** A call that leaves the worker: it is recorded and takes one tick. *)
Definition emit (e : event) : M unit := λ w, (Ok tt, add_event e (yield w)).

Definition log_callback (msg : string) : M unit := emit (Log msg).
Definition progress_callback (src : caller) (v : pyfloat) : M unit := emit (Progress src v).
Definition completion_callback : M unit := emit Completion.

(** [self.stop_event.is_set()] *)
Definition is_set : M bool := λ w, let w' := yield w in (Ok (stop_event w'), w').

(** [os.path.exists(p)] on the modelled disk. *)
Definition os_path_exists (p : string) : M bool := λ w, (Ok (bool_decide (p ∈ files w)), w).

(** ** Strings *)

(** [str.isspace] on the ASCII range. *)
Definition py_isspace (c : ascii) : bool :=
  let n := nat_of_ascii c in
  ((9 <=? n) && (n <=? 13)) || ((28 <=? n) && (n <=? 32)).

Fixpoint str_lstrip (s : string) : string :=
  match s with
  | String c s' => if py_isspace c then str_lstrip s' else s
  | EmptyString => EmptyString
  end.

Fixpoint str_rstrip (s : string) : string :=
  match s with
  | String c s' =>
      match str_rstrip s' with
      | EmptyString => if py_isspace c then EmptyString else String c EmptyString
      | t => String c t
      end
  | EmptyString => EmptyString
  end.

(** [s.strip()] *)
Definition str_strip (s : string) : string := str_rstrip (str_lstrip s).

(** [s.replace(old, new)] for a one-character [old]. *)
Fixpoint str_replace (old : ascii) (new : string) (s : string) : string :=
  match s with
  | String c s' =>
      if Ascii.eqb c old then new +:+ str_replace old new s'
      else String c (str_replace old new s')
  | EmptyString => EmptyString
  end.

Definition newline : string := String (ascii_of_nat 10) EmptyString.
Definition percent : ascii := ascii_of_nat 37.

(** [v.strip()] for a value of a hook dictionary. *)
Definition py_strip (v : pyval) : M string :=
  match v with
  | PyStr s => ret (str_strip s)
  | _ => raise (AttributeError
                  ("'" +:+ type_name v +:+ "' object has no attribute 'strip'"))
  end.

(** [d[k]] *)
Definition getitem (d : gmap string pyval) (k : string) : M pyval :=
  match d !! k with
  | Some v => ret v
  | None => raise (KeyError k)
  end.

(** [a / b] on two integers: [ZeroDivisionError] for a zero divisor,
    [OverflowError] for a quotient beyond the floats, the rounded quotient
    otherwise. *)
Definition py_truediv (a b : Z) : M pyfloat :=
  if (b =? 0)%Z then raise ZeroDivisionError
  else match int_true_divide a b with
       | S754_infinity _ =>
           raise (OverflowError "integer division result too large for a float")
       | q => ret q
       end.

(** [x * c] for a float [x] and an integer [c]: the integer is converted,
    then the two floats are multiplied. *)
Definition py_mul (x : pyfloat) (c : Z) : pyfloat := float_mul x (float_of_int c).

(** ** The external collaborators *)

(** What one call [ydl.extract_info(url, download=True)] does: the dictionaries
    it passes to the progress hooks, in order, the disk afterwards, and the
    dictionary it returns or the exception it raises. *)
Record extraction := {
  ex_hook_calls : list (gmap string pyval);
  ex_files : gset string;
  ex_result : result info_dict
}.

(** The result of [subprocess.run(..., capture_output=True, text=True)]. *)
Record CompletedProcess := { returncode : Z; stdout : string }.

(** Library functions and helper modules that are not part of
    [downloader.py].  [metadata.py], with [convert_thumbnail] and
    [add_metadata], is one of them: each call gives the disk afterwards and
    the value returned or the exception raised. *)
Class Externals := {
  (* shutil.which(name), on the current disk *)
  shutil_which : gset string → string → option string;
  (* os.path.splitext(p), os.path.join(p1, ..., pn) *)
  os_path_splitext : string → string * string;
  os_path_join : list string → string;
  (* float(s): None when it raises ValueError *)
  float_of_str : string → option pyfloat;
  (* s.splitlines() *)
  str_splitlines : string → list string;
  (* sys._MEIPASS when the attribute exists; os.path.dirname(__file__) *)
  sys_MEIPASS : option string;
  module_dirname : string;
  (* os.makedirs(p, exist_ok=True): the disk afterwards, or the OSError
     raised (FileExistsError when p is a plain file, PermissionError, ...) *)
  os_makedirs_result : string → gset string → result (gset string);
  (* what os.remove(p) raises for a path p that exists: None when the file
     is removed, the OSError otherwise (IsADirectoryError when p is a
     directory, PermissionError, ...) *)
  os_remove_error : string → gset string → option exn;
  (* subprocess.run(argv, capture_output=True, text=True) *)
  subprocess_run_result : list string → gset string → result CompletedProcess;
  (* yt_dlp.YoutubeDL(opts).extract_info(url, download=True) *)
  ydl_extract_info : ydl_opts → string → gset string → extraction;
  (* metadata.convert_thumbnail(webp) *)
  convert_thumbnail_result : string → gset string → gset string * result (option string);
  (* metadata.add_metadata(path, info_dict, thumbnail_path) *)
  add_metadata_result :
    string → info_dict → option string → gset string → gset string * result string
}.

Definition of_result {A} (r : result A) : M A := λ w, (r, w).

Section Downloader.
Context {ext : Externals}.

(** [os.remove(p)]: the path must exist, and the operating system must let
    it go. *)
Definition os_remove (p : string) : M unit :=
  λ w, if bool_decide (p ∈ files w) then
         match os_remove_error p (files w) with
         | Some e => (Raise e, w)
         | None => (Ok tt, set_files (files w ∖ {[p]}) w)
         end
       else (Raise (Exception "FileNotFoundError"
                      ("[Errno 2] No such file or directory: '" +:+ p +:+ "'")), w).

Definition subprocess_run (argv : list string) : M CompletedProcess :=
  emit (SubprocessRun argv) ;;
  λ w, (subprocess_run_result argv (files w), w).

Definition convert_thumbnail (webp : string) : M (option string) :=
  emit (ConvertThumbnail webp) ;;
  λ w, let '(fs, r) := convert_thumbnail_result webp (files w) in (r, set_files fs w).

Definition add_metadata (path : string) (info : info_dict) (thumb : option string)
    : M string :=
  emit (AddMetadata path info thumb) ;;
  λ w, let '(fs, r) := add_metadata_result path info thumb (files w) in
       (r, set_files fs w).

(** [ydl.extract_info(url, download=True)] with [hooks] registered as
    ['progress_hooks']: yt_dlp calls every hook on every progress dictionary,
    and an exception of a hook ends the extraction. *)
Definition YoutubeDL_extract_info (opts : ydl_opts)
    (hooks : list (gmap string pyval → M unit)) (url : string) : M info_dict :=
  emit (ExtractInfo opts url) ;;
  x <- (λ w, (Ok (ydl_extract_info opts url (files w)), w)) ;;
  (λ w, (Ok tt, set_files (ex_files x) w)) ;;
  for_each (ex_hook_calls x) tt
    (λ _ d, for_each hooks tt (λ _ hook, hook d)) ;;
  of_result (ex_result x).

(** [float(s)] *)
Definition py_float (s : string) : M pyfloat :=
  match float_of_str s with
  | Some x => ret x
  | None => raise (ValueError ("could not convert string to float: '" +:+ s +:+ "'"))
  end.

(** ** The class [Downloader] *)

(** Lines 164-170. *)
Definition _ffmpeg_available : M bool :=
  λ w, (Ok (bool_decide (shutil_which (files w) "ffmpeg" ≠ None)), w).

(** Lines 152-162. *)
Definition _progress_hook (d : gmap string pyval) : M unit :=
  status <- getitem d "status" ;;
  if py_eq_str status "downloading" then
    p_str <- py_strip (default (PyStr "0%") (d !! "_percent_str")) ;;
    p_val <- try_except (py_float (str_replace percent "" p_str))
               except_ValueError (λ _, ret float_zero) ;;
    progress_callback ProgressHook p_val
  else ret tt.

(** Lines 121-150. *)
Definition _process_single_entry (info_dict : info_dict) : M string :=
  match default [] (requested_downloads info_dict) with
  | [] => ret "Не удалось определить скачанный файл для одной из записей."
  | d0 :: _ =>
      downloaded_path <-
        match filepath d0 with
        | Some p => ret p
        | None => raise (KeyError "filepath")
        end ;;
      downloaded <- os_path_exists downloaded_path ;;
      if negb downloaded then ret ("Файл не был скачан: " +:+ downloaded_path)
      else
        let base_name := fst (os_path_splitext downloaded_path) in
        let webp_thumbnail := base_name +:+ ".webp" in
        has_webp <- os_path_exists webp_thumbnail ;;
        thumbnail_path <-
          (if has_webp then convert_thumbnail webp_thumbnail else ret None) ;;
        meta_result <- add_metadata downloaded_path info_dict thumbnail_path ;;
        match thumbnail_path with
        | Some (String c t) =>
            has_thumbnail <- os_path_exists (String c t) ;;
            if has_thumbnail then os_remove (String c t) else ret tt
        | _ => ret tt
        end ;;
        has_webp' <- os_path_exists webp_thumbnail ;;
        (if has_webp' then os_remove webp_thumbnail else ret tt) ;;
        ret ("Готово: " +:+ downloaded_path +:+ ". " +:+ meta_result)
  end.

(** Lines 90-102. *)
Definition make_ydl_opts (self : Downloader) : ydl_opts :=
  {| format := "bestaudio/best";
     outtmpl := os_path_join [download_folder self; "%(playlist_title)s";
                              "%(title)s.%(ext)s"];
     postprocessors := [ {| key := "FFmpegExtractAudio";
                            preferredcodec := "mp3";
                            preferredquality := "192" |} ];
     ffmpeg_location := ffmpeg_path self;
     writethumbnail := true;
     no_color := true |}.

Definition ffmpeg_missing : string :=
  "ffmpeg не найден. Установите ffmpeg для продолжения.".

(** Lines 82-118. *)
Definition download_audio (self : Downloader) (url : string) : M string :=
  available <- _ffmpeg_available ;;
  if negb available then ret ffmpeg_missing
  else
    let ydl_opts := make_ydl_opts self in
    info_dict <- YoutubeDL_extract_info ydl_opts [_progress_hook] url ;;
    if bool_decide (_type info_dict = Some "playlist") then
      let entries := default [] (entries info_dict) in
      result_messages <-
        for_each entries []
          (λ result_messages entry,
             msg <- _process_single_entry entry ;;
             ret (result_messages ++ [msg])) ;;
      ret (String.concat newline result_messages)
    else _process_single_entry info_dict.

Definition stopped_by_user : string := "Загрузка остановлена пользователем.".

(** How a [for] loop ended: its list ran out, or [break] left it. *)
Inductive loop_exit := Exhausted | Broke.

(** Lines 70-78: the body of the loop after the cancellation check. *)
Definition loop_body (self : Downloader) (total idx : nat) (url : string) : M unit :=
  try_except
    (log_callback ("Обработка ссылки: " +:+ url) ;;
     result <- download_audio self url ;;
     log_callback result)
    except_Exception
    (λ e, log_callback ("Ошибка: " +:+ str_exn e)) ;;
  q <- py_truediv (Z.of_nat idx + 1) (Z.of_nat total) ;;
  let progress := py_mul q 100 in
  progress_callback WorkerLoop progress.

(** Lines 66-78: [for idx, url in enumerate(url_list)], from index [idx] on. *)
Fixpoint for_urls (self : Downloader) (total idx : nat) (url_list : list string)
    : M loop_exit :=
  match url_list with
  | [] => ret Exhausted
  | url :: rest =>
      stopped <- is_set ;;
      if stopped then
        log_callback stopped_by_user ;;
        ret Broke
      else
        loop_body self total idx url ;;
        for_urls self total (S idx) rest
  end.

(** Lines 64-80. *)
Definition _download_all (self : Downloader) (url_list : list string) : M unit :=
  let total := length url_list in
  for_urls self total 0 url_list ;;
  completion_callback.

(** Lines 48-56: the flag is cleared and the worker thread runs
    [_download_all]; the schedule of the world says what the calling thread
    does in the meantime. *)
Definition start_download (self : Downloader) (url_list : list string) : M unit :=
  (λ w, (Ok tt, set_stop_event false w)) ;;
  _download_all self url_list.

(** Lines 10-45. *)
Definition __init__ (download_folder : string) : M Downloader :=
  (λ w, match os_makedirs_result download_folder (files w) with
        | Ok fs => (Ok tt, set_files fs w)
        | Raise e => (Raise e, w)
        end) ;;
  (λ w, (Ok tt, set_stop_event false w)) ;;
  let base_path :=
    match sys_MEIPASS with
    | Some p => p
    | None => os_path_join [module_dirname; "bin"]
    end in
  let ffmpeg_path := os_path_join [base_path; "ffmpeg.exe"] in
  let ffprobe_path := os_path_join [base_path; "ffprobe.exe"] in
  result <- subprocess_run [ffmpeg_path; "-version"] ;;
  (if negb (returncode result =? 0)%Z then
     log_callback "Не удалось запустить ffmpeg. Проверьте, что файл ffmpeg.exe доступен."
   else
     match str_splitlines (stdout result) with
     | line :: _ => log_callback ("ffmpeg обнаружен: " +:+ line)
     | [] => raise (IndexError "list index out of range")
     end) ;;
  ret {| download_folder := download_folder;
         ffmpeg_path := ffmpeg_path;
         ffprobe_path := ffprobe_path |}.

End Downloader.

(** ** Vocabulary of the properties *)

(** No cancellation: the flag is clear and the other thread never calls
    [stop_download]. *)
Definition quiet (w : World) : Prop :=
  stop_event w = false ∧ Forall (λ t, t = Quiet) (sched w).

(** [w'] comes after [w] in a run of the worker: a flag that was set is
    still set, and without a call of [stop_download] it stays clear. *)
Definition steps (w w' : World) : Prop :=
  (stop_event w = true → stop_event w' = true) ∧ (quiet w → quiet w').

(** A computation only appends events, all of them in [P]. *)
Definition emits {A} (P : event → Prop) (m : M A) : Prop :=
  ∀ w, ∃ evs, trace (m w).2 = trace w ++ evs ∧ Forall P evs ∧ steps w (m w).2.

(** The events of one call [download_audio(url)]. *)
Definition download_event (url : string) (e : event) : Prop :=
  match e with
  | ExtractInfo _ u => u = url
  | Progress ProgressHook _ | ConvertThumbnail _ | AddMetadata _ _ _ => True
  | _ => False
  end.

Definition processing (url : string) : string := "Обработка ссылки: " +:+ url.

(** The line logged for the outcome of [download_audio], lines 73 and 75. *)
Definition status_line (r : result string) : string :=
  match r with
  | Ok s => s
  | Raise e => "Ошибка: " +:+ str_exn e
  end.

(** [a / b * 100] for two integers, with its two roundings. *)
Definition percent_of (a b : Z) : pyfloat := py_mul (int_true_divide a b) 100.

(** [(idx + 1) / total * 100], the value of line 77. *)
Definition percent_done (idx total : nat) : pyfloat :=
  percent_of (Z.of_nat idx + 1) (Z.of_nat total).
Arguments percent_done : simpl never.

(** The same expression on the primitive floats of the machine, for lists
    of fewer than 2^53 URLs: both integers are converted exactly, the
    quotient and the product are rounded by the hardware. *)
Definition binary64_of_nat (n : nat) : float := of_uint63 (Uint63.of_Z (Z.of_nat n)).
Definition percent_binary64 (idx total : nat) : float :=
  (binary64_of_nat (idx + 1) / binary64_of_nat total * 100)%float.

(** For a list of [n] URLs the hardware computes the values of
    [percent_done]. *)
Definition binary64_agrees (n : nat) : bool :=
  forallb (λ i, SFeqb (Prim2SF (percent_binary64 i n)) (percent_done i n)) (seq 0 n).

(** Where the quotient [N / D] lies between two consecutive integers: on
    the lower one, or below, at or above the middle. *)
Definition loc_of (N D : Z) : location :=
  if (N mod D =? 0)%Z then loc_Exact else loc_Inexact (2 * (N mod D) ?= D)%Z.

(** An intermediate result of the rounding holds the integer part of
    [N / D] and says where the rest lies. *)
Definition rec_ok (N D : Z) (mrs : shr_record) : Prop :=
  shr_m mrs = (N / D)%Z ∧ loc_of_shr_record mrs = loc_of N D.

(** What the processing of one URL leaves in the trace. *)
Record item := {
  it_url : string;
  it_events : list event;
  it_outcome : result string
}.

Definition block (total idx : nat) (it : item) : list event :=
  Log (processing (it_url it)) :: it_events it ++
  [Log (status_line (it_outcome it)); Progress WorkerLoop (percent_done idx total)].

Fixpoint blocks (total idx : nat) (its : list item) : list event :=
  match its with
  | [] => []
  | it :: its' => block total idx it ++ blocks total (S idx) its'
  end.

(** The events and the outcome of an item are those of a call
    [download_audio(url)]. *)
Definition download_run {ext : Externals} (self : Downloader) (it : item) : Prop :=
  Forall (download_event (it_url it)) (it_events it) ∧
  ∃ w1 w2, download_audio self (it_url it) w1 = (it_outcome it, w2) ∧
           trace w2 = trace w1 ++ it_events it.

(** The values the worker loop passed to [progress_callback]. *)
Definition loop_progress (evs : list event) : list pyfloat :=
  omap (λ e, match e with Progress WorkerLoop v => Some v | _ => None end) evs.

Definition is_AddMetadata (e : event) : bool :=
  match e with AddMetadata _ _ _ => true | _ => false end.

(** [sub] occurs in [s]. *)
Definition contains (sub s : string) : Prop := ∃ pre post, s = pre +:+ sub +:+ post.

(** [s.split("\n")] *)
Fixpoint split_lines (s : string) : list string :=
  match s with
  | EmptyString => [EmptyString]
  | String c s' =>
      if Ascii.eqb c (ascii_of_nat 10) then EmptyString :: split_lines s'
      else match split_lines s' with
           | l :: ls => String c l :: ls
           | [] => [String c EmptyString]
           end
  end.

Fixpoint newline_free (s : string) : bool :=
  match s with
  | EmptyString => true
  | String c s' => negb (Ascii.eqb c (ascii_of_nat 10)) && newline_free s'
  end.

(** The messages of the entries of a playlist, processed one after the other
    from world [w] on, every call returning. *)
Inductive entry_messages {ext : Externals} :
    list info_dict → World → list string → World → Prop :=
| entry_messages_nil w : entry_messages [] w [] w
| entry_messages_cons entry entries w msg w1 msgs w2 :
    _process_single_entry entry w = (Ok msg, w1) →
    entry_messages entries w1 msgs w2 →
    entry_messages (entry :: entries) w (msg :: msgs) w2.

(** *** More vocabulary, for the properties beyond the specification *)

Definition is_ExtractInfo (e : event) : bool :=
  match e with ExtractInfo _ _ => true | _ => false end.

(** A call of the progress callback by the hook. *)
Definition hook_event (e : event) : Prop :=
  match e with Progress ProgressHook _ => True | _ => False end.

(** [downloads[0]['filepath']] when both exist. *)
Definition first_filepath (info : info_dict) : option string :=
  match default [] (requested_downloads info) with
  | d0 :: _ => filepath d0
  | [] => None
  end.

(** The thumbnail that line 145 looks for on disk: a path that is neither
    [None] nor empty. *)
Definition thumbnail_files (thumb : option string) : gset string :=
  match thumb with
  | Some (String c t) => {[ String c t ]}
  | _ => ∅
  end.

(** Lines 145-148 as a function of the disk: each of the two thumbnails is
    removed if it exists, and the first removal that the operating system
    refuses ends the clean-up with its exception. *)
Definition remove_if_exists_result {ext : Externals} (p : string) (fs : gset string)
    : result (gset string) :=
  if bool_decide (p ∈ fs) then
    match os_remove_error p fs with
    | Some e => Raise e
    | None => Ok (fs ∖ {[p]})
    end
  else Ok fs.

Definition cleanup_result {ext : Externals} (thumb : option string) (webp : string)
    (fs : gset string) : result (gset string) :=
  match (match thumb with
         | Some (String c t) => remove_if_exists_result (String c t) fs
         | _ => Ok fs
         end) with
  | Ok fs' => remove_if_exists_result webp fs'
  | Raise e => Raise e
  end.

(** What one URL leaves in the trace when ffmpeg is not on the PATH. *)
Definition guard_block (total idx : nat) (url : string) : list event :=
  [Log (processing url); Log ffmpeg_missing;
   Progress WorkerLoop (percent_done idx total)].

Fixpoint guard_blocks (total idx : nat) (urls : list string) : list event :=
  match urls with
  | [] => []
  | url :: urls' => guard_block total idx url ++ guard_blocks total (S idx) urls'
  end.

(** [base_path] of [__init__], lines 25-29, and the two paths built on it. *)
Definition base_path {ext : Externals} : string :=
  match sys_MEIPASS with
  | Some p => p
  | None => os_path_join [module_dirname; "bin"]
  end.
Definition bundled_ffmpeg {ext : Externals} : string :=
  os_path_join [base_path; "ffmpeg.exe"].
Definition bundled_ffprobe {ext : Externals} : string :=
  os_path_join [base_path; "ffprobe.exe"].

(** What yt_dlp does with the progress dictionaries of one extraction when
    [_progress_hook] is the only hook, as in [YoutubeDL_extract_info]. *)
Definition run_hooks {ext : Externals} (calls : list (gmap string pyval)) : M unit :=
  for_each calls tt (λ _ d, for_each [_progress_hook] tt (λ _ hook, hook d)).

(** The dictionaries lines 107-118 hand to [_process_single_entry]. *)
Definition entries_of (info : info_dict) : list info_dict :=
  if bool_decide (_type info = Some "playlist") then default [] (entries info)
  else [info].

(** The same, for the extraction of [url] on the disk [fs]: nothing when the
    extraction raises. *)
Definition extracted {ext : Externals} (self : Downloader) (url : string)
    (fs : gset string) : list info_dict :=
  match ex_result (ydl_extract_info (make_ydl_opts self) url fs) with
  | Ok info => entries_of info
  | Raise _ => []
  end.

(** The calls of the helpers of [metadata.py] that one call
    [_process_single_entry(info)] can leave in the trace. *)
Definition entry_calls {ext : Externals} (info : info_dict) (evs : list event) : Prop :=
  evs = [] ∨
  ∃ path, first_filepath info = Some path ∧
    let webp := (os_path_splitext path).1 +:+ ".webp" in
    evs = [ConvertThumbnail webp] ∨
    evs = [AddMetadata path info None] ∨
    ∃ thumb, evs = [ConvertThumbnail webp; AddMetadata path info thumb].

(** ** A small world to run the model in

    External collaborators simple enough to compute with: ffmpeg is on the
    PATH when [/usr/bin/ffmpeg] exists, [float] reads plain decimals, yt_dlp
    knows one track and one playlist of two tracks and raises for any other
    URL, and the helpers of [metadata.py] always succeed. *)
Module Demo.

(** [os.path.splitext] of [posixpath]: the extension starts at the last dot
    of the last component that has a character other than a dot before it. *)
Fixpoint ext_index (s : string) (i : nat) (named : bool) (best : option nat)
    : option nat :=
  match s with
  | EmptyString => best
  | String c s' =>
      if Ascii.eqb c "/" then ext_index s' (S i) false None
      else if Ascii.eqb c "." then
        ext_index s' (S i) named (if named then Some i else best)
      else ext_index s' (S i) true best
  end.

Definition splitext (p : string) : string * string :=
  match ext_index p 0 false None with
  | Some i => (substring 0 i p, substring i (String.length p - i) p)
  | None => (p, "")
  end.

Definition digit_of (c : ascii) : option Z :=
  let n := Z.of_nat (nat_of_ascii c) in
  if ((48 <=? n) && (n <=? 57))%Z then Some (n - 48)%Z else None.

(** Digits with at most one point, at least one digit: [num / den]. *)
Fixpoint parse_decimal (num : Z) (den : positive) (point digits : bool) (s : string)
    : option (Z * positive) :=
  match s with
  | EmptyString => if digits then Some (num, den) else None
  | String c s' =>
      match digit_of c with
      | Some d =>
          parse_decimal (10 * num + d)%Z (if point then 10 * den else den)%positive
            point true s'
      | None =>
          if Ascii.eqb c "." && negb point then parse_decimal num den true digits s'
          else None
      end
  end.

(** [float(s)] for a plain decimal, rounded to nearest as Python does.  A
    stand-in for the runs below: Python's [float] also reads signs,
    exponents, [inf], [nan], underscores and surrounding blanks, which this
    function rejects. *)
Definition float_of_decimal (s : string) : option pyfloat :=
  option_map (λ nd, int_true_divide nd.1 (Zpos nd.2)) (parse_decimal 0 1 false false s).

(** [s.splitlines()] on the ASCII line boundaries: [\n], [\r], [\r\n],
    [\v], [\f] and the separators [\x1c], [\x1d], [\x1e].  No line
    for an empty string, no empty line after a final boundary.
    [after_cr] says that the character before was [\r], so that a [\n]
    here belongs to the same boundary. *)
Definition is_linebreak (c : ascii) : bool :=
  let n := nat_of_ascii c in
  ((10 <=? n) && (n <=? 13)) || ((28 <=? n) && (n <=? 30)).

Fixpoint splitlines_from (after_cr : bool) (s : string) : list string :=
  match s with
  | EmptyString => []
  | String c s' =>
      if after_cr && Ascii.eqb c (ascii_of_nat 10) then splitlines_from false s'
      else if is_linebreak c then
        EmptyString :: splitlines_from (Ascii.eqb c (ascii_of_nat 13)) s'
      else match splitlines_from false s' with
           | l :: ls => String c l :: ls
           | [] => [String c EmptyString]
           end
  end.

Definition splitlines (s : string) : list string := splitlines_from false s.

Definition track : string := "https://youtu.be/track".
Definition playlist : string := "https://youtu.be/list".
Definition broken : string := "https://youtu.be/gone".

Definition entry (path title : string) : info_dict :=
  {| _type := Some "video";
     entries := None;
     requested_downloads := Some [ {| filepath := Some path |} ];
     metadata := {[ "title" := PyStr title ]} |}.

Definition downloading (pct : string) : gmap string pyval :=
  {[ "status" := PyStr "downloading"; "_percent_str" := PyStr pct ]}.
Definition finished : gmap string pyval := {[ "status" := PyStr "finished" ]}.

Definition two_tracks : info_dict :=
  {| _type := Some "playlist";
     entries := Some [entry "/music/mix/a.mp3" "a"; entry "/music/mix/b.mp3" "b"];
     requested_downloads := None;
     metadata := {[ "title" := PyStr "mix" ]} |}.

Definition video_unavailable : exn := Exception "DownloadError" "ERROR: Video unavailable".

Definition extract (opts : ydl_opts) (url : string) (fs : gset string) : extraction :=
  if String.eqb url track then
    {| ex_hook_calls := [downloading " 50.0%"; downloading "100%"; finished];
       ex_files := {[ "/music/NA/track.mp3"; "/music/NA/track.webp" ]} ∪ fs;
       ex_result := Ok (entry "/music/NA/track.mp3" "track") |}
  else if String.eqb url playlist then
    {| ex_hook_calls := [downloading "100%"; finished; downloading "100%"; finished];
       ex_files := {[ "/music/mix/a.mp3"; "/music/mix/a.webp"; "/music/mix/b.mp3" ]} ∪ fs;
       ex_result := Ok two_tracks |}
  else
    {| ex_hook_calls := [];
       ex_files := fs;
       ex_result := Raise video_unavailable |}.

Definition externals : Externals :=
  {| shutil_which := λ fs name,
       if bool_decide ("/usr/bin/" +:+ name ∈ fs) then Some ("/usr/bin/" +:+ name)
       else None;
     os_path_splitext := splitext;
     os_path_join := String.concat "/";
     float_of_str := float_of_decimal;
     str_splitlines := splitlines;
     sys_MEIPASS := None;
     module_dirname := "/app";
     os_makedirs_result := λ p fs, Ok ({[p]} ∪ fs);
     os_remove_error := λ p fs, None;
     subprocess_run_result := λ argv fs,
       match argv with
       | exe :: _ =>
           if bool_decide (exe ∈ fs)
           then Ok {| returncode := 0; stdout := "ffmpeg version 6.0" |}
           else Raise (Exception "FileNotFoundError" exe)
       | [] => Raise (IndexError "list index out of range")
       end;
     ydl_extract_info := extract;
     convert_thumbnail_result := λ webp fs,
       let jpg := (splitext webp).1 +:+ ".jpg" in
       ({[jpg]} ∪ fs, Ok (Some jpg));
     add_metadata_result := λ path info thumb fs, (fs, Ok "Метаданные добавлены.") |}.

Definition self : Downloader :=
  {| download_folder := "/music";
     ffmpeg_path := "/app/bin/ffmpeg.exe";
     ffprobe_path := "/app/bin/ffprobe.exe" |}.

(** ffmpeg is on the PATH and bundled; the other thread acts as [sched]
    says. *)
Definition world (sched : list tick) : World :=
  {| files := {[ "/usr/bin/ffmpeg"; "/app/bin/ffmpeg.exe" ]};
     stop_event := false;
     sched := sched;
     trace := [] |}.

(** Only the bundled ffmpeg exists. *)
Definition world_no_PATH : World :=
  {| files := {[ "/app/bin/ffmpeg.exe" ]};
     stop_event := false;
     sched := [];
     trace := [] |}.

(** The world [__init__ "/music"] leaves behind from [world_no_PATH]. *)
Definition world_after_init : World :=
  {| files := {[ "/music"; "/app/bin/ffmpeg.exe" ]};
     stop_event := false;
     sched := [];
     trace := [SubprocessRun ["/app/bin/ffmpeg.exe"; "-version"];
               Log "ffmpeg обнаружен: ffmpeg version 6.0"] |}.

(** [stop_download()] is called during the third action of the worker, the
    call of [extract_info] for the first URL. *)
Definition stop_in_first_download : list tick := [Quiet; Quiet; StopDownload].

(** [stop_download()] is called during the eighth action of the worker, the
    call of [extract_info] for the second URL of [broken; track; ...]. *)
Definition stop_in_second_download : list tick :=
  [Quiet; Quiet; Quiet; Quiet; Quiet; Quiet; Quiet; StopDownload].

(** The disk after the download of the track, thumbnail included. *)
Definition world_with_track : World :=
  {| files := {[ "/usr/bin/ffmpeg"; "/music/NA/track.mp3"; "/music/NA/track.webp" ]};
     stop_event := false;
     sched := [];
     trace := [] |}.

(** An event in a few words, to read a trace. *)
Definition describe (e : event) : string :=
  match e with
  | Log msg => "log: " +:+ msg
  | Progress WorkerLoop _ => "progress (loop)"
  | Progress ProgressHook _ => "progress (hook)"
  | Completion => "completion"
  | SubprocessRun argv => "run: " +:+ String.concat " " argv
  | ExtractInfo _ url => "extract_info: " +:+ url
  | ConvertThumbnail webp => "convert_thumbnail: " +:+ webp
  | AddMetadata path _ thumb => "add_metadata: " +:+ path +:+ ", " +:+ default "None" thumb
  end.

Definition done_a : string := "Готово: /music/mix/a.mp3. Метаданные добавлены.".
Definition done_b : string := "Готово: /music/mix/b.mp3. Метаданные добавлены.".

End Demo.

(** ** A world where things go wrong

    The collaborators of [Demo], except that [ffmpeg -version] fails, the
    playlist has an entry whose download carries no ['filepath'], the
    track sends a progress dictionary without ['status'],
    [/music/NA/track.webp] is a directory, which [os.remove] refuses,
    [/music/NA/clip.webp] is a file [convert_thumbnail] cannot read, and
    [/usr/bin/ffmpeg] is a plain file, which [os.makedirs] refuses. *)
Module Faulty.

Definition no_filepath : info_dict :=
  {| _type := Some "video";
     entries := None;
     requested_downloads := Some [ {| filepath := None |} ];
     metadata := ∅ |}.

Definition three_tracks : info_dict :=
  {| _type := Some "playlist";
     entries := Some [Demo.entry "/music/mix/a.mp3" "a"; no_filepath;
                      Demo.entry "/music/mix/b.mp3" "b"];
     requested_downloads := None;
     metadata := {[ "title" := PyStr "mix" ]} |}.

Definition extract (opts : ydl_opts) (url : string) (fs : gset string) : extraction :=
  if String.eqb url Demo.playlist then
    {| ex_hook_calls := [Demo.downloading "100%"; Demo.finished];
       ex_files := {[ "/music/mix/a.mp3"; "/music/mix/b.mp3" ]} ∪ fs;
       ex_result := Ok three_tracks |}
  else if String.eqb url Demo.track then
    {| ex_hook_calls := [Demo.downloading " 10.0%"; ∅; Demo.downloading "100%"];
       ex_files := {[ "/music/NA/track.mp3.part" ]} ∪ fs;
       ex_result := Ok (Demo.entry "/music/NA/track.mp3" "track") |}
  else
    {| ex_hook_calls := [Demo.downloading " 10.0%"];
       ex_files := {[ "/music/NA/gone.mp3.part" ]} ∪ fs;
       ex_result := Raise Demo.video_unavailable |}.

Definition externals : Externals :=
  {| shutil_which := @shutil_which Demo.externals;
     os_path_splitext := Demo.splitext;
     os_path_join := String.concat "/";
     float_of_str := Demo.float_of_decimal;
     str_splitlines := Demo.splitlines;
     sys_MEIPASS := Some "/tmp/_MEI42";
     module_dirname := "/app";
     os_makedirs_result := λ p fs,
       if String.eqb p "/usr/bin/ffmpeg"
       then Raise (Exception "FileExistsError" "[Errno 17] File exists: '/usr/bin/ffmpeg'")
       else Ok ({[p]} ∪ fs);
     os_remove_error := λ p fs,
       if String.eqb p "/music/NA/track.webp"
       then Some (Exception "IsADirectoryError"
                    "[Errno 21] Is a directory: '/music/NA/track.webp'")
       else None;
     subprocess_run_result := λ argv fs,
       match argv with
       | exe :: _ =>
           if bool_decide (exe ∈ fs)
           then Ok {| returncode := 1; stdout := "" |}
           else Raise (Exception "FileNotFoundError" exe)
       | [] => Raise (IndexError "list index out of range")
       end;
     ydl_extract_info := extract;
     convert_thumbnail_result := λ webp fs,
       if String.eqb webp "/music/NA/clip.webp"
       then (fs, Raise (Exception "OSError" "cannot read '/music/NA/clip.webp'"))
       else @convert_thumbnail_result Demo.externals webp fs;
     add_metadata_result := @add_metadata_result Demo.externals |}.

(** The ffmpeg of the system and the bundled ffmpeg of a frozen
    application are on disk. *)
Definition world_frozen : World :=
  {| files := {[ "/usr/bin/ffmpeg"; "/tmp/_MEI42/ffmpeg.exe" ]};
     stop_event := false;
     sched := [];
     trace := [] |}.

(** The disk after the download of a clip whose thumbnail is unreadable. *)
Definition world_with_clip : World :=
  {| files := {[ "/usr/bin/ffmpeg"; "/music/NA/clip.mp3"; "/music/NA/clip.webp" ]};
     stop_event := false;
     sched := [];
     trace := [] |}.

End Faulty.

(** ** The string functions on a few inputs *)

Example str_strip_percent : str_strip "  50.0% " = "50.0%".
Proof. reflexivity. Qed.

Example str_strip_inner_blank : str_strip " a b " = "a b".
Proof. reflexivity. Qed.

Example str_strip_blanks_only : str_strip ("  " +:+ newline) = "".
Proof. reflexivity. Qed.

Example str_replace_every_percent : str_replace percent "" "5%0%%" = "50".
Proof. reflexivity. Qed.

Example split_lines_two : split_lines ("a" +:+ newline +:+ "b") = ["a"; "b"].
Proof. reflexivity. Qed.

Example splitext_track : Demo.splitext "/music/NA/track.mp3" = ("/music/NA/track", ".mp3").
Proof. reflexivity. Qed.

Example splitext_dot_in_folder : Demo.splitext "/a.b/c" = ("/a.b/c", "").
Proof. reflexivity. Qed.

Example splitext_leading_dot : Demo.splitext ".bashrc" = (".bashrc", "").
Proof. reflexivity. Qed.

Example float_of_decimal_50 : Demo.float_of_decimal "50.0" = Some (float_of_int 50).
Proof. reflexivity. Qed.

Example splitlines_empty : Demo.splitlines "" = [].
Proof. reflexivity. Qed.

Example splitlines_final_newline :
  Demo.splitlines ("ffmpeg version 6.0" +:+ newline +:+ "built with gcc" +:+ newline)
    = ["ffmpeg version 6.0"; "built with gcc"].
Proof. reflexivity. Qed.

Example splitlines_crlf :
  Demo.splitlines (String (ascii_of_nat 13) (String (ascii_of_nat 10) "b")) = [""; "b"].
Proof. reflexivity. Qed.

(** The first progress values of a list of three URLs: 33.33333333333333
    is [0x10aaaaaaaaaaaa * 2^-47] and 66.66666666666666 is
    [0x10aaaaaaaaaaaa * 2^-46]; the third is 100.0. *)
Example percent_done_of_three :
  map (λ i, percent_done i 3) [0; 1; 2] =
    [S754_finite false 4691249611844266 (-47);
     S754_finite false 4691249611844266 (-46);
     float_of_int 100].
Proof. reflexivity. Qed.

Example float_of_decimal_unknown : Demo.float_of_decimal "N/A" = None.
Proof. reflexivity. Qed.

(** ** Rounding in binary64

    What [SFdiv] and [SFmul] compute, read off their definitions: the
    shifts keep the integer part of the quotient and the position of the
    rest, the rounding goes to the nearest mantissa, and in the range of the
    normal numbers the result is within [2^-53] of the exact value,
    relatively. *)

Section Rounding.
#[local] Open Scope Z_scope.

Lemma digits2_pos_bounds p :
  2 ^ (Zpos (digits2_pos p) - 1) <= Zpos p < 2 ^ Zpos (digits2_pos p).
Proof.
  induction p as [p IH|p IH|]; simpl digits2_pos.
  - rewrite Pos2Z.inj_succ. replace (Z.succ (Zpos (digits2_pos p)) - 1) with
      (Z.succ (Zpos (digits2_pos p) - 1)) by lia.
    rewrite !Z.pow_succ_r by lia. lia.
  - rewrite Pos2Z.inj_succ. replace (Z.succ (Zpos (digits2_pos p)) - 1) with
      (Z.succ (Zpos (digits2_pos p) - 1)) by lia.
    rewrite !Z.pow_succ_r by lia. lia.
  - simpl. lia.
Qed.

Lemma Zdigits2_bounds m : 0 < m -> 2 ^ (Zdigits2 m - 1) <= m < 2 ^ Zdigits2 m.
Proof. destruct m as [|p|p]; try lia. intros _. apply digits2_pos_bounds. Qed.

Lemma Zdigits2_unique m d : 2 ^ (d - 1) <= m < 2 ^ d -> 0 < d -> Zdigits2 m = d.
Proof.
  intros [Hlo Hhi] Hd.
  assert (0 < m) as Hm by (pose proof (Z.pow_pos_nonneg 2 (d - 1)); lia).
  destruct (Zdigits2_bounds m Hm) as [Hlo' Hhi'].
  assert (0 < Zdigits2 m) as Hd' by (destruct m; simpl; lia).
  destruct (Z.lt_trichotomy (Zdigits2 m) d) as [Hlt|[Heq|Hgt]]; [|exact Heq|].
  - assert (2 ^ Zdigits2 m <= 2 ^ (d - 1)) by (apply Z.pow_le_mono_r; lia). lia.
  - assert (2 ^ d <= 2 ^ (Zdigits2 m - 1)) by (apply Z.pow_le_mono_r; lia). lia.
Qed.

Lemma rec_ok_of_loc N D : rec_ok N D (shr_record_of_loc (N / D) (loc_of N D)).
Proof.
  split.
  - destruct (loc_of N D) as [|[]]; reflexivity.
  - destruct (loc_of N D) as [|[]]; reflexivity.
Qed.

Lemma shr_1_ok N D mrs :
  0 <= N -> 0 < D -> rec_ok N D mrs -> rec_ok N (2 * D) (shr_1 mrs).
Proof.
  intros HN HD [Hm Hl].
  pose proof (Z.div_mod N D ltac:(lia)) as Hdm.
  pose proof (Z.mod_pos_bound N D HD) as Hr.
  assert (0 <= N / D) as Hq by (apply Z.div_pos; lia).
  unfold loc_of in Hl.
  remember (N / D) as q eqn:Hqdef. remember (N mod D) as r eqn:Hrdef.
  assert (forall q' b, q = 2 * q' + b -> 0 <= b <= 1 ->
            N / (2 * D) = q' /\ N mod (2 * D) = b * D + r) as Hhalf.
  { intros q' b Hq' Hb.
    assert (N = (2 * D) * q' + (b * D + r)) as HN' by nia.
    split.
    - symmetry. apply (Z.div_unique_pos N (2 * D) q' (b * D + r)); [nia|exact HN'].
    - symmetry. apply (Z.mod_unique_pos N (2 * D) q' (b * D + r)); [nia|exact HN']. }
  destruct mrs as [m rb sb]. simpl in Hm. subst m.
  assert (orb rb sb = negb (r =? 0)) as Hs.
  { destruct rb, sb, (r =? 0); simpl in Hl; try discriminate; reflexivity. }
  assert (forall q' b,
            q = 2 * q' + b -> 0 <= b <= 1 ->
            rec_ok N (2 * D)
              {| shr_m := q'; shr_r := (b =? 1); shr_s := orb rb sb |}) as Hgoal.
  { intros q' b Hq' Hb. destruct (Hhalf q' b Hq' Hb) as [Hd' Hm'].
    unfold rec_ok, loc_of. rewrite Hd', Hm', Hs. simpl shr_m. split; [reflexivity|].
    destruct (Z.eqb_spec r 0) as [Hr0|Hr0]; destruct (Z.eqb_spec b 1) as [Hb1|Hb1].
    - replace (b * D + r =? 0) with false by (symmetry; apply Z.eqb_neq; nia).
      replace (2 * (b * D + r) ?= 2 * D) with Eq
        by (symmetry; apply Z.compare_eq_iff; nia).
      reflexivity.
    - replace (b * D + r =? 0) with true by (symmetry; apply Z.eqb_eq; nia).
      reflexivity.
    - replace (b * D + r =? 0) with false by (symmetry; apply Z.eqb_neq; nia).
      replace (2 * (b * D + r) ?= 2 * D) with Gt
        by (symmetry; apply Z.compare_gt_iff; nia).
      reflexivity.
    - replace (b * D + r =? 0) with false by (symmetry; apply Z.eqb_neq; nia).
      replace (2 * (b * D + r) ?= 2 * D) with Lt
        by (symmetry; apply Z.compare_lt_iff; nia).
      reflexivity. }
  destruct q as [|[p|p|]|p]; try lia; simpl shr_1.
  - apply (Hgoal 0 0); lia.
  - apply (Hgoal (Zpos p) 1); lia.
  - apply (Hgoal (Zpos p) 0); lia.
  - apply (Hgoal 0 1); lia.
Qed.

Lemma iter_pos_shr_1_ok p : forall N D mrs,
  0 <= N -> 0 < D -> rec_ok N D mrs ->
  rec_ok N (2 ^ Zpos p * D) (SpecFloat.iter_pos shr_1 p mrs).
Proof.
  induction p as [p IH|p IH|]; intros N D mrs HN HD Hok; simpl SpecFloat.iter_pos.
  - replace (2 ^ Zpos p~1 * D) with (2 ^ Zpos p * (2 ^ Zpos p * (2 * D))).
    2:{ replace (Zpos p~1) with (Zpos p + Zpos p + 1) by lia.
        rewrite !Z.pow_add_r by lia. change (2 ^ 1) with 2. ring. }
    pose proof (Z.pow_pos_nonneg 2 (Zpos p) ltac:(lia) ltac:(lia)).
    apply IH; [lia|nia|]. apply IH; [lia|lia|]. now apply shr_1_ok.
  - replace (2 ^ Zpos p~0 * D) with (2 ^ Zpos p * (2 ^ Zpos p * D)).
    2:{ replace (Zpos p~0) with (Zpos p + Zpos p) by lia.
        rewrite !Z.pow_add_r by lia. ring. }
    pose proof (Z.pow_pos_nonneg 2 (Zpos p) ltac:(lia) ltac:(lia)).
    apply IH; [lia|nia|]. now apply IH.
  - replace (2 ^ 1 * D) with (2 * D) by reflexivity. now apply shr_1_ok.
Qed.

Lemma round_nearest_even_ok N D mrs :
  0 <= N -> 0 < D -> rec_ok N D mrs ->
  let R := round_nearest_even (shr_m mrs) (loc_of_shr_record mrs) in
  N / D <= R <= N / D + 1 /\ - D <= 2 * (R * D - N) <= D.
Proof.
  intros HN HD [Hm Hl] R. unfold R. rewrite Hm, Hl. clear R Hm Hl mrs.
  pose proof (Z.div_mod N D ltac:(lia)) as Hdm.
  pose proof (Z.mod_pos_bound N D HD) as Hr.
  unfold loc_of. remember (N / D) as q. remember (N mod D) as r.
  destruct (Z.eqb_spec r 0) as [Hr0|Hr0]; cbn [round_nearest_even].
  - nia.
  - destruct (Z.compare_spec (2 * r) D) as [Hc|Hc|Hc].
    + destruct (Z.even q); nia.
    + nia.
    + nia.
Qed.

Lemma fexp_normal z : -1074 <= z - 53 -> fexp prec emax z = z - 53.
Proof. unfold fexp, SpecFloat.emin, prec, emax. lia. Qed.

(** Rounding a quotient [N / D] of at least 53 bits, scaled by [2 ^ ex], in
    the range of the normal numbers. *)
Lemma binary_round_aux_normal sx N D ex d :
  0 <= N -> 0 < D ->
  Zdigits2 (N / D) = d -> 53 <= d ->
  -1074 <= d + ex - 53 -> d + ex <= 1023 ->
  exists m e j,
    binary_round_aux prec emax sx (N / D) ex (loc_of N D) = S754_finite sx m e /\
    2 ^ 52 <= Zpos m < 2 ^ 53 /\
    e = ex + j /\ d - 53 <= j <= d - 52 /\
    - (2 ^ (d - 53) * D) <= 2 * (Zpos m * 2 ^ j * D - N) <= 2 ^ (d - 53) * D.
Proof.
  intros HN HD Hd Hd53 Hlo Hhi.
  set (k := d - 53).
  assert (0 <= k) as Hk by (unfold k; lia).
  assert (0 < 2 ^ k) as Hpk by (apply Z.pow_pos_nonneg; lia).
  assert (0 < N / D) as Hq.
  { pose proof (Z.div_pos N D HN HD). destruct (N / D) as [|p|p]; simpl in Hd; lia. }
  destruct (Zdigits2_bounds (N / D) Hq) as [Hql Hqh]. rewrite Hd in Hql, Hqh.
  assert (2 ^ d = 2 ^ 53 * 2 ^ k) as Hpd.
  { unfold k. rewrite <-Z.pow_add_r by lia. f_equal. lia. }
  assert (2 ^ (d - 1) = 2 ^ 52 * 2 ^ k) as Hpd1.
  { unfold k. rewrite <-Z.pow_add_r by lia. f_equal. lia. }
  pose proof (Z.div_mod N D ltac:(lia)) as Hdm.
  pose proof (Z.mod_pos_bound N D HD) as Hr.
  (* the first shift *)
  assert (exists mrs', shr_fexp prec emax (N / D) ex (loc_of N D) = (mrs', ex + k) /\
                       rec_ok N (2 ^ k * D) mrs') as (mrs' & Hshr & Hok).
  { unfold shr_fexp. rewrite Hd, fexp_normal by lia.
    replace (d + ex - 53 - ex) with k by (unfold k; lia).
    unfold shr. destruct k as [|p|p] eqn:Hkp; [| |lia].
    - eexists. split; [f_equal; lia|]. rewrite Z.pow_0_r, Z.mul_1_l. apply rec_ok_of_loc.
    - eexists. split; [reflexivity|]. apply iter_pos_shr_1_ok; [lia|lia|apply rec_ok_of_loc]. }
  unfold binary_round_aux. rewrite Hshr.
  assert (0 < 2 ^ k * D) as HD' by nia.
  destruct (round_nearest_even_ok N (2 ^ k * D) mrs' HN HD' Hok) as [HR1 HR2].
  destruct Hok as [Hm1 _].
  set (R := round_nearest_even (shr_m mrs') (loc_of_shr_record mrs')) in *.
  assert (2 ^ 52 <= N / (2 ^ k * D) < 2 ^ 53) as Hm1b.
  { split.
    - apply Z.div_le_lower_bound; [lia|]. nia.
    - apply Z.div_lt_upper_bound; [lia|]. nia. }
  assert (2 ^ 52 <= R <= 2 ^ 53) as HRb by lia.
  clearbody R. clear Hm1 Hshr mrs'.
  destruct (Z.eq_dec R (2 ^ 53)) as [HR53|HR53].
  - (* the rounding carried into the next binade *)
    subst R. unfold shr_fexp.
    replace (Zdigits2 (2 ^ 53)) with 54 by reflexivity.
    rewrite fexp_normal by lia.
    replace (54 + (ex + k) - 53 - (ex + k)) with 1 by lia.
    simpl shr. cbn [shr_m].
    replace (ex + k + 1 <=? emax - prec) with true
      by (symmetry; apply Z.leb_le; unfold emax, prec, k; lia).
    eexists _, _, (k + 1). split; [reflexivity|].
    split; [vm_compute; split; [discriminate|reflexivity]|].
    split; [lia|]. split; [unfold k; lia|].
    rewrite Z.pow_add_r by lia. change (2 ^ 1) with 2.
    replace (Zpos 4503599627370496) with (2 ^ 52) by reflexivity.
    replace (2 ^ 52 * (2 ^ k * 2)) with (2 ^ 53 * 2 ^ k) by (change (2 ^ 53) with (2 ^ 52 * 2); ring).
    fold k. nia.
  - assert (Zdigits2 R = 53) as HdR by (apply Zdigits2_unique; [simpl; lia|lia]).
    unfold shr_fexp. rewrite HdR, fexp_normal by lia.
    replace (53 + (ex + k) - 53 - (ex + k)) with 0 by lia.
    simpl shr. cbn [shr_m shr_record_of_loc].
    destruct R as [|p|p]; try lia.
    replace (ex + k <=? emax - prec) with true
      by (symmetry; apply Z.leb_le; unfold emax, prec, k; lia).
    exists p, (ex + k), k. split; [reflexivity|].
    split; [lia|]. split; [reflexivity|]. split; [unfold k; lia|].
    fold k. nia.
Qed.

(** Shifting keeps a mantissa that is not negative, and halves it. *)
Lemma shr_1_m mrs : 0 <= shr_m mrs -> shr_m (shr_1 mrs) = shr_m mrs / 2.
Proof.
  destruct mrs as [m r s]. simpl. intros Hm.
  destruct m as [|[p|p|]|p]; try lia; simpl shr_m.
  - reflexivity.
  - rewrite Pos2Z.inj_xI. apply (Z.div_unique_pos _ 2 _ 1); lia.
  - rewrite Pos2Z.inj_xO. apply (Z.div_unique_pos _ 2 _ 0); lia.
  - reflexivity.
Qed.

Lemma iter_pos_shr_1_m p : forall mrs,
  0 <= shr_m mrs -> shr_m (SpecFloat.iter_pos shr_1 p mrs) = shr_m mrs / 2 ^ Zpos p.
Proof.
  assert (forall m, 0 <= m -> 0 <= m / 2) as Hhalf by (intros; apply Z.div_pos; lia).
  induction p as [p IH|p IH|]; intros mrs Hm; simpl SpecFloat.iter_pos.
  - pose proof (Z.pow_pos_nonneg 2 (Zpos p) ltac:(lia) ltac:(lia)) as Hp.
    rewrite IH, IH, shr_1_m by
      first [assumption | rewrite ?IH, ?shr_1_m by (rewrite ?shr_1_m by assumption; auto);
                          repeat apply Z.div_pos; auto; lia].
    rewrite !Z.div_div by lia. f_equal.
    replace (Zpos p~1) with (Zpos p + Zpos p + 1) by lia.
    rewrite !Z.pow_add_r by lia. change (2 ^ 1) with 2. ring.
  - pose proof (Z.pow_pos_nonneg 2 (Zpos p) ltac:(lia) ltac:(lia)) as Hp.
    rewrite IH, IH by first [assumption | rewrite IH by assumption; apply Z.div_pos; lia].
    rewrite !Z.div_div by lia. f_equal.
    replace (Zpos p~0) with (Zpos p + Zpos p) by lia.
    rewrite !Z.pow_add_r by lia. ring.
  - rewrite shr_1_m by assumption. reflexivity.
Qed.

Lemma Zdigits2_le_bound m x : 0 <= m < 2 ^ x -> 0 <= x -> Zdigits2 m <= x.
Proof.
  intros [Hm0 Hmx] Hx. destruct (Z.eq_dec m 0) as [->|Hne]; [simpl; lia|].
  destruct (Zdigits2_bounds m ltac:(lia)) as [Hl _].
  assert (0 < Zdigits2 m) by (destruct m; simpl; lia).
  destruct (Z.le_gt_cases (Zdigits2 m) x) as [|Hgt]; [assumption|].
  assert (2 ^ x <= 2 ^ (Zdigits2 m - 1)) by (apply Z.pow_le_mono_r; lia). lia.
Qed.

(** The exponent and the mantissa after [shr_fexp], for a mantissa that is
    not negative. *)
Lemma shr_fexp_m m e l :
  0 <= m ->
  let n := fexp prec emax (Zdigits2 m + e) - e in
  shr_fexp prec emax m e l =
    (fst (shr_fexp prec emax m e l), e + Z.max n 0) /\
  shr_m (fst (shr_fexp prec emax m e l)) = m / 2 ^ Z.max n 0.
Proof.
  intros Hm n. unfold shr_fexp. fold n. unfold shr.
  assert (shr_m (shr_record_of_loc m l) = m) as Hrec by (destruct l as [|[]]; reflexivity).
  destruct n as [|p|p]; simpl fst; simpl snd.
  - rewrite Hrec. split; [f_equal; lia|]. simpl. rewrite Z.div_1_r. reflexivity.
  - split; [reflexivity|]. rewrite iter_pos_shr_1_m by (rewrite Hrec; exact Hm).
    rewrite Hrec. reflexivity.
  - rewrite Hrec. split; [f_equal; lia|]. simpl. rewrite Z.div_1_r. reflexivity.
Qed.

(** Rounding never overflows when the number is far below [2 ^ 1024]. *)
Lemma binary_round_aux_no_overflow sx mx ex lx s :
  0 <= mx -> Zdigits2 mx + ex <= 1000 -> ex <= 900 ->
  binary_round_aux prec emax sx mx ex lx <> S754_infinity s.
Proof.
  intros Hmx Hd Hex. unfold binary_round_aux.
  destruct (shr_fexp_m mx ex lx Hmx) as [He1 Hm1].
  set (n1 := fexp prec emax (Zdigits2 mx + ex) - ex) in *.
  destruct (shr_fexp prec emax mx ex lx) as [mrs' e'] eqn:Hshr1.
  simpl in He1, Hm1. injection He1 as He1.
  set (R := round_nearest_even (shr_m mrs') (loc_of_shr_record mrs')).
  assert (0 < 2 ^ Z.max n1 0) as Hp1 by (apply Z.pow_pos_nonneg; lia).
  assert (0 <= shr_m mrs') as Hm1pos by (rewrite Hm1; apply Z.div_pos; lia).
  assert (shr_m mrs' <= R <= shr_m mrs' + 1) as HR.
  { unfold R, round_nearest_even. destruct (loc_of_shr_record mrs') as [|[]];
      try destruct (Z.even _); lia. }
  assert (0 <= R) as HR0 by lia.
  assert (Zdigits2 R + e' <= 1001) as HdR.
  { assert (fexp prec emax (Zdigits2 mx + ex) <= 947) as Hf
      by (unfold fexp, SpecFloat.emin, prec, emax; lia).
    assert (0 <= Zdigits2 mx) as Hdm0 by (destruct mx; simpl; lia).
    destruct (Z.le_gt_cases (Z.max n1 0) (Zdigits2 mx)) as [Hle|Hgt].
    - assert (Zdigits2 R <= Zdigits2 mx - Z.max n1 0 + 1); [|lia].
      apply Zdigits2_le_bound; [|lia]. split; [lia|].
      assert (shr_m mrs' < 2 ^ (Zdigits2 mx - Z.max n1 0)).
      { rewrite Hm1. apply Z.div_lt_upper_bound; [lia|].
        rewrite <-Z.pow_add_r by lia.
        replace (Z.max n1 0 + (Zdigits2 mx - Z.max n1 0)) with (Zdigits2 mx) by lia.
        destruct (Z.eq_dec mx 0) as [->|Hne]; [apply Z.pow_pos_nonneg; lia|].
        apply Zdigits2_bounds. lia. }
      rewrite Z.pow_add_r by lia. change (2 ^ 1) with 2. lia.
    - assert (shr_m mrs' = 0) as Hz.
      { rewrite Hm1. apply Z.div_small. split; [lia|].
        destruct (Z.eq_dec mx 0) as [->|Hne]; [lia|].
        destruct (Zdigits2_bounds mx ltac:(lia)) as [_ Hh].
        assert (2 ^ Zdigits2 mx <= 2 ^ Z.max n1 0) by (apply Z.pow_le_mono_r; lia). lia. }
      assert (Zdigits2 R <= 1).
      { apply Zdigits2_le_bound; [|lia]. change (2 ^ 1) with 2. lia. }
      unfold n1 in *. lia. }
  destruct (shr_fexp_m R e' loc_Exact HR0) as [He2 Hm2].
  set (n2 := fexp prec emax (Zdigits2 R + e') - e') in *.
  fold R. destruct (shr_fexp prec emax R e' loc_Exact) as [mrs'' e''] eqn:Hshr2.
  simpl in He2, Hm2. injection He2 as He2.
  assert (e'' <= emax - prec) as Hfin.
  { assert (fexp prec emax (Zdigits2 R + e') <= 948) as Hf
      by (unfold fexp, SpecFloat.emin, prec, emax; lia).
    assert (fexp prec emax (Zdigits2 mx + ex) <= 947) as Hf'
      by (unfold fexp, SpecFloat.emin, prec, emax; lia).
    unfold emax, prec. unfold n2, n1 in *. lia. }
  apply Z.leb_le in Hfin.
  destruct (shr_m mrs'') as [|p|p]; [discriminate| |discriminate].
  rewrite Hfin. discriminate.
Qed.


Lemma new_location_loc_of nb k :
  0 < nb -> 0 <= k < nb ->
  new_location nb k = if k =? 0 then loc_Exact else loc_Inexact (2 * k ?= nb).
Proof.
  intros Hnb Hk. unfold new_location, new_location_even, new_location_odd.
  destruct (Z.even nb) eqn:Hev; [reflexivity|].
  destruct (k =? 0); [reflexivity|]. f_equal.
  assert (Z.odd nb = true) as Hodd by (rewrite <-Z.negb_even, Hev; reflexivity).
  apply Z.odd_spec in Hodd. destruct Hodd as [c Hc].
  destruct (Z.compare_spec (2 * k + 1) nb) as [H|H|H];
    symmetry; [apply Z.compare_lt_iff|apply Z.compare_lt_iff|apply Z.compare_gt_iff]; lia.
Qed.

Lemma SFdiv_core_binary_eq a e1 n e2 :
  0 < a -> 0 < n ->
  let e' := Z.min (fexp prec emax (Zdigits2 a + e1 - (Zdigits2 n + e2))) (e1 - e2) in
  let N := a * 2 ^ (e1 - e2 - e') in
  SFdiv_core_binary prec emax a e1 n e2 = (N / n, e', loc_of N n).
Proof.
  intros Ha Hn e' N. unfold SFdiv_core_binary. fold e'.
  assert (0 <= e1 - e2 - e') as Hs by (unfold e'; lia).
  assert ((match e1 - e2 - e' with
           | 0 => a
           | Zpos _ => Z.shiftl a (e1 - e2 - e')
           | Zneg _ => 0
           end) = N) as ->.
  { unfold N. destruct (e1 - e2 - e') as [|p|p] eqn:Hp; [|rewrite Z.shiftl_mul_pow2 by lia; reflexivity|lia].
    rewrite Z.pow_0_r. lia. }
  unfold Z.div, Z.modulo. pose proof (Z.mod_pos_bound N n Hn) as Hr.
  unfold loc_of. unfold Z.modulo in *.
  destruct (Z.div_eucl N n) as [q r]. f_equal.
  apply new_location_loc_of; assumption.
Qed.

Lemma Zdigits2_le a n : 0 < a <= n -> Zdigits2 a <= Zdigits2 n.
Proof.
  intros Han.
  destruct (Zdigits2_bounds a ltac:(lia)) as [Hal _].
  destruct (Zdigits2_bounds n ltac:(lia)) as [_ Hnh].
  assert (0 < Zdigits2 n) by (destruct n; simpl; lia).
  assert (2 ^ (Zdigits2 a - 1) < 2 ^ Zdigits2 n) as Hlt by lia.
  apply Z.pow_lt_mono_r_iff in Hlt; lia.
Qed.

Lemma Zdigits2_range m lo hi :
  0 <= lo -> 2 ^ lo <= m < 2 ^ hi -> lo < Zdigits2 m <= hi.
Proof.
  intros Hlo [Hml Hmh].
  assert (0 < m) as Hm by (pose proof (Z.pow_pos_nonneg 2 lo); lia).
  destruct (Zdigits2_bounds m Hm) as [Hl Hh].
  assert (0 < Zdigits2 m) by (destruct m; simpl; lia).
  split.
  - assert (2 ^ lo < 2 ^ Zdigits2 m) as Hlt by lia.
    apply Z.pow_lt_mono_r_iff in Hlt; lia.
  - destruct (Z.le_gt_cases (Zdigits2 m) hi) as [|Hgt]; [assumption|].
    assert (0 <= hi).
    { destruct (Z.le_gt_cases 0 hi); [assumption|]. rewrite Z.pow_neg_r in Hmh; lia. }
    assert (2 ^ hi <= 2 ^ (Zdigits2 m - 1)) by (apply Z.pow_le_mono_r; lia). lia.
Qed.

(** The quotient of two integers, [0 < a <= n], in the normal range: a
    53-bit mantissa and a relative error of at most [2 ^ -53]. *)
Lemma int_true_divide_spec a n S :
  0 < a <= n -> Zdigits2 n <= 1000 -> Zdigits2 n + 53 <= S ->
  exists m e,
    int_true_divide a n = S754_finite false m e /\
    2 ^ 52 <= Zpos m < 2 ^ 53 /\
    - S <= e <= 1 /\
    (2 ^ 53 - 1) * (a * 2 ^ S) <= 2 ^ 53 * (Zpos m * 2 ^ (e + S) * n)
      <= (2 ^ 53 + 1) * (a * 2 ^ S).
Proof.
  intros Han Hdn HS.
  assert (0 < n) as Hn by lia.
  pose proof (Zdigits2_le a n Han) as Hdle.
  destruct (Zdigits2_bounds a ltac:(lia)) as [Hal Hah].
  destruct (Zdigits2_bounds n Hn) as [Hnl Hnh].
  assert (0 < Zdigits2 a) as Hd1 by (destruct a; simpl; lia).
  set (d1 := Zdigits2 a) in *. set (d2 := Zdigits2 n) in *.
  set (s := 53 + d2 - d1).
  assert (int_true_divide a n =
            binary_round_aux prec emax false (a * 2 ^ s / n) (- s) (loc_of (a * 2 ^ s) n))
    as ->.
  { unfold int_true_divide. destruct a as [|pa|pa]; try lia. destruct n as [|pn|pn]; try lia.
    unfold Z_to_SF, SFdiv.
    rewrite (SFdiv_core_binary_eq (Zpos pa) 0 (Zpos pn) 0) by lia.
    fold d1 d2. rewrite fexp_normal by lia.
    replace (Z.min (d1 + 0 - (d2 + 0) - 53) (0 - 0)) with (- s) by (unfold s; lia).
    replace (0 - 0 - - s) with s by lia. reflexivity. }
  assert (0 < 2 ^ s) as Hps by (apply Z.pow_pos_nonneg; unfold s; lia).
  set (N := a * 2 ^ s).
  assert (2 ^ (52 + d2) <= N < 2 ^ (53 + d2)) as HNb.
  { unfold N. split.
    - replace (52 + d2) with ((d1 - 1) + s) by (unfold s; lia).
      rewrite Z.pow_add_r by (unfold s; lia). nia.
    - replace (53 + d2) with (d1 + s) by (unfold s; lia).
      rewrite Z.pow_add_r by (unfold s; lia). nia. }
  assert (2 ^ 52 <= N / n < 2 ^ 54) as Hqb.
  { split.
    - apply Z.div_le_lower_bound; [lia|].
      destruct HNb as [HNb _].
      rewrite Z.pow_add_r in HNb by lia. nia.
    - apply Z.div_lt_upper_bound; [lia|].
      destruct HNb as [_ HNb].
      replace (53 + d2) with (54 + (d2 - 1)) in HNb by lia.
      rewrite Z.pow_add_r in HNb by lia. nia. }
  destruct (Zdigits2_range (N / n) 52 54 ltac:(lia) Hqb) as [Hdl Hdh].
  remember (Zdigits2 (N / n)) as d eqn:Hd. symmetry in Hd.
  assert (0 <= N) as HN0 by (unfold N; nia).
  destruct (binary_round_aux_normal false N n (- s) d HN0 Hn Hd ltac:(lia)
              ltac:(unfold s; lia) ltac:(unfold s; lia))
    as (m & e & j & Hres & Hm & He & Hj & Hb).
  exists m, e. split; [exact Hres|]. split; [exact Hm|].
  split; [unfold s in He; lia|].
  (* the error of one rounding *)
  assert (0 < 2 ^ (d - 53)) as Hpk by (apply Z.pow_pos_nonneg; lia).
  assert (2 ^ 52 * (2 ^ (d - 53) * n) <= N) as Hrel.
  { assert (0 < N / n) as Hq0 by lia.
    destruct (Zdigits2_bounds (N / n) Hq0) as [Hql _]. rewrite Hd in Hql.
    replace (d - 1) with (52 + (d - 53)) in Hql by lia.
    rewrite Z.pow_add_r in Hql by lia.
    pose proof (Z.div_mod N n ltac:(lia)) as Hdm.
    pose proof (Z.mod_pos_bound N n Hn) as Hr. nia. }
  assert (0 <= j) as Hj0 by lia.
  assert (0 < 2 ^ j) as Hpj by (apply Z.pow_pos_nonneg; lia).
  assert (0 < 2 ^ S) as HpS by (apply Z.pow_pos_nonneg; lia).
  assert (2 ^ (e + S) * 2 ^ s = 2 ^ j * 2 ^ S) as Hpow.
  { rewrite <-!Z.pow_add_r by (unfold s in *; lia). f_equal. lia. }
  set (M := Zpos m * 2 ^ j * n) in *.
  set (K := 2 ^ (d - 53) * n) in *.
  assert ((2 ^ 53 - 1) * N <= 2 ^ 53 * M <= (2 ^ 53 + 1) * N) as HMN by lia.
  (* scale by 2 ^ S and cancel 2 ^ s *)
  assert (Zpos m * 2 ^ (e + S) * n * 2 ^ s = M * 2 ^ S) as HM.
  { unfold M. replace (Zpos m * 2 ^ (e + S) * n * 2 ^ s)
      with (Zpos m * (2 ^ (e + S) * 2 ^ s) * n) by ring. rewrite Hpow. ring. }
  assert (a * 2 ^ S * 2 ^ s = N * 2 ^ S) as HA by (unfold N; ring).
  split.
  - apply (Z.mul_le_mono_pos_r _ _ (2 ^ s) Hps).
    replace ((2 ^ 53 - 1) * (a * 2 ^ S) * 2 ^ s) with ((2 ^ 53 - 1) * (a * 2 ^ S * 2 ^ s)) by ring.
    replace (2 ^ 53 * (Zpos m * 2 ^ (e + S) * n) * 2 ^ s)
      with (2 ^ 53 * (Zpos m * 2 ^ (e + S) * n * 2 ^ s)) by ring.
    rewrite HM, HA. nia.
  - apply (Z.mul_le_mono_pos_r _ _ (2 ^ s) Hps).
    replace ((2 ^ 53 + 1) * (a * 2 ^ S) * 2 ^ s) with ((2 ^ 53 + 1) * (a * 2 ^ S * 2 ^ s)) by ring.
    replace (2 ^ 53 * (Zpos m * 2 ^ (e + S) * n) * 2 ^ s)
      with (2 ^ 53 * (Zpos m * 2 ^ (e + S) * n * 2 ^ s)) by ring.
    rewrite HM, HA. nia.
Qed.

(** The product of two positive normal numbers, away from overflow and
    underflow. *)
Lemma float_mul_spec m1 e1 m2 e2 S :
  2 ^ 52 <= Zpos m1 < 2 ^ 53 -> 2 ^ 52 <= Zpos m2 < 2 ^ 53 ->
  -1000 <= e1 + e2 <= 800 -> 0 <= e1 + e2 + S ->
  exists m e,
    float_mul (S754_finite false m1 e1) (S754_finite false m2 e2) = S754_finite false m e /\
    2 ^ 52 <= Zpos m < 2 ^ 53 /\
    e1 + e2 + 52 <= e <= e1 + e2 + 54 /\
    (2 ^ 53 - 1) * (Zpos m1 * Zpos m2 * 2 ^ (e1 + e2 + S)) <= 2 ^ 53 * (Zpos m * 2 ^ (e + S))
      <= (2 ^ 53 + 1) * (Zpos m1 * Zpos m2 * 2 ^ (e1 + e2 + S)).
Proof.
  intros Hm1 Hm2 He HS.
  set (N := Zpos m1 * Zpos m2).
  assert (2 ^ 104 <= N < 2 ^ 106) as HNb.
  { unfold N. change (2 ^ 104) with (2 ^ 52 * 2 ^ 52). change (2 ^ 106) with (2 ^ 53 * 2 ^ 53).
    nia. }
  assert (float_mul (S754_finite false m1 e1) (S754_finite false m2 e2) =
            binary_round_aux prec emax false (N / 1) (e1 + e2) (loc_of N 1)) as ->.
  { unfold float_mul, SFmul, loc_of. rewrite Z.div_1_r, Z.mod_1_r. reflexivity. }
  assert (104 < Zdigits2 (N / 1) <= 106) as Hd.
  { apply Zdigits2_range; [lia|]. rewrite Z.div_1_r. exact HNb. }
  remember (Zdigits2 (N / 1)) as d eqn:Hdd. symmetry in Hdd.
  destruct (binary_round_aux_normal false N 1 (e1 + e2) d ltac:(lia) ltac:(lia) Hdd
              ltac:(lia) ltac:(lia) ltac:(lia))
    as (m & e & j & Hres & Hm & Hee & Hj & Hb).
  exists m, e. split; [exact Hres|]. split; [exact Hm|]. split; [lia|].
  assert (0 < 2 ^ (d - 53)) as Hpk by (apply Z.pow_pos_nonneg; lia).
  assert (2 ^ 52 * 2 ^ (d - 53) <= N) as Hrel.
  { rewrite Z.div_1_r in Hdd.
    destruct (Zdigits2_bounds N ltac:(lia)) as [Hql _]. rewrite Hdd in Hql.
    replace (d - 1) with (52 + (d - 53)) in Hql by lia.
    rewrite Z.pow_add_r in Hql by lia. exact Hql. }
  assert (0 < 2 ^ (e1 + e2 + S)) as Hpe by (apply Z.pow_pos_nonneg; lia).
  assert (2 ^ (e + S) = 2 ^ j * 2 ^ (e1 + e2 + S)) as Hpow.
  { rewrite <-Z.pow_add_r by lia. f_equal. lia. }
  rewrite Hpow.
  set (M := Zpos m * 2 ^ j) in *. set (K := 2 ^ (d - 53)) in *.
  set (T := 2 ^ (e1 + e2 + S)) in *.
  assert ((2 ^ 53 - 1) * N <= 2 ^ 53 * M <= (2 ^ 53 + 1) * N) as HMN by lia.
  replace (2 ^ 53 * (Zpos m * (2 ^ j * T))) with (2 ^ 53 * M * T) by (unfold M; ring).
  replace ((2 ^ 53 - 1) * (N * T)) with ((2 ^ 53 - 1) * N * T) by ring.
  replace ((2 ^ 53 + 1) * (N * T)) with ((2 ^ 53 + 1) * N * T) by ring.
  split; apply Z.mul_le_mono_nonneg_r; lia.
Qed.

Lemma SFltb_scaled m1 e1 m2 e2 S :
  2 ^ 52 <= Zpos m1 < 2 ^ 53 -> 2 ^ 52 <= Zpos m2 < 2 ^ 53 ->
  0 <= e1 + S -> 0 <= e2 + S ->
  Zpos m1 * 2 ^ (e1 + S) < Zpos m2 * 2 ^ (e2 + S) ->
  SFltb (S754_finite false m1 e1) (S754_finite false m2 e2) = true.
Proof.
  intros Hm1 Hm2 H1 H2 Hlt. unfold SFltb, SFcompare.
  assert (0 < 2 ^ (e2 + S)) as Hp2 by (apply Z.pow_pos_nonneg; lia).
  destruct (Z.compare_spec e1 e2) as [Heq|Hl|Hg].
  - subst e2. assert (Zpos m1 < Zpos m2) as Hm by nia.
    change (Pos.compare_cont Eq m1 m2) with (Pos.compare m1 m2).
    apply Pos.compare_lt_iff in Hm. rewrite Hm. reflexivity.
  - reflexivity.
  - exfalso.
    assert (2 * 2 ^ (e2 + S) <= 2 ^ (e1 + S)).
    { rewrite <-Z.pow_succ_r by lia. apply Z.pow_le_mono_r; lia. }
    change (2 ^ 53) with (2 * 2 ^ 52) in *. nia.
Qed.

Lemma float_of_int_100 : float_of_int 100 = S754_finite false 7036874417766400 (-46).
Proof. reflexivity. Qed.

(** What [percent_of a n] is, for [0 < a <= n <= 2 ^ 51]: a positive normal
    number within two roundings of [a / n * 100]. *)
Lemma percent_spec a n :
  0 < a <= n -> n <= 2 ^ 51 ->
  exists m e,
    percent_of a n = S754_finite false m e /\
    2 ^ 52 <= Zpos m < 2 ^ 53 /\ 0 <= e + 151 /\
    (2 ^ 53 - 1) * (2 ^ 53 - 1) * (100 * 2 ^ 46 * (a * 2 ^ 105))
      <= 2 ^ 106 * (Zpos m * 2 ^ (e + 151) * n)
      <= (2 ^ 53 + 1) * (2 ^ 53 + 1) * (100 * 2 ^ 46 * (a * 2 ^ 105)).
Proof.
  intros Han Hn.
  assert (Zdigits2 n <= 52) as Hdn.
  { apply (Zdigits2_range n 0 52); [lia|]. change (2 ^ 0) with 1.
    change (2 ^ 52) with (2 * 2 ^ 51). lia. }
  destruct (int_true_divide_spec a n 105 Han ltac:(lia) ltac:(lia))
    as (mq & eq & Hq & Hmq & Heq & Hbq).
  unfold percent_of, py_mul. rewrite Hq, float_of_int_100.
  destruct (float_mul_spec mq eq 7036874417766400 (-46) 151 Hmq
              ltac:(split; [discriminate|reflexivity]) ltac:(lia) ltac:(lia))
    as (m & e & Hp & Hm & He & Hbp).
  exists m, e. split; [exact Hp|]. split; [exact Hm|]. split; [lia|].
  replace (eq + -46 + 151) with (eq + 105) in Hbp by lia.
  change (Zpos 7036874417766400) with (100 * 2 ^ 46) in Hbp.
  assert (0 < 2 ^ (eq + 105)) as Hpq by (apply Z.pow_pos_nonneg; lia).
  assert (0 < 2 ^ (e + 151)) as Hpp by (apply Z.pow_pos_nonneg; lia).
  set (Q := Zpos mq * 2 ^ (eq + 105)) in *.
  set (P := Zpos m * 2 ^ (e + 151)) in *.
  set (A := a * 2 ^ 105) in *.
  replace (Zpos mq * (100 * 2 ^ 46) * 2 ^ (eq + 105)) with (100 * 2 ^ 46 * Q) in Hbp
    by (unfold Q; ring).
  assert (0 <= Q) as HQ0 by (unfold Q; nia).
  assert ((2 ^ 53 - 1) * (100 * 2 ^ 46 * (Q * n)) <= 2 ^ 53 * (P * n)
            <= (2 ^ 53 + 1) * (100 * 2 ^ 46 * (Q * n))) as Hbp'.
  { destruct Hbp as [Hl Hh]. split.
    - replace ((2 ^ 53 - 1) * (100 * 2 ^ 46 * (Q * n)))
        with ((2 ^ 53 - 1) * (100 * 2 ^ 46 * Q) * n) by ring.
      replace (2 ^ 53 * (P * n)) with (2 ^ 53 * P * n) by ring.
      apply Z.mul_le_mono_nonneg_r; lia.
    - replace ((2 ^ 53 + 1) * (100 * 2 ^ 46 * (Q * n)))
        with ((2 ^ 53 + 1) * (100 * 2 ^ 46 * Q) * n) by ring.
      replace (2 ^ 53 * (P * n)) with (2 ^ 53 * P * n) by ring.
      apply Z.mul_le_mono_nonneg_r; lia. }
  clear Hbp. set (Pn := P * n) in *. set (Qn := Q * n) in *.
  change (2 ^ 106) with (2 ^ 53 * 2 ^ 53).
  clearbody Pn Qn A. clear -Hbq Hbp'. lia.
Qed.

(** The values grow strictly: two roundings cannot bridge the gap between
    [a / n] and [(a + 1) / n] when [n] is at most [2 ^ 51]. *)
Lemma percent_lt a b n :
  0 < a < b -> b <= n -> n <= 2 ^ 51 ->
  SFltb (percent_of a n) (percent_of b n) = true.
Proof.
  intros Hab Hbn Hn.
  destruct (percent_spec a n ltac:(lia) Hn) as (ma & ea & -> & Hma & Hea & Hba).
  destruct (percent_spec b n ltac:(lia) Hn) as (mb & eb & -> & Hmb & Heb & Hbb).
  apply (SFltb_scaled ma ea mb eb 151 Hma Hmb Hea Heb).
  set (Pa := Zpos ma * 2 ^ (ea + 151)) in *.
  set (Pb := Zpos mb * 2 ^ (eb + 151)) in *.
  assert (0 < 2 ^ 105) as HT by reflexivity.
  assert (Pa * n < Pb * n) as Hlt.
  { set (T := 2 ^ 105) in *. set (X := Pa * n) in *. set (Y := Pb * n) in *.
    assert (a * T + T <= b * T) as HbT by nia.
    assert (a * T <= (2 ^ 51 - 1) * T) as HaT by nia.
    set (A := a * T) in *. set (B := b * T) in *.
    clearbody X Y A B T. clear -Hba Hbb HbT HaT HT. lia. }
  nia.
Qed.

(** The last value is exactly 100.0, for every length. *)
Lemma int_true_divide_same n : 0 < n -> int_true_divide n n = S754_finite false 4503599627370496 (-52).
Proof.
  intros Hn. unfold int_true_divide. destruct n as [|p|p]; try lia.
  unfold Z_to_SF, SFdiv. rewrite (SFdiv_core_binary_eq (Zpos p) 0 (Zpos p) 0) by lia.
  replace (Zdigits2 (Zpos p) + 0 - (Zdigits2 (Zpos p) + 0)) with 0 by lia.
  change (Z.min (fexp prec emax 0) (0 - 0)) with (-53).
  change (0 - 0 - -53) with 53.
  replace (Zpos p * 2 ^ 53 / Zpos p) with (2 ^ 53)
    by (symmetry; rewrite Z.mul_comm; apply Z.div_mul; lia).
  unfold loc_of. replace (Zpos p * 2 ^ 53 mod Zpos p) with 0
    by (symmetry; rewrite Z.mul_comm; apply Z.mod_mul; lia).
  reflexivity.
Qed.

Lemma percent_last n : 0 < n -> percent_of n n = float_of_int 100.
Proof. intros Hn. unfold percent_of, py_mul. rewrite (int_true_divide_same n Hn). reflexivity. Qed.

(** A quotient of at most 1 never overflows, whatever the size of the two
    integers. *)
Lemma int_true_divide_no_overflow a n s :
  0 < a <= n -> int_true_divide a n <> S754_infinity s.
Proof.
  intros Han. unfold int_true_divide.
  destruct a as [|pa|pa]; try lia. destruct n as [|pn|pn]; try lia.
  unfold Z_to_SF, SFdiv.
  rewrite (SFdiv_core_binary_eq (Zpos pa) 0 (Zpos pn) 0) by lia.
  set (e' := Z.min (fexp prec emax (Zdigits2 (Zpos pa) + 0 - (Zdigits2 (Zpos pn) + 0))) (0 - 0)).
  assert (e' <= 0) as He' by (unfold e'; lia).
  assert (0 < 2 ^ (0 - 0 - e')) as Hp by (apply Z.pow_pos_nonneg; lia).
  set (N := Zpos pa * 2 ^ (0 - 0 - e')) in *.
  assert (0 <= N / Zpos pn <= 2 ^ (0 - 0 - e')) as Hq.
  { split.
    - apply Z.div_pos; unfold N; nia.
    - apply Z.div_le_upper_bound; [lia|]. unfold N. nia. }
  apply binary_round_aux_no_overflow; [lia| |lia].
  assert (Zdigits2 (N / Zpos pn) <= (0 - 0 - e') + 1); [|lia].
  apply Zdigits2_le_bound; [|lia]. rewrite Z.pow_add_r by lia. change (2 ^ 1) with 2. lia.
Qed.

Lemma SFltb_SFleb x y : SFltb x y = true -> SFleb x y = true.
Proof. unfold SFltb, SFleb. destruct (SFcompare x y) as [[]|]; auto. Qed.

(** Every value lies above 0 and is at most 100.0, and 100.0 is the value of
    [n / n] only. *)
Lemma percent_of_range a n :
  0 < a <= n -> n <= 2 ^ 51 ->
  SFltb float_zero (percent_of a n) = true /\
  SFleb (percent_of a n) (float_of_int 100) = true /\
  (percent_of a n = float_of_int 100 <-> a = n).
Proof.
  intros Han Hn.
  assert (a < n -> SFltb (percent_of a n) (float_of_int 100) = true) as Hlt.
  { intros Halt. rewrite <-(percent_last n) by lia. apply percent_lt; lia. }
  split; [|split; [|split]].
  - destruct (percent_spec a n Han Hn) as (m & e & -> & _). reflexivity.
  - destruct (Z.eq_dec a n) as [->|Hne].
    + rewrite percent_last by lia. reflexivity.
    + apply SFltb_SFleb, Hlt. lia.
  - intros H100. destruct (Z.eq_dec a n) as [|Hne]; [assumption|].
    rewrite H100 in Hlt. specialize (Hlt ltac:(lia)). discriminate Hlt.
  - intros ->. apply percent_last. lia.
Qed.

End Rounding.

(** ** Worlds and events *)

Lemma steps_refl w : steps w w.
Proof. by split. Qed.

Lemma steps_trans w1 w2 w3 : steps w1 w2 → steps w2 w3 → steps w1 w3.
Proof. intros [H1 H2] [H3 H4]. split; auto. Qed.

Lemma steps_yield w : steps w (yield w).
Proof.
  unfold yield. destruct (sched w) as [|[] s] eqn:Hs; [apply steps_refl| |].
  - split; [done|]. intros [Hf Hq]. split; [done|]. simpl.
    rewrite Hs in Hq. by inversion Hq.
  - split; [done|]. intros [_ Hq]. rewrite Hs in Hq. by inversion Hq.
Qed.

Lemma steps_add_event e w : steps w (add_event e w).
Proof. by split. Qed.

Lemma steps_set_files fs w : steps w (set_files fs w).
Proof. by split. Qed.

(** Goals [steps w w'] where [w'] is [w], or a world known to come after
    [w], under calls of [yield], [add_event] and [set_files]. *)
Ltac steps :=
  repeat match goal with
  | |- steps ?w ?w => apply steps_refl
  | H : steps ?w ?w' |- steps ?w ?w' => exact H
  | |- steps _ (add_event _ _) => eapply steps_trans; [|apply steps_add_event]
  | |- steps _ (yield _) => eapply steps_trans; [|apply steps_yield]
  | |- steps _ (set_files _ _) => eapply steps_trans; [|apply steps_set_files]
  end.

Lemma quiet_yield w : quiet w → stop_event (yield w) = false.
Proof. intros Hq. by destruct (steps_yield w) as [_ [? _]]. Qed.

Lemma trace_yield w : trace (yield w) = trace w.
Proof. unfold yield. by destruct (sched w) as [|[] ?]. Qed.

Lemma files_yield w : files (yield w) = files w.
Proof. unfold yield. by destruct (sched w) as [|[] ?]. Qed.

Lemma emits_ret {A} P (a : A) : emits P (ret a).
Proof. intros w. exists []. simpl. rewrite app_nil_r. auto using steps_refl. Qed.

Lemma emits_raise {A} P e : emits P (@raise A e).
Proof. intros w. exists []. simpl. rewrite app_nil_r. auto using steps_refl. Qed.

Lemma emits_of_result {A} P (r : result A) : emits P (of_result r).
Proof. intros w. exists []. simpl. rewrite app_nil_r. auto using steps_refl. Qed.

Lemma emits_emit (P : event → Prop) e : P e → emits P (emit e).
Proof.
  intros He w. exists [e]. simpl. rewrite trace_yield. split_and!; [done|by constructor|].
  steps.
Qed.

Lemma emits_bind {A B} P (m : M A) (k : A → M B) :
  emits P m → (∀ a, emits P (k a)) → emits P (bind m k).
Proof.
  intros Hm Hk w. unfold bind. destruct (Hm w) as (evs & Ht & HP & Hs).
  destruct (m w) as [[a|e] w1]; simpl in *; [|by exists evs].
  destruct (Hk a w1) as (evs' & Ht' & HP' & Hs').
  exists (evs ++ evs'). rewrite Ht', Ht, app_assoc. split_and!; [done| |].
  - by apply Forall_app.
  - by eapply steps_trans.
Qed.

Lemma emits_try_except {A} P (body : M A) catches handler :
  emits P body → (∀ e, emits P (handler e)) → emits P (try_except body catches handler).
Proof.
  intros Hm Hk w. unfold try_except. destruct (Hm w) as (evs & Ht & HP & Hs).
  destruct (body w) as [[a|e] w1]; simpl in *; [by exists evs|].
  destruct (catches e); [|by exists evs].
  destruct (Hk e w1) as (evs' & Ht' & HP' & Hs').
  exists (evs ++ evs'). rewrite Ht', Ht, app_assoc. split_and!; [done| |].
  - by apply Forall_app.
  - by eapply steps_trans.
Qed.

Lemma emits_for_each {A B} P (xs : list A) (acc : B) body :
  (∀ acc x, emits P (body acc x)) → emits P (for_each xs acc body).
Proof.
  intros Hb. revert acc. induction xs as [|x xs IH]; intros acc; simpl.
  - apply emits_ret.
  - apply emits_bind; auto.
Qed.

Lemma emits_os_path_exists P p : emits P (os_path_exists p).
Proof. intros w. exists []. simpl. rewrite app_nil_r. auto using steps_refl. Qed.

Lemma emits_os_remove {ext : Externals} P p : emits P (os_remove p).
Proof.
  intros w. exists []. unfold os_remove. rewrite app_nil_r.
  case_bool_decide; [destruct (os_remove_error p (files w))|]; simpl;
    auto using steps_refl, steps_set_files.
Qed.

Lemma bind_assoc {A B C} (m : M A) (f : A → M B) (g : B → M C) w :
  bind (bind m f) g w = bind m (λ x, bind (f x) g) w.
Proof. unfold bind. by destruct (m w) as [[a|e] w']. Qed.

Lemma emits_read {A} P (f : World → result A) : emits P (λ w, (f w, w)).
Proof. intros w. exists []. simpl. rewrite app_nil_r. auto using steps_refl. Qed.

Lemma emits_write {A} P (r : result A) (f : World → gset string) :
  emits P (λ w, (r, set_files (f w) w)).
Proof. intros w. exists []. simpl. rewrite app_nil_r. auto using steps_set_files. Qed.

Section Events.
Context {ext : Externals}.

Lemma emits_convert_thumbnail (P : event → Prop) webp :
  P (ConvertThumbnail webp) → emits P (convert_thumbnail webp).
Proof.
  intros HP. apply emits_bind; [by apply emits_emit|]. intros _ w.
  exists []. destruct (convert_thumbnail_result webp (files w)) as [fs r]; simpl.
  rewrite app_nil_r. auto using steps_set_files.
Qed.

Lemma emits_add_metadata (P : event → Prop) path info thumb :
  P (AddMetadata path info thumb) → emits P (add_metadata path info thumb).
Proof.
  intros HP. apply emits_bind; [by apply emits_emit|]. intros _ w.
  exists []. destruct (add_metadata_result path info thumb (files w)) as [fs r]; simpl.
  rewrite app_nil_r. auto using steps_set_files.
Qed.

Lemma emits_progress_hook url d : emits (download_event url) (_progress_hook d).
Proof.
  unfold _progress_hook, getitem. apply emits_bind.
  { destruct (d !! "status"); [apply emits_ret|apply emits_raise]. }
  intros status. destruct (py_eq_str status "downloading"); [|apply emits_ret].
  apply emits_bind.
  { unfold py_strip. destruct (default _ _); apply emits_ret || apply emits_raise. }
  intros p_str. apply emits_bind; [|intros; by apply emits_emit].
  apply emits_try_except; [|intros; apply emits_ret].
  unfold py_float. destruct (float_of_str _); [apply emits_ret|apply emits_raise].
Qed.

Lemma emits_process_single_entry url info :
  emits (download_event url) (_process_single_entry info).
Proof.
  unfold _process_single_entry.
  destruct (default [] (requested_downloads info)) as [|d0 ?]; [apply emits_ret|].
  apply emits_bind.
  { destruct (filepath d0); [apply emits_ret|apply emits_raise]. }
  intros path. apply emits_bind; [apply emits_os_path_exists|].
  intros [|]; simpl; [|apply emits_ret].
  apply emits_bind; [apply emits_os_path_exists|]. intros has_webp.
  apply emits_bind.
  { destruct has_webp; [by apply emits_convert_thumbnail|apply emits_ret]. }
  intros thumb. apply emits_bind; [by apply emits_add_metadata|]. intros meta.
  apply emits_bind.
  { destruct thumb as [[|c t]|]; try apply emits_ret.
    apply emits_bind; [apply emits_os_path_exists|].
    intros [|]; [apply emits_os_remove|apply emits_ret]. }
  intros _. apply emits_bind; [apply emits_os_path_exists|]. intros b.
  apply emits_bind; [|intros; apply emits_ret].
  destruct b; [apply emits_os_remove|apply emits_ret].
Qed.

(** What [extract_info] does after it has been called. *)
Lemma emits_extraction url opts :
  emits (download_event url)
    (x <- (λ w, (Ok (ydl_extract_info opts url (files w)), w)) ;;
     (λ w, (Ok tt, set_files (ex_files x) w)) ;;
     for_each (ex_hook_calls x) tt
       (λ _ d, for_each [_progress_hook] tt (λ _ hook, hook d)) ;;
     of_result (ex_result x)).
Proof.
  apply emits_bind; [apply emits_read|]. intros x.
  apply emits_bind; [apply (emits_write _ (Ok tt) (λ _, ex_files x))|]. intros _.
  apply emits_bind; [|intros; apply emits_of_result].
  apply emits_for_each. intros _ d. simpl.
  apply emits_bind; [apply emits_progress_hook|intros; apply emits_ret].
Qed.

(** What [download_audio] does with the dictionary of [extract_info]. *)
Lemma emits_messages url info :
  emits (download_event url)
    (if bool_decide (_type info = Some "playlist") then
       result_messages <-
         for_each (default [] (entries info)) []
           (λ result_messages entry,
              msg <- _process_single_entry entry ;;
              ret (result_messages ++ [msg])) ;;
       ret (String.concat newline result_messages)
     else _process_single_entry info).
Proof.
  case_bool_decide; [|apply emits_process_single_entry].
  apply emits_bind; [|intros; apply emits_ret].
  apply emits_for_each. intros acc entry.
  apply emits_bind; [apply emits_process_single_entry|intros; apply emits_ret].
Qed.

Lemma emits_extract_info opts url :
  emits (download_event url) (YoutubeDL_extract_info opts [_progress_hook] url).
Proof.
  unfold YoutubeDL_extract_info.
  apply emits_bind; [by apply emits_emit|intros _; apply emits_extraction].
Qed.

Lemma emits_download_audio self url :
  emits (download_event url) (download_audio self url).
Proof.
  unfold download_audio. apply emits_bind; [apply emits_read|].
  intros [|]; simpl; [|apply emits_ret].
  apply emits_bind; [apply emits_extract_info|apply emits_messages].
Qed.

(** The division of line 77 returns for an index below the total: the
    divisor is not zero and the quotient is at most 1. *)
Lemma py_truediv_eq idx total w :
  idx < total →
  py_truediv (Z.of_nat idx + 1) (Z.of_nat total) w =
    (Ok (int_true_divide (Z.of_nat idx + 1) (Z.of_nat total)), w).
Proof.
  intros Hidx. unfold py_truediv.
  destruct (Z.eqb_spec (Z.of_nat total) 0) as [Hz|_]; [lia|].
  pose proof (λ s, int_true_divide_no_overflow (Z.of_nat idx + 1) (Z.of_nat total) s
                     ltac:(lia)) as Hfin.
  destruct (int_true_divide _ _) as [s|s| |s m e]; try reflexivity.
  by destruct (Hfin s).
Qed.

(** The body of the loop, spelled out: it never raises for an index below
    [total], and it logs the outcome of the download whatever that is. *)
Lemma loop_body_eq self total idx url w :
  idx < total →
  loop_body self total idx url w =
    let r := download_audio self url (add_event (Log (processing url)) (yield w)) in
    (Ok tt,
     add_event (Progress WorkerLoop (percent_done idx total))
       (yield (add_event (Log (status_line r.1)) (yield r.2)))).
Proof.
  intros Htot. unfold loop_body, try_except, bind, log_callback, progress_callback,
    emit. fold (processing url).
  destruct (download_audio _ _ _) as [[s|e] w2];
    cbn [fst snd status_line except_Exception]; by rewrite py_truediv_eq.
Qed.

End Events.

(** ** The worker loop *)

Section Worker.
Context {ext : Externals}.

Lemma for_urls_cons self total idx url rest w :
  for_urls self total idx (url :: rest) w =
    if stop_event (yield w) then
      (Ok Broke, add_event (Log stopped_by_user) (yield (yield w)))
    else
      match loop_body self total idx url (yield w) with
      | (Ok _, w') => for_urls self total (S idx) rest w'
      | (Raise e, w') => (Raise e, w')
      end.
Proof.
  simpl. unfold bind at 1. unfold is_set. simpl.
  destruct (stop_event (yield w)); reflexivity.
Qed.

(** One turn of the loop body leaves one complete block in the trace. *)
Lemma loop_body_block self total idx url w :
  idx < total →
  ∃ it w', loop_body self total idx url w = (Ok tt, w') ∧
    it_url it = url ∧ download_run self it ∧
    trace w' = trace w ++ block total idx it ∧ steps w w'.
Proof.
  intros Htot. rewrite loop_body_eq by done.
  set (w1 := add_event (Log (processing url)) (yield w)).
  destruct (emits_download_audio self url w1) as (dl & Ht & Hdl & Hs).
  destruct (download_audio self url w1) as [r w2] eqn:Hrun; simpl in *.
  exists {| it_url := url; it_events := dl; it_outcome := r |}. eexists.
  split_and!; [done|done| | |].
  - split; [done|]. by exists w1, w2.
  - unfold block; simpl. rewrite trace_yield. simpl. rewrite trace_yield, Ht.
    unfold w1; simpl. rewrite trace_yield. by rewrite <-!app_assoc.
  - steps. eapply steps_trans; [|apply Hs]. unfold w1. steps.
Qed.

Lemma for_urls_app self total idx l1 l2 w :
  for_urls self total idx (l1 ++ l2) w =
    match for_urls self total idx l1 w with
    | (Ok Exhausted, w0) => for_urls self total (idx + length l1) l2 w0
    | r => r
    end.
Proof.
  revert idx w. induction l1 as [|url l1 IH]; intros idx w.
  - simpl. by rewrite Nat.add_0_r.
  - rewrite <-app_comm_cons, !for_urls_cons.
    destruct (stop_event (yield w)); [done|].
    destruct (loop_body self total idx url (yield w)) as [[[]|e] w']; [|done].
    rewrite IH. simpl. by rewrite Nat.add_succ_r.
Qed.

(** A loop that ran through [pre] left one block per URL of [pre], in order. *)
Lemma for_urls_exhausted self total idx pre w w0 :
  idx + length pre ≤ total →
  for_urls self total idx pre w = (Ok Exhausted, w0) →
  ∃ items, map it_url items = pre ∧ Forall (download_run self) items ∧
    trace w0 = trace w ++ blocks total idx items ∧ steps w w0.
Proof.
  revert idx w. induction pre as [|url pre IH]; intros idx w Htot Hrun.
  - inversion Hrun; subst. exists []. simpl. rewrite app_nil_r.
    auto using steps_refl.
  - simpl in Htot. assert (idx < total) as Htot' by lia.
    rewrite for_urls_cons in Hrun.
    destruct (stop_event (yield w)) eqn:Hflag; [done|].
    destruct (loop_body_block self total idx url (yield w) Htot')
      as (it & w' & Hbody & Hurl & Hit & Ht & Hs).
    rewrite Hbody in Hrun.
    destruct (IH (S idx) w' ltac:(lia) Hrun) as (items & Hmap & Hall & Ht' & Hs').
    exists (it :: items). simpl. split_and!.
    + by rewrite Hurl, Hmap.
    + by constructor.
    + rewrite Ht', Ht, trace_yield. by rewrite <-app_assoc.
    + eapply steps_trans; [|apply Hs']. eapply steps_trans; [|apply Hs]. steps.
Qed.

(** Every run of the loop: a prefix of the list is processed, and then either
    the list is over or the check has seen the flag. *)
Lemma for_urls_shape self total idx urls w :
  idx + length urls ≤ total →
  ∃ pre rest w0,
    urls = pre ++ rest ∧
    for_urls self total idx pre w = (Ok Exhausted, w0) ∧
    ((rest = [] ∧ for_urls self total idx urls w = (Ok Exhausted, w0)) ∨
     (rest ≠ [] ∧ stop_event (yield w0) = true ∧
      for_urls self total idx urls w =
        (Ok Broke, add_event (Log stopped_by_user) (yield (yield w0))))).
Proof.
  revert idx w. induction urls as [|url urls IH]; intros idx w Htot.
  - exists [], [], w. split_and!; [done|done|]. by left.
  - simpl in Htot. assert (idx < total) as Htot' by lia.
    destruct (stop_event (yield w)) eqn:Hflag.
    + exists [], (url :: urls), w. split_and!; [done|done|]. right.
      split_and!; [done|done|]. by rewrite for_urls_cons, Hflag.
    + destruct (loop_body_block self total idx url (yield w) Htot')
        as (it & w' & Hbody & _).
      destruct (IH (S idx) w' ltac:(lia)) as (pre & rest & w0 & -> & Hpre & Hcase).
      exists (url :: pre), rest, w0. split_and!; [done| |].
      * by rewrite for_urls_cons, Hflag, Hbody.
      * rewrite for_urls_cons, Hflag, Hbody.
        destruct Hcase as [[-> Hrun]|(Hne & Hstop & Hrun)]; [left|right]; auto.
Qed.

Lemma Completion_not_in_blocks self total idx items :
  Forall (download_run self) items → Completion ∉ blocks total idx items.
Proof.
  intros Hall. revert idx. induction Hall as [|it items [Hev _] _ IH]; intros idx; simpl.
  - apply not_elem_of_nil.
  - unfold block. intros Hin.
    rewrite elem_of_cons, !elem_of_app in Hin.
    destruct Hin as [?|[[Hin|Hin]|Hin]]; [done| | |by eapply IH].
    + rewrite Forall_forall in Hev. by apply Hev in Hin.
    + rewrite !elem_of_cons, elem_of_nil in Hin. by destruct Hin as [?|[?|?]].
Qed.

(** The loop from any index: blocks for a prefix, then the end of the list or
    the stop line. *)
Lemma for_urls_blocks self total idx urls w :
  idx + length urls ≤ total →
  ∃ items rest how wl,
    urls = map it_url items ++ rest ∧ Forall (download_run self) items ∧
    for_urls self total idx urls w = (Ok how, wl) ∧ steps w wl ∧
    ((rest = [] ∧ how = Exhausted ∧
      trace wl = trace w ++ blocks total idx items) ∨
     (rest ≠ [] ∧ how = Broke ∧ stop_event wl = true ∧
      trace wl = trace w ++ blocks total idx items ++ [Log stopped_by_user])).
Proof.
  intros Htot.
  destruct (for_urls_shape self total idx urls w Htot)
    as (pre & rest & w0 & Hsplit & Hpre & Hcase).
  assert (idx + length pre ≤ total) as Htot'.
  { rewrite Hsplit, length_app in Htot. lia. }
  destruct (for_urls_exhausted self _ idx pre w w0 Htot' Hpre)
    as (items & Hmap & Hall & Ht & Hs).
  exists items, rest.
  destruct Hcase as [[-> Hrun]|(Hne & Hstop & Hrun)]; rewrite Hrun; do 2 eexists;
    (split_and!; [by rewrite Hmap|done|done| |]).
  - done.
  - by left.
  - steps.
  - right. split_and!; [done|done| |].
    + simpl. destruct (steps_yield (yield w0)) as [Hmono _]. by apply Hmono.
    + simpl. by rewrite !trace_yield, Ht, <-app_assoc.
Qed.

Lemma download_all_eq self url_list w :
  _download_all self url_list w =
    match for_urls self (length url_list) 0 url_list w with
    | (Ok _, wl) => (Ok tt, add_event Completion (yield wl))
    | (Raise e, wl) => (Raise e, wl)
    end.
Proof. reflexivity. Qed.


(** Every run of [_download_all], in one statement: the URLs of a prefix
    [pre] get their blocks, then the stop line is logged if URLs are left,
    and the completion callback is called. *)
Lemma download_all_shape self url_list w :
  ∃ pre rest w0 items w',
    url_list = pre ++ rest ∧
    for_urls self (length url_list) 0 pre w = (Ok Exhausted, w0) ∧
    map it_url items = pre ∧ Forall (download_run self) items ∧
    trace w0 = trace w ++ blocks (length url_list) 0 items ∧
    steps w w0 ∧
    _download_all self url_list w = (Ok tt, w') ∧
    steps w0 w' ∧
    ((rest = [] ∧
      for_urls self (length url_list) 0 url_list w = (Ok Exhausted, w0) ∧
      trace w' = trace w0 ++ [Completion]) ∨
     (rest ≠ [] ∧ stop_event (yield w0) = true ∧
      for_urls self (length url_list) 0 url_list w =
        (Ok Broke, add_event (Log stopped_by_user) (yield (yield w0))) ∧
      trace w' = trace w0 ++ [Log stopped_by_user; Completion])).
Proof.
  destruct (for_urls_shape self (length url_list) 0 url_list w (Nat.le_refl _))
    as (pre & rest & w0 & Hsplit & Hpre & Hcase).
  assert (0 + length pre ≤ length url_list) as Htot.
  { rewrite Hsplit, length_app. lia. }
  destruct (for_urls_exhausted self _ 0 pre w w0 Htot Hpre)
    as (items & Hmap & Hall & Ht & Hs).
  exists pre, rest, w0, items. rewrite download_all_eq.
  destruct Hcase as [[-> Hrun]|(Hne & Hstop & Hrun)]; rewrite Hrun; eexists;
    (split_and!; [done..| |]).
  - steps.
  - left. simpl. by rewrite trace_yield.
  - steps.
  - right. split_and!; [done..|]. simpl. rewrite !trace_yield. simpl.
    rewrite !trace_yield. by rewrite <-app_assoc.
Qed.

End Worker.

(** ** Properties of the worker loop *)

Section WorkerProperties.
Context {ext : Externals}.

(** C1: whatever the URL list (empty or not), whatever the downloads do
    (return or raise) and whenever the other thread calls [stop_download],
    [_download_all] returns normally and calls the completion callback exactly
    once, as its last action, after the loop has ended, by exhaustion or by
    [break]. *)
Theorem completion_called_exactly_once self url_list w :
  ∃ how wl evs w',
    for_urls self (length url_list) 0 url_list w = (Ok how, wl) ∧
    trace wl = trace w ++ evs ∧
    (Completion ∉ evs) ∧
    _download_all self url_list w = (Ok tt, w') ∧
    trace w' = trace w ++ evs ++ [Completion].
Proof.
  destruct (download_all_shape self url_list w)
    as (pre & rest & w0 & items & w' & Hsplit & Hpre & Hmap & Hall & Ht & _ & Hrun & _ & Hcase).
  pose proof (Completion_not_in_blocks self (length url_list) 0 items Hall) as Hnot.
  destruct Hcase as [(-> & Hloop & Ht')|(Hne & Hstop & Hloop & Ht')].
  - exists Exhausted, w0, (blocks (length url_list) 0 items), w'.
    split_and!; [done..|]. by rewrite Ht', Ht, <-app_assoc.
  - exists Broke, (add_event (Log stopped_by_user) (yield (yield w0))),
      (blocks (length url_list) 0 items ++ [Log stopped_by_user]), w'.
    split_and!; [done| | |done|].
    + simpl. by rewrite !trace_yield, Ht, <-app_assoc.
    + rewrite elem_of_app, list_elem_of_singleton. by intros [?|?].
    + rewrite Ht', Ht, <-!app_assoc. done.
Qed.

(** C8: on the empty list the worker calls the completion callback and
    nothing else: the trace grows by [Completion] alone, so neither the
    progress callback nor the log callback is called, and the run returns
    normally.  The division [(idx + 1) / total] is in the loop body only,
    where a [total] of zero would raise [ZeroDivisionError]; the body does
    not run. *)
Theorem empty_list_only_completes self w :
  _download_all self [] w = (Ok tt, add_event Completion (yield w)) ∧
  trace (add_event Completion (yield w)) = trace w ++ [Completion] ∧
  ∀ idx url w1, (loop_body self 0 idx url w1).1 = Raise ZeroDivisionError.
Proof.
  split_and!; [done|simpl; by rewrite trace_yield|].
  intros idx url w1. unfold loop_body, bind, try_except, log_callback, emit.
  match goal with
  | |- context [download_audio self url ?x] =>
      destruct (download_audio self url x) as [[s|e] w2]
  end; reflexivity.
Qed.

(** C3: the trace of a run is a sequence of blocks, one per URL, in the order
    of the list: the block of a URL starts with its line "Обработка ссылки",
    goes on with the events of its one call of [download_audio] and ends with
    the line of its result and its progress value; the block of the next URL
    starts after that.  Blocks exist for a prefix of the list, all of it
    when nobody cancels.  [start_download] starts one such run, with the
    flag cleared. *)
Theorem urls_processed_in_order self url_list w :
  ∃ items rest tail w',
    _download_all self url_list w = (Ok tt, w') ∧
    url_list = map it_url items ++ rest ∧
    Forall (download_run self) items ∧
    trace w' = trace w ++ blocks (length url_list) 0 items ++ tail ∧
    ((rest = [] ∧ tail = [Completion]) ∨
     (rest ≠ [] ∧ tail = [Log stopped_by_user; Completion])) ∧
    (quiet w → rest = []) ∧
    start_download self url_list w = _download_all self url_list (set_stop_event false w).
Proof.
  destruct (download_all_shape self url_list w)
    as (pre & rest & w0 & items & w' & Hsplit & Hpre & Hmap & Hall & Ht & Hs & Hrun & _ & Hcase).
  exists items, rest.
  destruct Hcase as [(-> & Hloop & Ht')|(Hne & Hstop & Hloop & Ht')]; eexists; exists w'.
  - split_and!; [done|by rewrite Hmap|done| |by left|done|done].
    by rewrite Ht', Ht, <-app_assoc.
  - split_and!; [done|by rewrite Hmap|done| |by right| |done].
    + by rewrite Ht', Ht, <-app_assoc.
    + intros Hq. apply Hs in Hq. apply quiet_yield in Hq. congruence.
Qed.

Lemma loop_progress_app evs1 evs2 :
  loop_progress (evs1 ++ evs2) = loop_progress evs1 ++ loop_progress evs2.
Proof. apply omap_app. Qed.

Lemma loop_progress_download url evs :
  Forall (download_event url) evs → loop_progress evs = [].
Proof.
  induction 1 as [|e evs He _ IH]; [done|].
  destruct e as [| [] | | | | |]; try done; apply IH.
Qed.

Lemma loop_progress_blocks self total idx items :
  Forall (download_run self) items →
  loop_progress (blocks total idx items) =
    map (λ i, percent_done i total) (seq idx (length items)).
Proof.
  intros Hall. revert idx. induction Hall as [|it items [Hev _] _ IH]; intros idx; [done|].
  simpl. rewrite loop_progress_app, IH. unfold block.
  change (Log ?m :: ?l) with ([Log m] ++ l).
  rewrite !loop_progress_app, (loop_progress_download _ _ Hev). done.
Qed.




(** The primitive floats of the machine give the same values: checked for
    every list of up to 128 URLs. *)
Lemma percent_binary64_checked : forallb binary64_agrees (seq 1 128) = true.
Proof. vm_compute. reflexivity. Qed.


(** C5: an exception of one URL stays with that URL.  When the download of
    [url] raises [e], the loop body returns normally after logging
    "Ошибка: " followed by [str(e)] and calling the progress callback; the
    worker then goes on with the URLs after [url] exactly as after a
    download that returned, and leaves one of them unprocessed only when
    the cancellation flag is set.  The block of every URL attempted holds
    its two log lines. *)
Theorem error_stays_with_its_url self pre url post w w0 w1 e w2 :
  let url_list := pre ++ url :: post in
  let n := length url_list in
  for_urls self n 0 pre w = (Ok Exhausted, w0) →
  is_set w0 = (Ok false, w1) →
  download_audio self url (add_event (Log (processing url)) (yield w1)) = (Raise e, w2) →
  ∃ w3 items rest tail w',
    loop_body self n (length pre) url w1 = (Ok tt, w3) ∧
    trace w3 = trace w2 ++ [Log ("Ошибка: " +:+ str_exn e);
                            Progress WorkerLoop (percent_done (length pre) n)] ∧
    _download_all self url_list w = (Ok tt, w') ∧
    post = map it_url items ++ rest ∧
    Forall (download_run self) items ∧
    trace w' = trace w3 ++ blocks n (S (length pre)) items ++ tail ∧
    ((rest = [] ∧ tail = [Completion]) ∨
     (rest ≠ [] ∧ stop_event w' = true ∧ tail = [Log stopped_by_user; Completion])).
Proof.
  intros url_list n Hpre Hcheck Hraise.
  assert (n = length pre + S (length post)) as Hlen
    by (unfold n, url_list; by rewrite length_app).
  assert (length pre < n) as Hn by lia.
  unfold is_set in Hcheck. simpl in Hcheck.
  injection Hcheck as Hflag <-.
  pose proof (loop_body_eq self n (length pre) url (yield w0) Hn) as Hbody.
  rewrite Hraise in Hbody. simpl in Hbody.
  destruct (for_urls_blocks self n (S (length pre)) post
              (add_event (Progress WorkerLoop (percent_done (length pre) n))
                 (yield (add_event (Log ("Ошибка: " +:+ str_exn e)) (yield w2))))
              ltac:(lia))
    as (items & rest & how & wl & Hsplit & Hall & Hrun & Hs & Hcase).
  eexists; exists items, rest.
  assert (_download_all self url_list w = (Ok tt, add_event Completion (yield wl)))
    as Hall_run.
  { rewrite download_all_eq. fold n. unfold url_list.
    rewrite for_urls_app, Hpre, for_urls_cons, Hflag, Nat.add_0_l, Hbody.
    by rewrite Hrun. }
  destruct Hcase as [(-> & -> & Ht)|(Hne & -> & Hstop & Ht)]; do 2 eexists;
    (split_and!; [exact Hbody| |exact Hall_run|done|done| |]).
  - simpl. rewrite trace_yield. simpl. by rewrite trace_yield, <-app_assoc.
  - simpl. by rewrite trace_yield, Ht, <-app_assoc.
  - by left.
  - simpl. rewrite trace_yield. simpl. by rewrite trace_yield, <-app_assoc.
  - change (trace (add_event Completion (yield wl)))
      with (trace (yield wl) ++ [Completion]).
    by rewrite trace_yield, Ht, <-!app_assoc.
  - right. split_and!; [done| |done]. simpl.
    destruct (steps_yield wl) as [Hmono _]. by apply Hmono.
Qed.

(** The flag is seen set by the check that follows the URLs of [pre]: no
    further URL is begun. *)
Lemma stop_seen_by_the_check self pre rest w w0 :
  let n := length (pre ++ rest) in
  for_urls self n 0 pre w = (Ok Exhausted, w0) →
  stop_event (yield w0) = true →
  ∃ w', _download_all self (pre ++ rest) w = (Ok tt, w') ∧
        trace w' = trace w0 ++
                   match rest with [] => [] | _ => [Log stopped_by_user] end ++
                   [Completion].
Proof.
  intros n Hpre Hstop. rewrite download_all_eq. fold n.
  rewrite for_urls_app, Hpre. destruct rest as [|next rest].
  - eexists. split; [done|]. simpl. by rewrite trace_yield.
  - rewrite for_urls_cons, Hstop. eexists. split; [done|]. simpl.
    rewrite !trace_yield. simpl. by rewrite !trace_yield, <-app_assoc.
Qed.

(** C2, amended: cancellation acts between items only.  Let the worker have
    gone through [pre] and begun [url] with the flag clear, and let
    [stop_download] be called while [url] is processed.  Then [url] is
    processed to its end (its block is complete, result line and progress
    value included) and no URL after it is begun: the rest of the trace is
    the stop line, if a URL is left, and the completion callback.  When
    [url] was the last one no stop line is logged. *)
Theorem stop_acts_between_items self pre url post w w0 w1 r w2 :
  let url_list := pre ++ url :: post in
  let n := length url_list in
  for_urls self n 0 pre w = (Ok Exhausted, w0) →
  is_set w0 = (Ok false, w1) →
  loop_body self n (length pre) url w1 = (r, w2) →
  stop_event w2 = true →
  r = Ok tt ∧
  (∃ it, it_url it = url ∧ download_run self it ∧
         trace w2 = trace w1 ++ block n (length pre) it) ∧
  ∃ w', _download_all self url_list w = (Ok tt, w') ∧
        trace w' = trace w2 ++
                   match post with [] => [] | _ => [Log stopped_by_user] end ++
                   [Completion].
Proof.
  intros url_list n Hpre Hcheck Hbody Hstop.
  assert (length pre < n) as Hn by (unfold n, url_list; rewrite length_app; simpl; lia).
  unfold is_set in Hcheck. simpl in Hcheck.
  injection Hcheck as Hflag <-.
  destruct (loop_body_block self n (length pre) url (yield w0) Hn)
    as (it & w2' & Hbody' & Hurl & Hit & Ht & _).
  rewrite Hbody in Hbody'. injection Hbody' as -> <-.
  split; [done|]. split; [by exists it|].
  rewrite download_all_eq. fold n. unfold url_list.
  rewrite for_urls_app, Hpre, for_urls_cons, Hflag, Nat.add_0_l, Hbody.
  destruct (steps_yield w2) as [Hmono _]. specialize (Hmono Hstop).
  destruct post as [|next post].
  - eexists. split; [done|]. simpl. by rewrite trace_yield.
  - rewrite for_urls_cons, Hmono. eexists. split; [done|]. simpl.
    rewrite !trace_yield. simpl. by rewrite !trace_yield, <-app_assoc.
Qed.

End WorkerProperties.

(** ** Properties of one download *)

Lemma split_lines_newline_free m :
  newline_free m = true → split_lines m = [m].
Proof.
  induction m as [|c m IH]; [done|]. simpl.
  destruct (Ascii.eqb c _); [done|]. simpl. intros Hm. by rewrite IH.
Qed.

Lemma split_lines_cons_line m rest :
  newline_free m = true →
  split_lines (m +:+ newline +:+ rest) = m :: split_lines rest.
Proof.
  induction m as [|c m IH]; [done|]. simpl.
  destruct (Ascii.eqb c _); [done|]. simpl. intros Hm.
  change (String.app m (String.app newline rest)) with (m +:+ newline +:+ rest).
  by rewrite IH.
Qed.

Lemma split_lines_concat msgs :
  Forall (λ m, newline_free m = true) msgs → msgs ≠ [] →
  split_lines (String.concat newline msgs) = msgs.
Proof.
  induction 1 as [|m msgs Hm Hall IH]; [done|]. intros _.
  destruct msgs as [|m' msgs].
  - simpl. by apply split_lines_newline_free.
  - change (String.concat newline (m :: m' :: msgs))
      with (m +:+ newline +:+ String.concat newline (m' :: msgs)).
    rewrite split_lines_cons_line by done. by rewrite IH.
Qed.

Section DownloadProperties.
Context {ext : Externals}.

Lemma for_each_entry_messages entries w msgs w2 acc :
  entry_messages entries w msgs w2 →
  for_each entries acc
    (λ result_messages entry,
       msg <- _process_single_entry entry ;;
       ret (result_messages ++ [msg])) w = (Ok (acc ++ msgs), w2).
Proof.
  intros Hrun. revert acc.
  induction Hrun as [w|entry entries w msg w1 msgs w2 Hmsg _ IH]; intros acc.
  - simpl. by rewrite app_nil_r.
  - simpl. unfold bind at 1. unfold bind at 1. rewrite Hmsg. simpl.
    rewrite IH. by rewrite <-app_assoc.
Qed.

Lemma entry_messages_length entries w msgs w2 :
  entry_messages entries w msgs w2 → length msgs = length entries.
Proof. induction 1; simpl; auto. Qed.

(** C6: what [download_audio] returns once the extraction has given its
    dictionary.  For a playlist it is the messages of
    [_process_single_entry] for the entries, one per entry and in the order
    of the playlist, joined by newlines; when every message is one line,
    the lines of the result are these messages, [k] lines for [k] entries.
    For anything else it is the message of [_process_single_entry] for the
    dictionary itself. *)
Theorem download_audio_status_lines self url w info w1 :
  shutil_which (files w) "ffmpeg" ≠ None →
  YoutubeDL_extract_info (make_ydl_opts self) [_progress_hook] url w = (Ok info, w1) →
  (_type info ≠ Some "playlist" →
     download_audio self url w = _process_single_entry info w1) ∧
  (_type info = Some "playlist" →
     ∀ msgs w2,
       entry_messages (default [] (entries info)) w1 msgs w2 →
       download_audio self url w = (Ok (String.concat newline msgs), w2) ∧
       length msgs = length (default [] (entries info)) ∧
       (Forall (λ m, newline_free m = true) msgs → msgs ≠ [] →
          split_lines (String.concat newline msgs) = msgs)).
Proof.
  intros Hwhich Hextract.
  assert (download_audio self url w =
            (if bool_decide (_type info = Some "playlist") then
               bind (for_each (default [] (entries info)) []
                       (λ result_messages entry,
                          msg <- _process_single_entry entry ;;
                          ret (result_messages ++ [msg])))
                    (λ result_messages, ret (String.concat newline result_messages))
          else _process_single_entry info) w1) as Heq.
  { unfold download_audio, _ffmpeg_available. unfold bind at 1.
    rewrite bool_decide_eq_true_2 by done. simpl. unfold bind at 1.
    by rewrite Hextract. }
  split.
  - intros Hty. by rewrite Heq, bool_decide_eq_false_2.
  - intros Hty msgs w2 Hmsgs. split_and!.
    + rewrite Heq, bool_decide_eq_true_2 by done. unfold bind at 1.
      by rewrite (for_each_entry_messages _ _ _ _ [] Hmsgs).
    + by eapply entry_messages_length.
    + apply split_lines_concat.
Qed.

Lemma contains_intro pre sub post : contains sub (pre +:+ sub +:+ post).
Proof. by exists pre, post. Qed.

Lemma string_app_assoc (a b c : string) : (a +:+ b) +:+ c = a +:+ b +:+ c.
Proof.
  induction a as [|x a IH]; [done|].
  change (String x ((a +:+ b) +:+ c) = String x (a +:+ b +:+ c)). by rewrite IH.
Qed.

Lemma string_app_nil_r (a : string) : a +:+ "" = a.
Proof.
  induction a as [|x a IH]; [done|].
  change (String x (a +:+ "") = String x a). by rewrite IH.
Qed.

(** A removal guarded by [os.path.exists], lines 145-146 and 147-148. *)
Lemma remove_if_exists_run p w :
  (b <- os_path_exists p ;; if b then os_remove p else ret tt) w =
    match remove_if_exists_result p (files w) with
    | Ok fs => (Ok tt, set_files fs w)
    | Raise e => (Raise e, w)
    end.
Proof.
  unfold bind, os_path_exists, os_remove, remove_if_exists_result. simpl.
  case_bool_decide as Hin; simpl.
  - rewrite bool_decide_eq_true_2 by done. by destruct (os_remove_error p (files w)).
  - by destruct w.
Qed.

Lemma remove_if_exists_trace p w :
  trace ((b <- os_path_exists p ;; if b then os_remove p else ret tt) w).2 = trace w.
Proof. rewrite remove_if_exists_run. by destruct (remove_if_exists_result _ _). Qed.

(** The end of [_process_single_entry], lines 144-150: the status line is
    returned when no removal is refused. *)
Lemma cleanup_run thumb webp (line : string) wa :
  ∃ wb,
    (match thumb with
     | Some (String c t) =>
         has_thumbnail <- os_path_exists (String c t) ;;
         if has_thumbnail then os_remove (String c t) else ret tt
     | _ => ret tt
     end ;;
     has_webp' <- os_path_exists webp ;;
     (if has_webp' then os_remove webp else ret tt) ;;
     ret line) wa
    = (match cleanup_result thumb webp (files wa) with
       | Ok _ => Ok line
       | Raise e => Raise e
       end, wb) ∧
    trace wb = trace wa ∧
    (∀ fs, cleanup_result thumb webp (files wa) = Ok fs → files wb = fs).
Proof.
  unfold cleanup_result.
  assert (∃ wc, (match thumb with
                 | Some (String c t) =>
                     has_thumbnail <- os_path_exists (String c t) ;;
                     if has_thumbnail then os_remove (String c t) else ret tt
                 | _ => ret tt
                 end) wa =
                (match (match thumb with
                        | Some (String c t) => remove_if_exists_result (String c t) (files wa)
                        | _ => Ok (files wa)
                        end) with
                 | Ok _ => Ok tt
                 | Raise e => Raise e
                 end, wc) ∧
                trace wc = trace wa ∧
                (∀ fs, (match thumb with
                        | Some (String c t) => remove_if_exists_result (String c t) (files wa)
                        | _ => Ok (files wa)
                        end) = Ok fs → files wc = fs)) as (wc & Hc & Htc & Hfc).
  { destruct thumb as [[|c t]|].
    - exists wa. split_and!; [done|done|]. by intros fs [= <-].
    - rewrite remove_if_exists_run.
      destruct (remove_if_exists_result _ _) as [fs|e]; eexists; (split_and!; [done|done|]).
      + by intros fs' [= <-].
      + done.
    - exists wa. split_and!; [done|done|]. by intros fs [= <-]. }
  unfold bind at 1. rewrite Hc.
  destruct (match thumb with
            | Some (String c t) => remove_if_exists_result (String c t) (files wa)
            | _ => Ok (files wa)
            end) as [fs1|e].
  2:{ exists wc. split_and!; [done|done|done]. }
  rewrite <-(Hfc fs1 eq_refl).
  pose proof (remove_if_exists_run webp wc) as Hd.
  rewrite <-(bind_assoc (os_path_exists webp)). unfold bind at 1. rewrite Hd.
  destruct (remove_if_exists_result webp (files wc)) as [fs2|e]; eexists;
    (split_and!; [done|done|]).
  - by intros fs [= <-].
  - done.
Qed.

(** C7, amended: for an entry whose downloaded file is on disk, with the
    helpers of [metadata.py] returning, [_process_single_entry] calls
    [add_metadata] exactly once, with the path of the file, the dictionary
    of the entry and the thumbnail: what [convert_thumbnail] returned for
    the sibling [.webp] when that file exists, [None] when it does not.
    Then it removes the thumbnails.  When [os.remove] raises for neither of
    them it returns the line "Готово: <path>. <result of add_metadata>", in
    which the path and the result occur; when [os.remove] raises, that
    exception leaves the function and no line is returned. *)
Theorem entry_metadata_added_once info d0 ds path thumb fs1 meta fs2 w :
  requested_downloads info = Some (d0 :: ds) →
  filepath d0 = Some path →
  path ∈ files w →
  let webp := (os_path_splitext path).1 +:+ ".webp" in
  (if bool_decide (webp ∈ files w)
   then convert_thumbnail_result webp (files w) = (fs1, Ok thumb)
   else thumb = None ∧ fs1 = files w) →
  add_metadata_result path info thumb fs1 = (fs2, Ok meta) →
  let line := "Готово: " +:+ path +:+ ". " +:+ meta in
  ∃ evs w',
    _process_single_entry info w =
      (match cleanup_result thumb webp fs2 with
       | Ok _ => Ok line
       | Raise e => Raise e
       end, w') ∧
    trace w' = trace w ++ evs ∧
    evs = (if bool_decide (webp ∈ files w) then [ConvertThumbnail webp] else []) ++
          [AddMetadata path info thumb] ∧
    List.filter is_AddMetadata evs = [AddMetadata path info thumb] ∧
    contains path line ∧ contains meta line.
Proof.
  intros Hdl Hpath Hfile webp Hthumb Hmeta line.
  assert (contains path line) as Hc1 by apply contains_intro.
  assert (contains meta line) as Hc2.
  { exists ("Готово: " +:+ path +:+ ". "), "". unfold line.
    by rewrite string_app_nil_r, !string_app_assoc. }
  unfold _process_single_entry. rewrite Hdl. simpl. rewrite Hpath.
  unfold bind at 1. simpl. unfold bind at 1. unfold os_path_exists at 1.
  rewrite bool_decide_eq_true_2 by done. simpl.
  unfold bind at 1. unfold os_path_exists at 1. fold webp.
  case_bool_decide as Hwebp; simpl.
  - unfold bind at 1. unfold convert_thumbnail, bind at 1, emit. simpl.
    rewrite files_yield, Hthumb.
    unfold bind at 1. unfold add_metadata, bind at 1, emit. simpl.
    rewrite files_yield. simpl. rewrite Hmeta. fold line.
    match goal with |- ∃ _ _, _ ?wa = _ ∧ _ =>
      destruct (cleanup_run thumb webp line wa) as (wb & -> & Htb & _) end.
    do 2 eexists. split_and!; [done| |done|done|done|done].
    rewrite Htb. simpl. rewrite trace_yield. simpl. rewrite trace_yield.
    by rewrite <-app_assoc.
  - destruct Hthumb as [-> ->]. unfold bind at 1. simpl.
    unfold bind at 1. unfold add_metadata, bind at 1, emit. simpl.
    rewrite files_yield, Hmeta. fold line.
    match goal with |- ∃ _ _, _ ?wa = _ ∧ _ =>
      destruct (cleanup_run None webp line wa) as (wb & Heq & Htb & _) end.
    simpl in Heq. rewrite Heq.
    do 2 eexists. split_and!; [done| |done|done|done|done].
    rewrite Htb. simpl. by rewrite trace_yield.
Qed.

(** Outside the premises of the theorem above: an exception of
    [convert_thumbnail] leaves [_process_single_entry] as it is, before
    [add_metadata] is called. *)
Lemma convert_thumbnail_error_propagates info d0 ds path e fs1 w :
  requested_downloads info = Some (d0 :: ds) →
  filepath d0 = Some path →
  path ∈ files w →
  let webp := (os_path_splitext path).1 +:+ ".webp" in
  webp ∈ files w →
  convert_thumbnail_result webp (files w) = (fs1, Raise e) →
  ∃ w', _process_single_entry info w = (Raise e, w') ∧
        trace w' = trace w ++ [ConvertThumbnail webp].
Proof.
  intros Hdl Hpath Hfile webp Hwebp Hraise.
  unfold _process_single_entry. rewrite Hdl. simpl. rewrite Hpath.
  unfold bind at 1. simpl. unfold bind at 1. unfold os_path_exists at 1.
  rewrite bool_decide_eq_true_2 by done. simpl.
  unfold bind at 1. unfold os_path_exists at 1. fold webp.
  rewrite bool_decide_eq_true_2 by done. simpl.
  unfold bind at 1. unfold convert_thumbnail, bind at 1, emit. simpl.
  rewrite files_yield, Hraise. eexists. split; [done|]. simpl.
  by rewrite trace_yield.
Qed.

(** C9: [download_audio] returns the line "ffmpeg не найден. ..." without
    calling [extract_info] exactly when [shutil.which("ffmpeg")] finds
    nothing.  The path [self.ffmpeg_path] of the bundled ffmpeg is not looked
    at: with nothing on the PATH the result is the same for every
    [Downloader], although the options of the download that does take place
    carry [self.ffmpeg_path] as ['ffmpeg_location']. *)
Theorem ffmpeg_guard_looks_at_PATH_only self url w :
  (shutil_which (files w) "ffmpeg" = None ↔
     ∃ w', download_audio self url w = (Ok ffmpeg_missing, w') ∧ trace w' = trace w) ∧
  (shutil_which (files w) "ffmpeg" = None →
     ∀ self', download_audio self' url w = (Ok ffmpeg_missing, w)) ∧
  (shutil_which (files w) "ffmpeg" ≠ None →
     ∃ evs, trace (download_audio self url w).2 =
              trace w ++ ExtractInfo (make_ydl_opts self) url :: evs) ∧
  ffmpeg_location (make_ydl_opts self) = ffmpeg_path self.
Proof.
  assert (shutil_which (files w) "ffmpeg" = None →
          ∀ self', download_audio self' url w = (Ok ffmpeg_missing, w)) as Hnone.
  { intros Hw self'. unfold download_audio, _ffmpeg_available, bind.
    rewrite bool_decide_eq_false_2; [done|]. by intros []. }
  assert (shutil_which (files w) "ffmpeg" ≠ None →
          ∃ evs, trace (download_audio self url w).2 =
                   trace w ++ ExtractInfo (make_ydl_opts self) url :: evs) as Hsome.
  { intros Hw. unfold download_audio, _ffmpeg_available. unfold bind at 1.
    rewrite bool_decide_eq_true_2 by done. simpl.
    unfold YoutubeDL_extract_info. rewrite bind_assoc.
    unfold bind at 1. unfold emit. simpl.
    pose proof (emits_bind _ _ _ (emits_extraction url (make_ydl_opts self))
                  (emits_messages url)) as Hem.
    destruct (Hem (add_event (ExtractInfo (make_ydl_opts self) url) (yield w)))
      as (evs & Ht & _).
    exists evs. etrans; [exact Ht|]. simpl. by rewrite trace_yield, <-app_assoc. }
  split_and!; [|done|done|done].
  split.
  - intros Hw. exists w. by rewrite (Hnone Hw).
  - intros (w' & Hrun & Ht).
    destruct (shutil_which (files w) "ffmpeg") as [p|] eqn:Hw; [|done].
    destruct Hsome as (evs & Hevs); [done|].
    rewrite Hrun in Hevs. simpl in Hevs. rewrite Ht in Hevs.
    rewrite <-(app_nil_r (trace w)) in Hevs at 1.
    by apply app_inv_head in Hevs.
Qed.

(** C10: the progress hook on a dictionary whose status is 'downloading' and
    whose percent string is [s] (the field ['_percent_str'], or "0%" when the
    field is missing) calls the progress callback once, with [float] of [s]
    stripped of blanks and of '%' when that parses and with 0.0 when it does
    not; with the field missing the value is 0.0.  No [ValueError] leaves
    the hook, whatever the dictionary.  With any other status, or none, the
    hook calls no callback. *)
Theorem progress_hook_total :
  (∀ d w s,
     d !! "status" = Some (PyStr "downloading") →
     default (PyStr "0%") (d !! "_percent_str") = PyStr s →
     _progress_hook d w =
       (Ok tt,
        add_event
          (Progress ProgressHook
             (default float_zero (float_of_str (str_replace percent "" (str_strip s)))))
          (yield w))) ∧
  (∀ d w,
     d !! "status" = Some (PyStr "downloading") →
     d !! "_percent_str" = None →
     float_of_str "0" = Some float_zero →
     _progress_hook d w = (Ok tt, add_event (Progress ProgressHook float_zero) (yield w))) ∧
  (∀ d w e, (_progress_hook d w).1 = Raise e → exn_class e ≠ "ValueError") ∧
  (∀ d w, d !! "status" ≠ Some (PyStr "downloading") →
          trace (_progress_hook d w).2 = trace w).
Proof.
  assert (∀ d w s,
     d !! "status" = Some (PyStr "downloading") →
     default (PyStr "0%") (d !! "_percent_str") = PyStr s →
     _progress_hook d w =
       (Ok tt,
        add_event
          (Progress ProgressHook
             (default float_zero (float_of_str (str_replace percent "" (str_strip s)))))
          (yield w))) as Hmain.
  { intros d w s Hst Hs. unfold _progress_hook, getitem. rewrite Hst, Hs.
    unfold bind, try_except, py_float, py_strip. simpl.
    by destruct (float_of_str _). }
  split_and!; [done| | |].
  - intros d w Hst Hnone Hzero. rewrite (Hmain d w "0%") by by rewrite ?Hnone.
    change (str_replace percent "" (str_strip "0%")) with "0". by rewrite Hzero.
  - intros d w e. unfold _progress_hook, getitem.
    destruct (d !! "status") as [st|]; simpl; [|by intros [= <-]].
    unfold bind at 1. simpl.
    destruct (py_eq_str st "downloading"); [|done].
    unfold bind at 1, py_strip.
    destruct (default (PyStr "0%") (d !! "_percent_str")); simpl;
      try by intros [= <-].
    unfold bind, try_except, py_float.
    by destruct (float_of_str _).
  - intros d w Hst. unfold _progress_hook, getitem.
    destruct (d !! "status") as [st|]; simpl; [|done].
    unfold bind at 1. simpl.
    destruct st as [s| | |]; simpl; try done.
    destruct (String.eqb_spec s "downloading") as [->|]; done.
Qed.

(** Outside the premises of the theorem above: a ['_percent_str'] that is
    not a string has no [strip]; the hook raises [AttributeError] and calls
    nothing. *)
Lemma progress_hook_wants_a_string d w v :
  d !! "status" = Some (PyStr "downloading") →
  d !! "_percent_str" = Some v →
  (∀ s, v ≠ PyStr s) →
  ∃ e, _progress_hook d w = (Raise e, w) ∧ exn_class e = "AttributeError".
Proof.
  intros Hst Hv Hns. unfold _progress_hook, getitem. rewrite Hst, Hv.
  unfold bind, py_strip. simpl.
  destruct v as [s| | |]; [by destruct (Hns s)|by eexists..].
Qed.

End DownloadProperties.

(** ** Runs in the demo world *)

Section DemoRuns.
#[local] Existing Instance Demo.externals.



(** The second URL of three raises; the third one is processed all the
    same. *)
Lemma error_stays_with_its_url_witness :
  ∃ w0 w2 w3 items rest tail w',
    for_urls Demo.self 3 0 [Demo.track] (Demo.world []) = (Ok Exhausted, w0) ∧
    is_set w0 = (Ok false, yield w0) ∧
    download_audio Demo.self Demo.broken
      (add_event (Log (processing Demo.broken)) (yield (yield w0)))
      = (Raise Demo.video_unavailable, w2) ∧
    loop_body Demo.self 3 1 Demo.broken (yield w0) = (Ok tt, w3) ∧
    trace w3 = trace w2 ++ [Log ("Ошибка: " +:+ str_exn Demo.video_unavailable);
                            Progress WorkerLoop (percent_done 1 3)] ∧
    _download_all Demo.self [Demo.track; Demo.broken; Demo.playlist] (Demo.world [])
      = (Ok tt, w') ∧
    [Demo.playlist] = map it_url items ++ rest ∧
    Forall (download_run Demo.self) items ∧
    trace w' = trace w3 ++ blocks 3 2 items ++ tail ∧
    ((rest = [] ∧ tail = [Completion]) ∨
     (rest ≠ [] ∧ stop_event w' = true ∧ tail = [Log stopped_by_user; Completion])).
Proof.
  pose (w0 := (for_urls Demo.self 3 0 [Demo.track] (Demo.world [])).2).
  pose (w2 := (download_audio Demo.self Demo.broken
                 (add_event (Log (processing Demo.broken)) (yield (yield w0)))).2).
  assert (for_urls Demo.self 3 0 [Demo.track] (Demo.world []) = (Ok Exhausted, w0))
    as Hpre by (vm_compute; reflexivity).
  assert (is_set w0 = (Ok false, yield w0)) as Hcheck by (vm_compute; reflexivity).
  assert (download_audio Demo.self Demo.broken
            (add_event (Log (processing Demo.broken)) (yield (yield w0)))
          = (Raise Demo.video_unavailable, w2)) as Hraise by (vm_compute; reflexivity).
  clearbody w2. clearbody w0.
  destruct (error_stays_with_its_url Demo.self [Demo.track] Demo.broken [Demo.playlist]
              (Demo.world []) w0 (yield w0) Demo.video_unavailable w2
              Hpre Hcheck Hraise)
    as (w3 & items & rest & tail & w' & Hbody & Ht3 & Hrun & Hsplit & Hall & Ht & Hcase).
  exists w0, w2, w3, items, rest, tail, w'.
  exact (conj Hpre (conj Hcheck (conj Hraise (conj Hbody (conj Ht3
          (conj Hrun (conj Hsplit (conj Hall (conj Ht Hcase))))))))).
Defined.

(** [stop_download()] is called while the second of three URLs is
    downloaded: this URL is processed to its end, the third is not begun,
    the stop line is logged. *)
Lemma stop_acts_between_items_witness :
  ∃ w0 w2 w',
    for_urls Demo.self 3 0 [Demo.broken] (Demo.world Demo.stop_in_second_download)
      = (Ok Exhausted, w0) ∧
    is_set w0 = (Ok false, yield w0) ∧
    loop_body Demo.self 3 1 Demo.track (yield w0) = (Ok tt, w2) ∧
    stop_event w2 = true ∧
    _download_all Demo.self [Demo.broken; Demo.track; Demo.playlist]
      (Demo.world Demo.stop_in_second_download) = (Ok tt, w') ∧
    trace w' = trace w2 ++ [Log stopped_by_user] ++ [Completion].
Proof.
  pose (w0 := (for_urls Demo.self 3 0 [Demo.broken]
                 (Demo.world Demo.stop_in_second_download)).2).
  pose (w2 := (loop_body Demo.self 3 1 Demo.track (yield w0)).2).
  assert (for_urls Demo.self 3 0 [Demo.broken] (Demo.world Demo.stop_in_second_download)
          = (Ok Exhausted, w0)) as Hpre by (vm_compute; reflexivity).
  assert (is_set w0 = (Ok false, yield w0)) as Hcheck by (vm_compute; reflexivity).
  assert (loop_body Demo.self 3 1 Demo.track (yield w0) = (Ok tt, w2)) as Hbody
    by (vm_compute; reflexivity).
  assert (stop_event w2 = true) as Hstop by (vm_compute; reflexivity).
  clearbody w2. clearbody w0.
  destruct (stop_acts_between_items Demo.self [Demo.broken] Demo.track [Demo.playlist]
              (Demo.world Demo.stop_in_second_download) w0 (yield w0) (Ok tt) w2
              Hpre Hcheck Hbody Hstop)
    as (_ & _ & w' & Hrun & Ht).
  exists w0, w2, w'.
  exact (conj Hpre (conj Hcheck (conj Hbody (conj Hstop (conj Hrun Ht))))).
Defined.

(** The same run seen as blocks: nobody cancels, so every URL has its
    block. *)
Lemma urls_processed_in_order_witness :
  ∃ items w',
    _download_all Demo.self [Demo.track; Demo.broken; Demo.playlist] (Demo.world [])
      = (Ok tt, w') ∧
    map it_url items = [Demo.track; Demo.broken; Demo.playlist] ∧
    Forall (download_run Demo.self) items ∧
    trace w' = blocks 3 0 items ++ [Completion].
Proof.
  destruct (urls_processed_in_order Demo.self
              [Demo.track; Demo.broken; Demo.playlist] (Demo.world []))
    as (items & rest & tail & w' & Hrun & Hsplit & Hall & Ht & Hcase & Hquiet & _).
  assert (rest = []) as Hrest by (apply Hquiet; split; [reflexivity|constructor]).
  destruct Hcase as [[_ Htail]|[Hne _]]; [|exact (False_ind _ (Hne Hrest))].
  subst rest tail. rewrite app_nil_r in Hsplit.
  exists items, w'. exact (conj Hrun (conj (eq_sym Hsplit) (conj Hall Ht))).
Defined.

(** With ffmpeg on the PATH the download is attempted, without it the line
    about ffmpeg comes back at once, bundled ffmpeg or not. *)
Lemma ffmpeg_guard_looks_at_PATH_only_witness :
  download_audio Demo.self Demo.track Demo.world_no_PATH
    = (Ok ffmpeg_missing, Demo.world_no_PATH) ∧
  ∃ evs, trace (download_audio Demo.self Demo.track (Demo.world [])).2 =
           trace (Demo.world []) ++ ExtractInfo (make_ydl_opts Demo.self) Demo.track :: evs.
Proof.
  split.
  - destruct (ffmpeg_guard_looks_at_PATH_only Demo.self Demo.track Demo.world_no_PATH)
      as (_ & Hnone & _).
    apply Hnone. reflexivity.
  - destruct (ffmpeg_guard_looks_at_PATH_only Demo.self Demo.track (Demo.world []))
      as (_ & _ & Hsome & _).
    apply Hsome. discriminate.
Defined.

(** The run over the three URLs, event by event. *)
Example trace_of_a_run :
  Demo.describe <$>
    trace (_download_all Demo.self [Demo.track; Demo.broken; Demo.playlist]
             (Demo.world [])).2 =
  [ "log: Обработка ссылки: https://youtu.be/track";
    "extract_info: https://youtu.be/track";
    "progress (hook)"; "progress (hook)";
    "convert_thumbnail: /music/NA/track.webp";
    "add_metadata: /music/NA/track.mp3, /music/NA/track.jpg";
    "log: Готово: /music/NA/track.mp3. Метаданные добавлены.";
    "progress (loop)";
    "log: Обработка ссылки: https://youtu.be/gone";
    "extract_info: https://youtu.be/gone";
    "log: Ошибка: ERROR: Video unavailable";
    "progress (loop)";
    "log: Обработка ссылки: https://youtu.be/list";
    "extract_info: https://youtu.be/list";
    "progress (hook)"; "progress (hook)";
    "convert_thumbnail: /music/mix/a.webp";
    "add_metadata: /music/mix/a.mp3, /music/mix/a.jpg";
    "add_metadata: /music/mix/b.mp3, None";
    "log: " +:+ String.concat newline [Demo.done_a; Demo.done_b];
    "progress (loop)";
    "completion" ].
Proof. vm_compute. reflexivity. Qed.

(** A cancelled run: [stop_download()] is called while the first URL is
    downloaded, the second URL is never begun. *)
Example trace_of_a_cancelled_run :
  Demo.describe <$>
    trace (_download_all Demo.self [Demo.track; Demo.playlist]
             (Demo.world Demo.stop_in_first_download)).2 =
  [ "log: Обработка ссылки: https://youtu.be/track";
    "extract_info: https://youtu.be/track";
    "progress (hook)"; "progress (hook)";
    "convert_thumbnail: /music/NA/track.webp";
    "add_metadata: /music/NA/track.mp3, /music/NA/track.jpg";
    "log: Готово: /music/NA/track.mp3. Метаданные добавлены.";
    "progress (loop)";
    "log: Загрузка остановлена пользователем.";
    "completion" ].
Proof. vm_compute. reflexivity. Qed.

(** C2 as stated does not hold: [stop_download()] is called while the only
    URL of the list is downloaded, the flag is set when the loop body ends,
    and the run ends without the stop line. *)
Lemma no_stop_line_after_the_last_url :
  stop_event (Demo.world Demo.stop_in_first_download) = false ∧
  stop_event
    (loop_body Demo.self 1 0 Demo.track
       (yield (Demo.world Demo.stop_in_first_download))).2 = true ∧
  (_download_all Demo.self [Demo.track] (Demo.world Demo.stop_in_first_download)).1
    = Ok tt ∧
  Log stopped_by_user ∉
    trace (_download_all Demo.self [Demo.track]
             (Demo.world Demo.stop_in_first_download)).2.
Proof.
  split_and!; [reflexivity..|].
  intros Hin. apply list_elem_of_In in Hin. vm_compute in Hin.
  intuition discriminate.
Qed.

(** The playlist of two tracks: two messages, two lines. *)
Lemma download_audio_status_lines_witness :
  shutil_which (files (Demo.world [])) "ffmpeg" ≠ None ∧
  (YoutubeDL_extract_info (make_ydl_opts Demo.self) [_progress_hook] Demo.playlist
     (Demo.world [])).1 = Ok Demo.two_tracks ∧
  (download_audio Demo.self Demo.playlist (Demo.world [])).1
    = Ok (String.concat newline [Demo.done_a; Demo.done_b]) ∧
  split_lines (String.concat newline [Demo.done_a; Demo.done_b])
    = [Demo.done_a; Demo.done_b].
Proof.
  assert (shutil_which (files (Demo.world [])) "ffmpeg" ≠ None) as Hwhich
    by discriminate.
  split; [exact Hwhich|]. split; [vm_compute; reflexivity|].
  pose (w1 := (YoutubeDL_extract_info (make_ydl_opts Demo.self) [_progress_hook]
                 Demo.playlist (Demo.world [])).2).
  pose (wa := (_process_single_entry (Demo.entry "/music/mix/a.mp3" "a") w1).2).
  pose (wb := (_process_single_entry (Demo.entry "/music/mix/b.mp3" "b") wa).2).
  assert (YoutubeDL_extract_info (make_ydl_opts Demo.self) [_progress_hook]
            Demo.playlist (Demo.world []) = (Ok Demo.two_tracks, w1)) as Hextract
    by (vm_compute; reflexivity).
  assert (entry_messages (default [] (entries Demo.two_tracks)) w1
            [Demo.done_a; Demo.done_b] wb) as Hmsgs.
  { apply (entry_messages_cons _ _ w1 Demo.done_a wa); [vm_compute; reflexivity|].
    apply (entry_messages_cons _ _ wa Demo.done_b wb); [vm_compute; reflexivity|].
    apply entry_messages_nil. }
  destruct (download_audio_status_lines Demo.self Demo.playlist (Demo.world [])
              Demo.two_tracks w1 Hwhich Hextract) as [_ Hlist].
  destruct (Hlist eq_refl [Demo.done_a; Demo.done_b] wb Hmsgs) as (Hrun & _ & Hlines).
  split; [by rewrite Hrun|].
  apply Hlines; [by repeat constructor|discriminate].
Defined.

(** The track with its thumbnail on disk: one call of [add_metadata], with
    the converted thumbnail. *)
Lemma entry_metadata_added_once_witness :
  "/music/NA/track.mp3" ∈ files Demo.world_with_track ∧
  ∃ evs w',
    _process_single_entry (Demo.entry "/music/NA/track.mp3" "track")
      Demo.world_with_track =
      (Ok ("Готово: " +:+ "/music/NA/track.mp3" +:+ ". " +:+ "Метаданные добавлены."),
       w') ∧
    trace w' = trace Demo.world_with_track ++ evs ∧
    evs = [ConvertThumbnail "/music/NA/track.webp"] ++
          [AddMetadata "/music/NA/track.mp3" (Demo.entry "/music/NA/track.mp3" "track")
             (Some "/music/NA/track.jpg")] ∧
    List.filter is_AddMetadata evs =
      [AddMetadata "/music/NA/track.mp3" (Demo.entry "/music/NA/track.mp3" "track")
         (Some "/music/NA/track.jpg")] ∧
    contains "/music/NA/track.mp3"
      ("Готово: " +:+ "/music/NA/track.mp3" +:+ ". " +:+ "Метаданные добавлены.") ∧
    contains "Метаданные добавлены."
      ("Готово: " +:+ "/music/NA/track.mp3" +:+ ". " +:+ "Метаданные добавлены.").
Proof.
  assert ("/music/NA/track.mp3" ∈ files Demo.world_with_track) as Hfile
    by (apply (bool_decide_unpack _); vm_compute; exact I).
  split; [exact Hfile|].
  exact (entry_metadata_added_once
           (Demo.entry "/music/NA/track.mp3" "track")
           {| filepath := Some "/music/NA/track.mp3" |} []
           "/music/NA/track.mp3" (Some "/music/NA/track.jpg")
           ({[ "/music/NA/track.jpg" ]} ∪ files Demo.world_with_track)
           "Метаданные добавлены."
           ({[ "/music/NA/track.jpg" ]} ∪ files Demo.world_with_track)
           Demo.world_with_track eq_refl eq_refl Hfile eq_refl eq_refl).
Defined.

(** The hook on a percent string that parses, on a dictionary without the
    field and on a finished download. *)
Lemma progress_hook_total_witness :
  _progress_hook (Demo.downloading " 50.0%") (Demo.world []) =
    (Ok tt, add_event (Progress ProgressHook (float_of_int 50)) (yield (Demo.world []))) ∧
  _progress_hook {[ "status" := PyStr "downloading" ]} (Demo.world []) =
    (Ok tt, add_event (Progress ProgressHook float_zero) (yield (Demo.world []))) ∧
  trace (_progress_hook Demo.finished (Demo.world [])).2 = trace (Demo.world []).
Proof.
  destruct progress_hook_total as (Hparsed & Hmissing & _ & Hother).
  split_and!.
  - exact (Hparsed (Demo.downloading " 50.0%") (Demo.world []) " 50.0%" eq_refl eq_refl).
  - exact (Hmissing {[ "status" := PyStr "downloading" ]} (Demo.world [])
             eq_refl eq_refl eq_refl).
  - apply (Hother Demo.finished (Demo.world [])). discriminate.
Defined.

(** The constructor finds the bundled ffmpeg and says so; with no ffmpeg on
    the PATH [download_audio] still gives up before any download. *)
Example bundled_ffmpeg_is_not_enough :
  __init__ "/music" Demo.world_no_PATH = (Ok Demo.self, Demo.world_after_init) ∧
  download_audio Demo.self Demo.track Demo.world_after_init
    = (Ok ffmpeg_missing, Demo.world_after_init).
Proof. split; vm_compute; reflexivity. Qed.

End DemoRuns.

(** ** Beyond the specification: one entry and the hook *)

Section EntryProperties.
Context {ext : Externals}.

(** The hook either leaves the world as it is or calls the progress callback
    once and returns. *)
Lemma progress_hook_cases d w r w' :
  _progress_hook d w = (r, w') →
  w' = w ∨ (r = Ok tt ∧ ∃ v, w' = add_event (Progress ProgressHook v) (yield w)).
Proof.
  unfold _progress_hook, getitem.
  destruct (d !! "status") as [st|]; simpl; [|intros [= <- <-]; by left].
  unfold bind at 1. simpl.
  destruct (py_eq_str st "downloading"); [|intros [= <- <-]; by left].
  unfold bind at 1, py_strip.
  destruct (default (PyStr "0%") (d !! "_percent_str")); simpl;
    try (intros [= <- <-]; by left).
  unfold bind, try_except, py_float.
  destruct (float_of_str _); simpl; intros [= <- <-]; right; by eauto.
Qed.

(** An exception of the hook leaves the world as it was. *)
Lemma progress_hook_raise d w e w' :
  _progress_hook d w = (Raise e, w') →
  w' = w ∧ (e = KeyError "status" ∨ exn_class e = "AttributeError").
Proof.
  unfold _progress_hook, getitem.
  destruct (d !! "status") as [st|]; simpl; [|intros [= <- <-]; by auto].
  unfold bind at 1. simpl.
  destruct (py_eq_str st "downloading"); [|done].
  unfold bind at 1, py_strip.
  destruct (default (PyStr "0%") (d !! "_percent_str")); simpl;
    try (intros [= <- <-]; by auto).
  unfold bind, try_except, py_float. by destruct (float_of_str _).
Qed.

(** X11: the exceptions of the hook.  It reads [d['status']] with no
    default, so a dictionary without the key raises [KeyError('status')];
    the only other exception is the [AttributeError] of a ['_percent_str']
    that is not a string, under status 'downloading'.  An exception leaves
    the world as it was: no callback has been called. *)
Theorem progress_hook_exceptions d w e w' :
  _progress_hook d w = (Raise e, w') →
  w' = w ∧
  ((d !! "status" = None ∧ e = KeyError "status") ∨
   (d !! "status" = Some (PyStr "downloading") ∧
    exn_class e = "AttributeError" ∧
    ∃ v, d !! "_percent_str" = Some v ∧ ∀ s, v ≠ PyStr s)).
Proof.
  unfold _progress_hook, getitem.
  destruct (d !! "status") as [st|]; simpl; [|intros [= <- <-]; by auto].
  unfold bind at 1. simpl.
  destruct st as [s0| | |]; simpl; try done.
  destruct (String.eqb_spec s0 "downloading") as [->|]; [|done].
  unfold bind at 1, py_strip.
  destruct (d !! "_percent_str") as [v|] eqn:Hv; simpl.
  - destruct v as [s| | |]; simpl.
    + unfold bind, try_except, py_float. by destruct (float_of_str _).
    + intros [= <- <-]. split; [done|]. right. split_and!; [done|done|].
      eexists. split; [done|]. done.
    + intros [= <- <-]. split; [done|]. right. split_and!; [done|done|].
      eexists. split; [done|]. done.
    + intros [= <- <-]. split; [done|]. right. split_and!; [done|done|].
      eexists. split; [done|]. done.
  - unfold bind, try_except, py_float. by destruct (float_of_str _).
Qed.

(** X1: [_process_single_entry] touches nothing unless the file of the first
    download is on disk.  Without downloads it returns its "Не удалось"
    line, a first download without ['filepath'] raises
    [KeyError('filepath')], a path that is not on disk gives the "Файл не
    был скачан" line; in the three cases no helper of [metadata.py] is
    called and the disk is not changed.  So a call of a helper shows that
    the file was there. *)
Theorem entry_without_its_file info w :
  (default [] (requested_downloads info) = [] →
     _process_single_entry info w =
       (Ok "Не удалось определить скачанный файл для одной из записей.", w)) ∧
  (∀ d0 ds, default [] (requested_downloads info) = d0 :: ds →
     filepath d0 = None →
     _process_single_entry info w = (Raise (KeyError "filepath"), w)) ∧
  (∀ d0 ds p, default [] (requested_downloads info) = d0 :: ds →
     filepath d0 = Some p → p ∉ files w →
     _process_single_entry info w = (Ok ("Файл не был скачан: " +:+ p), w)) ∧
  (∀ e evs, trace (_process_single_entry info w).2 = trace w ++ e :: evs →
     ∃ p, first_filepath info = Some p ∧ p ∈ files w).
Proof.
  split_and!.
  - intros Hd. unfold _process_single_entry. by rewrite Hd.
  - intros d0 ds Hd Hp. unfold _process_single_entry. rewrite Hd, Hp. done.
  - intros d0 ds p Hd Hp Hfile. unfold _process_single_entry. rewrite Hd, Hp.
    unfold bind at 1. simpl. unfold bind at 1. unfold os_path_exists at 1.
    by rewrite bool_decide_eq_false_2.
  - assert (∀ (l : list event) e evs, l ≠ l ++ e :: evs) as Hgrow.
    { intros l e evs Heq. rewrite <-(app_nil_r l) in Heq at 1.
      by apply app_inv_head in Heq. }
    intros e evs. unfold first_filepath, _process_single_entry.
    destruct (default [] (requested_downloads info)) as [|d0 ds]; simpl.
    { intros Ht. by apply Hgrow in Ht. }
    destruct (filepath d0) as [p|]; simpl.
    2:{ intros Ht. by apply Hgrow in Ht. }
    unfold bind at 1. simpl. unfold bind at 1. unfold os_path_exists at 1.
    case_bool_decide as Hp; simpl.
    + intros _. by exists p.
    + intros Ht. by apply Hgrow in Ht.
Qed.

(** A clean-up that went through has removed the two thumbnails. *)
Lemma cleanup_result_Ok thumb webp fs fs' :
  cleanup_result thumb webp fs = Ok fs' →
  fs' = (fs ∖ thumbnail_files thumb) ∖ {[webp]}.
Proof.
  assert (∀ p (g g' : gset string),
            remove_if_exists_result p g = Ok g' → g' = g ∖ {[p]}) as Hone.
  { intros p g g'. unfold remove_if_exists_result. case_bool_decide as Hin.
    - destruct (os_remove_error p g); [done|]. by intros [= <-].
    - intros [= <-]. symmetry. apply difference_disjoint_L.
      by apply disjoint_singleton_r. }
  unfold cleanup_result. destruct thumb as [[|c t]|]; simpl.
  - intros H. apply Hone in H. by rewrite difference_empty_L.
  - destruct (remove_if_exists_result (String c t) fs) as [g|e] eqn:Hg; [|done].
    intros H. apply Hone in H. apply Hone in Hg. by rewrite H, Hg.
  - intros H. apply Hone in H. by rewrite difference_empty_L.
Qed.

(** X2: when the helpers return and [os.remove] refuses neither thumbnail,
    an entry is processed to its "Готово" line and the thumbnails are gone:
    the disk is the one [add_metadata] left, less the path
    [convert_thumbnail] returned (if it is not empty) and less the sibling
    [.webp].  The downloaded file is still there, unless one of the two
    thumbnail paths is the downloaded path itself. *)
Theorem entry_removes_its_thumbnails info d0 ds path thumb fs1 meta fs2 fs3 w :
  requested_downloads info = Some (d0 :: ds) →
  filepath d0 = Some path →
  path ∈ files w →
  let webp := (os_path_splitext path).1 +:+ ".webp" in
  (if bool_decide (webp ∈ files w)
   then convert_thumbnail_result webp (files w) = (fs1, Ok thumb)
   else thumb = None ∧ fs1 = files w) →
  add_metadata_result path info thumb fs1 = (fs2, Ok meta) →
  cleanup_result thumb webp fs2 = Ok fs3 →
  ∃ w',
    _process_single_entry info w = (Ok ("Готово: " +:+ path +:+ ". " +:+ meta), w') ∧
    files w' = (fs2 ∖ thumbnail_files thumb) ∖ {[webp]} ∧
    (webp ∉ files w') ∧
    (∀ p, thumb = Some p → p ≠ "" → p ∉ files w') ∧
    (path ∈ fs2 → path ≠ webp → thumb ≠ Some path → path ∈ files w').
Proof.
  intros Hdl Hpath Hfile webp Hthumb Hmeta Hclean.
  assert (∀ fs : gset string,
            fs = (fs2 ∖ thumbnail_files thumb) ∖ {[webp]} →
            (webp ∉ fs) ∧
            (∀ p, thumb = Some p → p ≠ "" → p ∉ fs) ∧
            (path ∈ fs2 → path ≠ webp → thumb ≠ Some path → path ∈ fs)) as Hsets.
  { intros fs ->. split_and!.
    - rewrite elem_of_difference, elem_of_singleton. tauto.
    - intros p -> Hp. destruct p as [|c t]; [done|]. simpl.
      rewrite !elem_of_difference, !elem_of_singleton. tauto.
    - intros Hin Hne Hnt. rewrite !elem_of_difference, elem_of_singleton.
      split_and!; [done| |done].
      destruct thumb as [[|c t]|]; simpl;
        rewrite ?elem_of_singleton, ?elem_of_empty; [tauto| |tauto].
      congruence. }
  pose proof (cleanup_result_Ok _ _ _ _ Hclean) as Hfs3.
  unfold _process_single_entry. rewrite Hdl. simpl. rewrite Hpath.
  unfold bind at 1. simpl. unfold bind at 1. unfold os_path_exists at 1.
  rewrite bool_decide_eq_true_2 by done. simpl.
  unfold bind at 1. unfold os_path_exists at 1. fold webp.
  case_bool_decide as Hwebp; simpl.
  - unfold bind at 1. unfold convert_thumbnail, bind at 1, emit. simpl.
    rewrite files_yield, Hthumb.
    unfold bind at 1. unfold add_metadata, bind at 1, emit. simpl.
    rewrite files_yield. simpl. rewrite Hmeta.
    match goal with |- ∃ _, _ ?wa = _ ∧ _ =>
      destruct (cleanup_run thumb webp ("Готово: " +:+ path +:+ ". " +:+ meta) wa)
        as (wb & Heq & _ & Hfb) end.
    simpl in Hfb, Heq. rewrite Hclean in Hfb, Heq. specialize (Hfb fs3 eq_refl).
    rewrite Heq. exists wb. split; [done|]. rewrite Hfb, Hfs3. split; [done|]. by apply Hsets.
  - destruct Hthumb as [-> ->]. unfold bind at 1. simpl.
    unfold bind at 1. unfold add_metadata, bind at 1, emit. simpl.
    rewrite files_yield, Hmeta.
    match goal with |- ∃ _, _ ?wa = _ ∧ _ =>
      destruct (cleanup_run None webp ("Готово: " +:+ path +:+ ". " +:+ meta) wa)
        as (wb & Heq & _ & Hfb) end.
    simpl in Hfb, Heq. rewrite Hclean in Hfb, Heq. specialize (Hfb fs3 eq_refl).
    rewrite Heq. exists wb. split; [done|]. rewrite Hfb, Hfs3. split; [done|]. by apply Hsets.
Qed.

End EntryProperties.

(** ** Beyond the specification: one download *)

Section DownloadEvents.
Context {ext : Externals}.

Lemma for_each_app {A B} (l1 l2 : list A) (acc : B) body w :
  for_each (l1 ++ l2) acc body w =
    match for_each l1 acc body w with
    | (Ok acc', w') => for_each l2 acc' body w'
    | (Raise e, w') => (Raise e, w')
    end.
Proof.
  revert acc w. induction l1 as [|x l1 IH]; intros acc w; [done|].
  simpl. unfold bind.
  destruct (body acc x w) as [[acc'|e] w']; [apply IH|done].
Qed.

Lemma run_hooks_cons d calls w :
  run_hooks (d :: calls) w =
    match _progress_hook d w with
    | (Ok _, w') => run_hooks calls w'
    | (Raise e, w') => (Raise e, w')
    end.
Proof.
  unfold run_hooks. simpl. unfold bind.
  by destruct (_progress_hook d w) as [[[]|e] w'].
Qed.

(** The hooks only call the progress callback, leave the disk alone, and
    raise nothing but the exceptions of [_progress_hook]. *)
Lemma run_hooks_spec calls w :
  ∃ evs, trace (run_hooks calls w).2 = trace w ++ evs ∧
    Forall hook_event evs ∧
    files (run_hooks calls w).2 = files w ∧
    (∀ e, (run_hooks calls w).1 = Raise e →
          e = KeyError "status" ∨ exn_class e = "AttributeError").
Proof.
  revert w. induction calls as [|d calls IH]; intros w.
  { exists []. simpl. rewrite app_nil_r. by split_and!. }
  rewrite run_hooks_cons.
  destruct (_progress_hook d w) as [[[]|e] w1] eqn:Hhook; simpl.
  - destruct (IH w1) as (evs & Ht & Hev & Hf & He).
    destruct (progress_hook_cases d w _ _ Hhook) as [->|(_ & v & ->)].
    + by exists evs.
    + exists (Progress ProgressHook v :: evs). split_and!; [|by constructor| |done].
      * rewrite Ht. simpl. rewrite trace_yield. by rewrite <-app_assoc.
      * rewrite Hf. simpl. by rewrite files_yield.
  - destruct (progress_hook_raise d w e w1 Hhook) as (-> & Hcases).
    exists []. rewrite app_nil_r. split_and!; [done|done|done|].
    by intros e' [= <-].
Qed.

(** [download_audio], step by step. *)
Lemma download_audio_eq self url w :
  download_audio self url w =
    if bool_decide (shutil_which (files w) "ffmpeg" ≠ None) then
      let x := ydl_extract_info (make_ydl_opts self) url (files w) in
      let w1 := set_files (ex_files x)
                  (add_event (ExtractInfo (make_ydl_opts self) url) (yield w)) in
      match run_hooks (ex_hook_calls x) w1, ex_result x with
      | (Ok _, w2), Ok info =>
          (if bool_decide (_type info = Some "playlist") then
             result_messages <-
               for_each (default [] (entries info)) []
                 (λ result_messages entry,
                    msg <- _process_single_entry entry ;;
                    ret (result_messages ++ [msg])) ;;
             ret (String.concat newline result_messages)
           else _process_single_entry info) w2
      | (Ok _, w2), Raise e => (Raise e, w2)
      | (Raise e, w2), _ => (Raise e, w2)
      end
    else (Ok ffmpeg_missing, w).
Proof.
  unfold download_audio, _ffmpeg_available. unfold bind at 1.
  case_bool_decide as Hwhich; simpl; [|done].
  unfold bind at 1. unfold YoutubeDL_extract_info.
  unfold bind at 1. unfold emit at 1. unfold bind at 1. unfold bind at 1. simpl.
  rewrite files_yield. unfold bind at 1. unfold run_hooks. simpl.
  destruct (for_each _ _ _ _) as [[[]|e] w2]; [|done].
  unfold of_result. by destruct (ex_result _).
Qed.

(** X3: when the extraction raises (a video that is gone, say),
    [download_audio] raises: lines 104-105 stand in no [try].  Up to then
    it has called [extract_info] once and the hook has reported progress,
    nothing else: no helper of [metadata.py] is called, and what yt_dlp left
    on disk stays there.  The exception is the one of the extraction,
    unless the hook itself had raised before. *)
Theorem failed_extraction_raises self url w e :
  shutil_which (files w) "ffmpeg" ≠ None →
  let x := ydl_extract_info (make_ydl_opts self) url (files w) in
  ex_result x = Raise e →
  ∃ e' hooks w',
    download_audio self url w = (Raise e', w') ∧
    trace w' = trace w ++ ExtractInfo (make_ydl_opts self) url :: hooks ∧
    Forall hook_event hooks ∧
    files w' = ex_files x ∧
    (e' = e ∨ e' = KeyError "status" ∨ exn_class e' = "AttributeError").
Proof.
  intros Hwhich x Hres. rewrite download_audio_eq, bool_decide_eq_true_2 by done.
  cbv zeta. fold x. rewrite Hres.
  set (w1 := set_files (ex_files x)
               (add_event (ExtractInfo (make_ydl_opts self) url) (yield w))).
  destruct (run_hooks_spec (ex_hook_calls x) w1) as (hooks & Ht & Hev & Hf & He).
  assert (trace w1 = trace w ++ [ExtractInfo (make_ydl_opts self) url]) as Ht1.
  { unfold w1. simpl. by rewrite trace_yield. }
  destruct (run_hooks (ex_hook_calls x) w1) as [[[]|e'] w2]; simpl in *.
  - exists e, hooks, w2. split_and!; [done| |done|done|by left].
    by rewrite Ht, Ht1, <-app_assoc.
  - exists e', hooks, w2. split_and!; [done| |done|done|right; by apply He].
    by rewrite Ht, Ht1, <-app_assoc.
Qed.

(** X4: an exception in one entry of a playlist ends the whole download:
    [download_audio] raises it, the messages of the entries before it are
    dropped with [result_messages], and the entries after it are not
    processed (the world is the one the failing entry left). *)
Theorem playlist_entry_error_ends_the_download
    self url w info w1 pre bad post msgs w2 e w3 :
  shutil_which (files w) "ffmpeg" ≠ None →
  YoutubeDL_extract_info (make_ydl_opts self) [_progress_hook] url w = (Ok info, w1) →
  _type info = Some "playlist" →
  entries info = Some (pre ++ bad :: post) →
  entry_messages pre w1 msgs w2 →
  _process_single_entry bad w2 = (Raise e, w3) →
  download_audio self url w = (Raise e, w3).
Proof.
  intros Hwhich Hextract Hty Hentries Hpre Hbad.
  unfold download_audio, _ffmpeg_available. unfold bind at 1.
  rewrite bool_decide_eq_true_2 by done. simpl. unfold bind at 1.
  rewrite Hextract, bool_decide_eq_true_2 by done.
  rewrite Hentries. simpl. unfold bind at 1.
  rewrite for_each_app, (for_each_entry_messages _ _ _ _ [] Hpre).
  simpl. unfold bind at 1. unfold bind at 1. by rewrite Hbad.
Qed.

Lemma emits_entry_calls info w :
  ∃ evs, trace (_process_single_entry info w).2 = trace w ++ evs ∧
         entry_calls info evs.
Proof.
  assert (∀ (m : M unit) (k : M string) wa,
            (∀ wx, trace (m wx).2 = trace wx) →
            (∀ wx, trace (k wx).2 = trace wx) →
            trace ((m ;; k) wa).2 = trace wa) as Hseq.
  { intros m k wa Hm Hk. unfold bind. specialize (Hm wa).
    destruct (m wa) as [[[]|e] wb]; simpl in *; [|done]. by rewrite Hk. }
  assert (∀ p wa, trace ((b <- os_path_exists p ;;
                          if b then os_remove p else ret tt) wa).2 = trace wa)
    as Hrm.
  { intros p wa. apply remove_if_exists_trace. }
  unfold entry_calls, first_filepath, _process_single_entry.
  destruct (default [] (requested_downloads info)) as [|d0 ds]; simpl.
  { exists []. rewrite app_nil_r. auto. }
  destruct (filepath d0) as [path|]; simpl.
  2:{ exists []. rewrite app_nil_r. auto. }
  unfold bind at 1. simpl. unfold bind at 1. unfold os_path_exists at 1.
  destruct (bool_decide (path ∈ files w)); simpl.
  2:{ exists []. rewrite app_nil_r. auto. }
  set (webp := (os_path_splitext path).1 +:+ ".webp").
  assert (∀ t m wa,
            trace ((match t with
                    | Some (String c t') =>
                        has_thumbnail <- os_path_exists (String c t') ;;
                        if has_thumbnail then os_remove (String c t') else ret tt
                    | _ => ret tt
                    end ;;
                    has_webp' <- os_path_exists webp ;;
                    (if has_webp' then os_remove webp else ret tt) ;;
                    ret ("Готово: " +:+ path +:+ ". " +:+ m)) wa).2 = trace wa)
    as Htail.
  { intros t m wa. apply Hseq.
    - intros wx. destruct t as [[|c t']|]; first [apply Hrm|done].
    - intros wx. rewrite <-(bind_assoc (os_path_exists webp)). apply Hseq; [|done].
      apply Hrm. }
  assert (∀ t wa,
            ∃ evs, trace ((meta_result <- add_metadata path info t ;;
                           match t with
                           | Some (String c t') =>
                               has_thumbnail <- os_path_exists (String c t') ;;
                               if has_thumbnail then os_remove (String c t')
                               else ret tt
                           | _ => ret tt
                           end ;;
                           has_webp' <- os_path_exists webp ;;
                           (if has_webp' then os_remove webp else ret tt) ;;
                           ret ("Готово: " +:+ path +:+ ". " +:+ meta_result)) wa).2
                   = trace wa ++ evs ∧ evs = [AddMetadata path info t]) as Hadd.
  { intros t wa. eexists. split; [|done].
    unfold bind at 1. unfold add_metadata, bind at 1, emit. simpl.
    destruct (add_metadata_result _ _ _ _) as [fs [meta|e]]; simpl.
    - rewrite Htail. simpl. by rewrite trace_yield.
    - by rewrite trace_yield. }
  unfold bind at 1. unfold os_path_exists at 1.
  destruct (bool_decide (webp ∈ files w)); simpl.
  - unfold bind at 1. unfold convert_thumbnail, bind at 1, emit. simpl.
    destruct (convert_thumbnail_result _ _) as [fs [t|e]]; simpl.
    + match goal with |- ∃ _, trace (_ ?wa).2 = _ ∧ _ =>
        destruct (Hadd t wa) as (evs & -> & ->) end.
      exists [ConvertThumbnail webp; AddMetadata path info t]. split.
      * simpl. rewrite trace_yield. by rewrite <-app_assoc.
      * right. exists path. split; [done|]. right. right. by exists t.
    + exists [ConvertThumbnail webp]. split; [by rewrite trace_yield|].
      right. exists path. split; [done|]. by left.
  - unfold bind at 1. simpl.
    destruct (Hadd None w) as (evs & -> & ->).
    exists [AddMetadata path info None]. split; [done|].
    right. exists path. split; [done|]. right. by left.
Qed.

(** X13: the helpers of [metadata.py] in one call
    [_process_single_entry(info)].  [add_metadata] is called at most once,
    with [info] itself and the path of its first download;
    [convert_thumbnail] is called at most once, for the sibling [.webp] of
    that path, and never after [add_metadata].  [add_metadata] gets a
    thumbnail only from a call of [convert_thumbnail] just before it. *)
Theorem entry_helper_calls info w :
  ∃ evs, trace (_process_single_entry info w).2 = trace w ++ evs ∧
    entry_calls info evs ∧
    length (List.filter is_AddMetadata evs) ≤ 1 ∧
    (∀ path i thumb, AddMetadata path i thumb ∈ evs →
       i = info ∧ first_filepath info = Some path ∧
       (thumb ≠ None →
        evs = [ConvertThumbnail ((os_path_splitext path).1 +:+ ".webp");
               AddMetadata path info thumb])).
Proof.
  destruct (emits_entry_calls info w) as (evs & Ht & Hcalls).
  exists evs. split_and!; [done|done| |].
  - destruct Hcalls as [->|(p & _ & [->|[->|[t ->]]])]; simpl; lia.
  - intros path i thumb Hin.
    destruct Hcalls as [->|(p & Hp & [->|[->|[t ->]]])].
    + by apply elem_of_nil in Hin.
    + apply elem_of_cons in Hin as [Hin|Hin]; [done|by apply elem_of_nil in Hin].
    + apply elem_of_cons in Hin as [Hin|Hin]; [|by apply elem_of_nil in Hin].
      injection Hin as -> -> ->. done.
    + apply elem_of_cons in Hin as [Hin|Hin]; [done|].
      apply elem_of_cons in Hin as [Hin|Hin]; [|by apply elem_of_nil in Hin].
      injection Hin as -> -> ->. done.
Qed.

Lemma for_each_entry_cons entry entries acc w :
  for_each (entry :: entries) acc
    (λ result_messages entry,
       msg <- _process_single_entry entry ;;
       ret (result_messages ++ [msg])) w =
  match _process_single_entry entry w with
  | (Ok msg, w1) =>
      for_each entries (acc ++ [msg])
        (λ result_messages entry,
           msg <- _process_single_entry entry ;;
           ret (result_messages ++ [msg])) w1
  | (Raise e, w1) => (Raise e, w1)
  end.
Proof.
  simpl. unfold bind at 1. unfold bind at 1.
  by destruct (_process_single_entry entry w) as [[msg|e] w1].
Qed.

Lemma for_each_entry_calls entries acc w r w' :
  for_each entries acc
    (λ result_messages entry,
       msg <- _process_single_entry entry ;;
       ret (result_messages ++ [msg])) w = (r, w') →
  ∃ chunks, trace w' = trace w ++ concat chunks ∧
    Forall2 entry_calls (take (length chunks) entries) chunks ∧
    (∀ a, r = Ok a → length chunks = length entries).
Proof.
  revert acc w. induction entries as [|entry entries IH]; intros acc w.
  { intros [= <- <-]. exists []. simpl. rewrite app_nil_r.
    split_and!; [done|constructor|done]. }
  rewrite for_each_entry_cons.
  destruct (emits_entry_calls entry w) as (evs & Ht & Hcalls).
  destruct (_process_single_entry entry w) as [[msg|e] w1]; simpl in *.
  - intros Hrest. destruct (IH _ _ Hrest) as (chunks & Ht' & Hall & Hlen).
    exists (evs :: chunks). simpl. split_and!.
    + by rewrite Ht', Ht, <-app_assoc.
    + by constructor.
    + intros a Ha. by rewrite (Hlen a Ha).
  - intros [= <- <-]. exists [evs]. simpl. rewrite app_nil_r.
    split_and!; [done| |done]. rewrite take_0. constructor; [done|constructor].
Qed.

(** X12: the events of any call [download_audio(url)] when ffmpeg is on the
    PATH: [extract_info] once, first, with the options of lines 90-102;
    then progress values of the hook; then, for the dictionaries of the
    extraction in their order (the entries of a playlist, or the dictionary
    itself), the helper calls of one entry after the other.  The entries
    reached are a prefix of the list, and all of it when the call returns;
    when the extraction raised there is none.  The call never logs and
    never calls the completion callback. *)
Theorem download_audio_events self url w :
  shutil_which (files w) "ffmpeg" ≠ None →
  ∃ hooks chunks,
    trace (download_audio self url w).2 =
      trace w ++ ExtractInfo (make_ydl_opts self) url :: hooks ++ concat chunks ∧
    Forall hook_event hooks ∧
    Forall2 entry_calls (take (length chunks) (extracted self url (files w))) chunks ∧
    (∀ s, (download_audio self url w).1 = Ok s →
          length chunks = length (extracted self url (files w))) ∧
    List.filter is_ExtractInfo (hooks ++ concat chunks) = [].
Proof.
  intros Hwhich.
  assert (∀ hooks chunks infos,
            Forall hook_event hooks →
            Forall2 entry_calls infos chunks →
            List.filter is_ExtractInfo (hooks ++ concat chunks) = []) as Hnone.
  { intros hooks chunks infos Hh Hc. rewrite List.filter_app.
    assert (List.filter is_ExtractInfo hooks = []) as ->.
    { induction Hh as [|[| [] | | | | | ] ? ? ? IH]; simpl; done. }
    simpl. induction Hc as [|i c infos' chunks' Hic _ IH]; [done|].
    simpl. rewrite List.filter_app, IH, app_nil_r.
    destruct Hic as [->|(p & _ & [->|[->|[t ->]]])]; done. }
  rewrite download_audio_eq, bool_decide_eq_true_2 by done.
  cbv zeta. unfold extracted.
  set (x := ydl_extract_info (make_ydl_opts self) url (files w)).
  set (w1 := set_files (ex_files x)
               (add_event (ExtractInfo (make_ydl_opts self) url) (yield w))).
  destruct (run_hooks_spec (ex_hook_calls x) w1) as (hooks & Ht & Hev & _ & _).
  destruct (run_hooks (ex_hook_calls x) w1) as [rh w2]. simpl in Ht.
  assert (trace w2 = trace w ++ ExtractInfo (make_ydl_opts self) url :: hooks) as Hpre.
  { rewrite Ht. unfold w1. simpl. by rewrite trace_yield, <-app_assoc. }
  clear Ht. clearbody w1.
  assert (List.filter is_ExtractInfo (hooks ++ concat []) = []) as Hnil
    by (apply (Hnone hooks [] []); [done|constructor]).
  destruct rh as [[]|e'].
  2:{ exists hooks, []. split_and!; [|done| |done|done].
      - simpl. by rewrite app_nil_r.
      - constructor. }
  destruct (ex_result x) as [info|e].
  2:{ exists hooks, []. split_and!; [|done| |done|done].
      - simpl. by rewrite app_nil_r.
      - constructor. }
  unfold entries_of. case_bool_decide as Hty.
  - set (loop := for_each (default [] (entries info)) [] _).
    unfold bind.
    destruct (loop w2) as [[msgs|e] w3] eqn:Hloop; unfold loop in Hloop;
      destruct (for_each_entry_calls _ _ _ _ _ Hloop) as (chunks & Ht' & Hall & Hlen);
      exists hooks, chunks; simpl.
    + split_and!; [|done|done| |by eapply Hnone].
      * by rewrite Ht', Hpre, <-app_assoc.
      * intros _ _. by apply (Hlen msgs).
    + split_and!; [|done|done|done|by eapply Hnone].
      by rewrite Ht', Hpre, <-app_assoc.
  - destruct (emits_entry_calls info w2) as (evs & Ht' & Hcalls).
    exists hooks, [evs]. split_and!; [|done| |done|].
    + simpl. by rewrite app_nil_r, Ht', Hpre, <-app_assoc.
    + constructor; [done|constructor].
    + eapply (Hnone hooks [evs] [info]); [done|]. constructor; [done|constructor].
Qed.

End DownloadEvents.

(** ** Beyond the specification: the worker and the constructor *)

Section WorkerMore.
Context {ext : Externals}.

(** The loop on a disk without ffmpeg on the PATH. *)
Lemma for_urls_without_ffmpeg self total idx urls w :
  idx + length urls ≤ total →
  shutil_which (files w) "ffmpeg" = None →
  ∃ pre rest how wl,
    urls = pre ++ rest ∧
    for_urls self total idx urls w = (Ok how, wl) ∧
    trace wl = trace w ++ guard_blocks total idx pre ++
               match rest with [] => [] | _ => [Log stopped_by_user] end ∧
    files wl = files w ∧ steps w wl ∧
    (rest ≠ [] → stop_event wl = true).
Proof.
  revert idx w. induction urls as [|url urls IH]; intros idx w Htot Hwhich.
  { exists [], [], Exhausted, w. simpl. rewrite app_nil_r.
    split_and!; [done|done|done|done|apply steps_refl|done]. }
  simpl in Htot. assert (idx < total) as Htot' by lia.
  rewrite for_urls_cons. destruct (stop_event (yield w)) eqn:Hflag.
  { exists [], (url :: urls), Broke. eexists. split_and!; [done|done| | | |].
    - simpl. by rewrite !trace_yield.
    - simpl. by rewrite !files_yield.
    - steps.
    - intros _. simpl. destruct (steps_yield (yield w)) as [Hmono _]. by apply Hmono. }
  rewrite loop_body_eq by done.
  set (w1 := add_event (Log (processing url)) (yield (yield w))).
  assert (files w1 = files w) as Hf1 by (unfold w1; simpl; by rewrite !files_yield).
  assert (download_audio self url w1 = (Ok ffmpeg_missing, w1)) as ->.
  { rewrite download_audio_eq, bool_decide_eq_false_2; [done|].
    rewrite Hf1, Hwhich. by intros ?. }
  cbv zeta. simpl.
  set (w2 := add_event (Progress WorkerLoop (percent_done idx total))
               (yield (add_event (Log ffmpeg_missing) (yield w1)))).
  assert (files w2 = files w) as Hf2.
  { unfold w2. simpl. rewrite files_yield. simpl. by rewrite files_yield. }
  assert (trace w2 = trace w ++ guard_block total idx url) as Ht2.
  { unfold w2, guard_block. simpl. rewrite trace_yield. simpl. rewrite trace_yield.
    unfold w1. simpl. rewrite !trace_yield. by rewrite <-!app_assoc. }
  assert (steps w w2) as Hs2 by (unfold w2, w1; steps).
  clearbody w2. clear w1 Hf1.
  destruct (IH (S idx) w2 ltac:(lia)) as (pre & rest & how & wl & -> & Hrun & Ht & Hf & Hs & Hstop).
  { by rewrite Hf2. }
  exists (url :: pre), rest, how, wl. split_and!; [done|done| | | |done].
  - rewrite Ht, Ht2. simpl. by rewrite <-!app_assoc.
  - by rewrite Hf, Hf2.
  - by eapply steps_trans.
Qed.

(** X5: a run on a machine without ffmpeg on the PATH.  Every URL that is
    begun leaves its "Обработка ссылки" line, the "ffmpeg не найден" line
    and its progress value, and nothing else: [extract_info] is never
    called and the disk is not touched.  The loop does not stop at the
    first such URL; it goes through the list (all of it when nobody
    cancels) and the progress still reaches 100. *)
Theorem run_without_ffmpeg self url_list w :
  shutil_which (files w) "ffmpeg" = None →
  ∃ pre rest w',
    url_list = pre ++ rest ∧
    _download_all self url_list w = (Ok tt, w') ∧
    trace w' = trace w ++ guard_blocks (length url_list) 0 pre ++
               match rest with [] => [] | _ => [Log stopped_by_user] end ++
               [Completion] ∧
    files w' = files w ∧
    (quiet w → rest = []).
Proof.
  intros Hwhich.
  destruct (for_urls_without_ffmpeg self (length url_list) 0 url_list w
              (Nat.le_refl _) Hwhich)
    as (pre & rest & how & wl & Hsplit & Hrun & Ht & Hf & Hs & Hstop).
  exists pre, rest. rewrite download_all_eq, Hrun. eexists.
  split_and!; [done|done| | |].
  - simpl. rewrite trace_yield, Ht. by rewrite <-!app_assoc.
  - simpl. by rewrite files_yield.
  - intros Hq. destruct rest as [|u rest]; [done|].
    destruct Hs as [_ Hs]. destruct (Hs Hq) as [Hclear _].
    rewrite Hstop in Hclear; done.
Qed.

(** X6: the progress values of the loop in any run, cancelled or not.  For
    a list of [n] URLs of which [k] were begun they are the floats
    [(i + 1) / n * 100] for [i = 0 .. k - 1], one per URL and in order.
    Fewer values than URLs means that the flag has been set.  For a list
    of at most [2^51] URLs each value lies above 0.0 and is at most 100.0,
    and 100.0 is sent only for the last URL of the list. *)
Theorem loop_progress_of_any_run self url_list w :
  ∃ k evs w',
    _download_all self url_list w = (Ok tt, w') ∧
    trace w' = trace w ++ evs ∧
    k ≤ length url_list ∧
    loop_progress evs = map (λ i, percent_done i (length url_list)) (seq 0 k) ∧
    (k < length url_list → stop_event w' = true) ∧
    ((Z.of_nat (length url_list) ≤ 2 ^ 51)%Z →
     ∀ i, i < k →
       SFltb float_zero (percent_done i (length url_list)) = true ∧
       SFleb (percent_done i (length url_list)) (float_of_int 100) = true ∧
       (percent_done i (length url_list) = float_of_int 100 ↔ S i = length url_list)).
Proof.
  destruct (download_all_shape self url_list w)
    as (pre & rest & w0 & items & w' & Hsplit & _ & Hmap & Hall & Ht & _ & Hrun
        & Hs' & Hcase).
  assert (length items ≤ length url_list) as Hk.
  { rewrite Hsplit, <-Hmap, length_app, length_map. lia. }
  assert (∀ tail, loop_progress tail = [] →
            loop_progress (blocks (length url_list) 0 items ++ tail) =
              map (λ i, percent_done i (length url_list)) (seq 0 (length items)))
    as Hprog.
  { intros tail Htail.
    by rewrite loop_progress_app, (loop_progress_blocks self), Htail, app_nil_r. }
  assert ((Z.of_nat (length url_list) ≤ 2 ^ 51)%Z →
          ∀ i, i < length items →
            SFltb float_zero (percent_done i (length url_list)) = true ∧
            SFleb (percent_done i (length url_list)) (float_of_int 100) = true ∧
            (percent_done i (length url_list) = float_of_int 100 ↔
             S i = length url_list)) as Hrange.
  { intros Hn i Hi. unfold percent_done.
    destruct (percent_of_range (Z.of_nat i + 1) (Z.of_nat (length url_list))
                ltac:(lia) Hn) as (Hpos & Hle & Hiff).
    split; [exact Hpos|]. split; [exact Hle|]. rewrite Hiff. lia. }
  exists (length items).
  destruct Hcase as [(-> & _ & Ht')|(Hne & Hstop & Hloop & Ht')]; eexists; exists w';
    (split_and!; [done| |done| | |done]).
  - by rewrite Ht', Ht, <-app_assoc.
  - by apply Hprog.
  - rewrite Hsplit, <-Hmap, app_nil_r, length_map. lia.
  - by rewrite Ht', Ht, <-app_assoc.
  - by apply Hprog.
  - intros _. rewrite download_all_eq, Hloop in Hrun. injection Hrun as <-.
    simpl. destruct (steps_yield (yield w0)) as [Hmono _].
    destruct (steps_yield (add_event (Log stopped_by_user) (yield (yield w0))))
      as [Hmono' _].
    apply Hmono'. simpl. by apply Hmono.
Qed.

(** X7: a flag that is set when the loop makes its first check.  Not one
    URL is begun: the run logs the stop line, calls the completion callback
    and returns; the disk is as before and the flag is still set, since
    [_download_all] never clears it. *)
Theorem stop_before_the_first_url self url rest w :
  stop_event (yield w) = true →
  ∃ w', _download_all self (url :: rest) w = (Ok tt, w') ∧
        trace w' = trace w ++ [Log stopped_by_user; Completion] ∧
        files w' = files w ∧
        stop_event w' = true.
Proof.
  intros Hstop. rewrite download_all_eq, for_urls_cons, Hstop. eexists.
  split_and!; [done| | |].
  - simpl. rewrite !trace_yield. simpl. by rewrite !trace_yield, <-app_assoc.
  - simpl. rewrite !files_yield. simpl. by rewrite !files_yield.
  - simpl. destruct (steps_yield (yield w)) as [Hmono _].
    destruct (steps_yield (add_event (Log stopped_by_user) (yield (yield w))))
      as [Hmono' _].
    apply Hmono'. simpl. by apply Hmono.
Qed.

(** X8: [start_download] forgets an earlier stop.  Whatever the flag was
    (set by a [stop_download] of the run before, say), when nobody calls
    [stop_download] during the new run every URL of the list is processed,
    in order, and the flag is clear at the end. *)
Theorem start_download_clears_the_flag self url_list w :
  Forall (λ t, t = Quiet) (sched w) →
  ∃ items w',
    start_download self url_list w = (Ok tt, w') ∧
    map it_url items = url_list ∧
    Forall (download_run self) items ∧
    trace w' = trace w ++ blocks (length url_list) 0 items ++ [Completion] ∧
    stop_event w' = false.
Proof.
  intros Hsched.
  assert (quiet (set_stop_event false w)) as Hq by by split.
  destruct (download_all_shape self url_list (set_stop_event false w))
    as (pre & rest & w0 & items & w' & Hsplit & _ & Hmap & Hall & Ht & Hs & Hrun
        & Hs' & Hcase).
  destruct Hcase as [(-> & _ & Ht')|(_ & Hstop & _)].
  - rewrite app_nil_r in Hsplit. subst pre. exists items, w'.
    split_and!; [exact Hrun|done|done| |].
    + by rewrite Ht', Ht, <-app_assoc.
    + destruct Hs as [_ Hs]. destruct Hs' as [_ Hs']. by destruct (Hs' (Hs Hq)).
  - apply Hs in Hq. apply quiet_yield in Hq. congruence.
Qed.

(** [__init__], step by step. *)
Lemma init_eq folder w :
  __init__ folder w =
    let argv := [bundled_ffmpeg; "-version"] in
    let self := {| download_folder := folder;
                   ffmpeg_path := bundled_ffmpeg;
                   ffprobe_path := bundled_ffprobe |} in
    match os_makedirs_result folder (files w) with
    | Raise e => (Raise e, w)
    | Ok fs =>
        let w1 := add_event (SubprocessRun argv)
                    (yield (set_stop_event false (set_files fs w))) in
        match subprocess_run_result argv fs with
        | Raise e => (Raise e, w1)
        | Ok cp =>
            if negb (returncode cp =? 0)%Z then
              (Ok self,
               add_event
                 (Log "Не удалось запустить ffmpeg. Проверьте, что файл ffmpeg.exe доступен.")
                 (yield w1))
            else
              match str_splitlines (stdout cp) with
              | line :: _ =>
                  (Ok self, add_event (Log ("ffmpeg обнаружен: " +:+ line)) (yield w1))
              | [] => (Raise (IndexError "list index out of range"), w1)
              end
        end
    end.
Proof.
  unfold __init__, bundled_ffmpeg, bundled_ffprobe, base_path.
  unfold bind at 1. destruct (os_makedirs_result folder (files w)) as [fs|e]; [|done].
  unfold bind at 1. unfold bind at 1.
  unfold subprocess_run, bind at 1, emit. simpl. rewrite files_yield. simpl.
  destruct (subprocess_run_result _ _) as [cp|e]; [|done].
  unfold bind at 1. destruct (negb (returncode cp =? 0)%Z); [done|].
  by destruct (str_splitlines (stdout cp)).
Qed.

(** X9: when the constructor returns.  [os.makedirs] and [subprocess.run]
    must return, and with exit code 0 the output must have a first line (an
    empty output raises [IndexError] at [splitlines()[0]]).  An ffmpeg that
    exits with another code does not stop the constructor, and the object
    is the same in every case: the folder it was given and the two bundled
    paths. *)
Theorem init_returns_iff folder w :
  (∀ self w', __init__ folder w = (Ok self, w') →
     self = {| download_folder := folder;
               ffmpeg_path := bundled_ffmpeg;
               ffprobe_path := bundled_ffprobe |}) ∧
  ((∃ self w', __init__ folder w = (Ok self, w')) ↔
   ∃ fs cp,
     os_makedirs_result folder (files w) = Ok fs ∧
     subprocess_run_result [bundled_ffmpeg; "-version"] fs = Ok cp ∧
     (returncode cp = 0%Z → str_splitlines (stdout cp) ≠ [])).
Proof.
  rewrite init_eq. cbv zeta.
  destruct (os_makedirs_result folder (files w)) as [fs|e].
  2:{ split; [done|]. split; [by intros (? & ? & ?)|by intros (? & ? & ? & _)]. }
  destruct (subprocess_run_result _ _) as [cp|e] eqn:Hrun.
  2:{ split; [done|]. split; [by intros (? & ? & ?)|].
      intros (fs' & cp & [= <-] & Hcp & _). congruence. }
  destruct (Z.eqb_spec (returncode cp) 0) as [Hz|Hnz]; simpl.
  - destruct (str_splitlines (stdout cp)) as [|line ls] eqn:Hlines.
    + split; [done|]. split; [by intros (? & ? & ?)|].
      intros (fs' & cp' & [= <-] & Hcp & Hne). rewrite Hrun in Hcp.
      injection Hcp as <-. rewrite Hlines in Hne. by destruct (Hne Hz).
    + split; [by intros ? ? [= <- _]|]. split; [|by eauto].
      intros _. exists fs, cp. split_and!; [done|done|]. by rewrite Hlines.
  - split; [by intros ? ? [= <- _]|]. split; [|by eauto].
    intros _. exists fs, cp. split_and!; [done|done|done].
Qed.


End WorkerMore.

(** ** More runs in the small world *)

Section MoreDemoRuns.
#[local] Existing Instance Demo.externals.

(** A file that yt_dlp reported but that is not on disk, and a download
    without ['filepath']. *)
Lemma entry_without_its_file_witness :
  _process_single_entry (Demo.entry "/music/NA/track.mp3" "track") (Demo.world [])
    = (Ok ("Файл не был скачан: " +:+ "/music/NA/track.mp3"), Demo.world []) ∧
  _process_single_entry Faulty.no_filepath (Demo.world [])
    = (Raise (KeyError "filepath"), Demo.world []).
Proof.
  assert ("/music/NA/track.mp3" ∉ files (Demo.world [])) as Hfile
    by (apply (proj1 (bool_decide_eq_false _)); vm_compute; reflexivity).
  split.
  - destruct (entry_without_its_file (Demo.entry "/music/NA/track.mp3" "track")
                (Demo.world [])) as (_ & _ & Hmissing & _).
    exact (Hmissing _ _ _ eq_refl eq_refl Hfile).
  - destruct (entry_without_its_file Faulty.no_filepath (Demo.world []))
      as (_ & Hkey & _).
    exact (Hkey _ _ eq_refl eq_refl).
Defined.

(** The track with its thumbnail: after the call the [.webp] and the
    converted [.jpg] are gone and the [.mp3] is there. *)
Lemma entry_removes_its_thumbnails_witness :
  "/music/NA/track.mp3" ∈ files Demo.world_with_track ∧
  ∃ w',
    _process_single_entry (Demo.entry "/music/NA/track.mp3" "track")
      Demo.world_with_track =
      (Ok ("Готово: " +:+ "/music/NA/track.mp3" +:+ ". " +:+ "Метаданные добавлены."),
       w') ∧
    ("/music/NA/track.webp" ∉ files w') ∧
    ("/music/NA/track.jpg" ∉ files w') ∧
    "/music/NA/track.mp3" ∈ files w'.
Proof.
  assert ("/music/NA/track.mp3" ∈ files Demo.world_with_track) as Hfile
    by (apply (bool_decide_unpack _); vm_compute; exact I).
  pose (fs2 := ({[ "/music/NA/track.jpg" ]} ∪ files Demo.world_with_track
                : gset string)).
  assert ("/music/NA/track.mp3" ∈ fs2)
    as Hfile2 by (apply (bool_decide_unpack _); vm_compute; exact I).
  pose (fs3 := match cleanup_result (Some "/music/NA/track.jpg")
                       "/music/NA/track.webp" fs2 with
               | Ok fs => fs
               | Raise _ => ∅
               end).
  assert (cleanup_result (Some "/music/NA/track.jpg") "/music/NA/track.webp" fs2
          = Ok fs3) as Hclean by (vm_compute; reflexivity).
  clearbody fs3.
  split; [exact Hfile|].
  assert (∃ w',
            _process_single_entry (Demo.entry "/music/NA/track.mp3" "track")
              Demo.world_with_track =
              (Ok ("Готово: " +:+ "/music/NA/track.mp3" +:+ ". "
                   +:+ "Метаданные добавлены."), w') ∧
            files w' =
              (fs2 ∖ thumbnail_files (Some "/music/NA/track.jpg"))
                ∖ {[ "/music/NA/track.webp" ]} ∧
            ("/music/NA/track.webp" ∉ files w') ∧
            (∀ p, Some "/music/NA/track.jpg" = Some p → p ≠ "" → p ∉ files w') ∧
            ("/music/NA/track.mp3" ∈ fs2 →
             "/music/NA/track.mp3" ≠ "/music/NA/track.webp" →
             Some "/music/NA/track.jpg" ≠ Some "/music/NA/track.mp3" →
             "/music/NA/track.mp3" ∈ files w'))
    as (w' & Hrun & _ & Hwebp & Hthumb & Hkeep).
  { exact (entry_removes_its_thumbnails
             (Demo.entry "/music/NA/track.mp3" "track")
             {| filepath := Some "/music/NA/track.mp3" |} []
             "/music/NA/track.mp3" (Some "/music/NA/track.jpg")
             fs2 "Метаданные добавлены." fs2 fs3
             Demo.world_with_track eq_refl eq_refl Hfile eq_refl eq_refl Hclean). }
  exists w'.
  assert ("/music/NA/track.jpg" ∉ files w') as Hjpg.
  { apply (Hthumb "/music/NA/track.jpg" eq_refl). discriminate. }
  assert ("/music/NA/track.mp3" ∈ files w') as Hmp3.
  { apply (Hkeep Hfile2); discriminate. }
  exact (conj Hrun (conj Hwebp (conj Hjpg Hmp3))).
Defined.

(** The URL that is gone: [download_audio] raises after [extract_info]. *)
Lemma failed_extraction_raises_witness :
  shutil_which (files (Demo.world [])) "ffmpeg" ≠ None ∧
  ∃ e' hooks w',
    download_audio Demo.self Demo.broken (Demo.world []) = (Raise e', w') ∧
    trace w' = trace (Demo.world []) ++
               ExtractInfo (make_ydl_opts Demo.self) Demo.broken :: hooks ∧
    Forall hook_event hooks.
Proof.
  assert (shutil_which (files (Demo.world [])) "ffmpeg" ≠ None) as Hwhich
    by discriminate.
  split; [exact Hwhich|].
  destruct (failed_extraction_raises Demo.self Demo.broken (Demo.world [])
              Demo.video_unavailable Hwhich eq_refl)
    as (e' & hooks & w' & Hrun & Ht & Hev & _).
  exists e', hooks, w'. exact (conj Hrun (conj Ht Hev)).
Defined.

(** Two URLs on the machine with the bundled ffmpeg only. *)
Lemma run_without_ffmpeg_witness :
  shutil_which (files Demo.world_no_PATH) "ffmpeg" = None ∧
  ∃ w',
    _download_all Demo.self [Demo.track; Demo.playlist] Demo.world_no_PATH
      = (Ok tt, w') ∧
    trace w' = trace Demo.world_no_PATH ++
               guard_blocks 2 0 [Demo.track; Demo.playlist] ++ [] ++ [Completion] ∧
    files w' = files Demo.world_no_PATH.
Proof.
  assert (shutil_which (files Demo.world_no_PATH) "ffmpeg" = None) as Hwhich
    by reflexivity.
  split; [exact Hwhich|].
  destruct (run_without_ffmpeg Demo.self [Demo.track; Demo.playlist]
              Demo.world_no_PATH Hwhich)
    as (pre & rest & w' & Hsplit & Hrun & Ht & Hf & Hquiet).
  assert (rest = []) as Hrest by (apply Hquiet; split; [reflexivity|constructor]).
  subst rest. rewrite app_nil_r in Hsplit. subst pre.
  exists w'. exact (conj Hrun (conj Ht Hf)).
Defined.

(** [stop_download()] before the worker makes its first check. *)
Lemma stop_before_the_first_url_witness :
  stop_event (yield (stop_download (Demo.world []))) = true ∧
  ∃ w',
    _download_all Demo.self [Demo.track; Demo.playlist] (stop_download (Demo.world []))
      = (Ok tt, w') ∧
    trace w' = trace (stop_download (Demo.world [])) ++
               [Log stopped_by_user; Completion] ∧
    files w' = files (stop_download (Demo.world [])) ∧
    stop_event w' = true.
Proof.
  split; [reflexivity|].
  apply (stop_before_the_first_url Demo.self Demo.track [Demo.playlist]
           (stop_download (Demo.world []))).
  reflexivity.
Defined.

(** The same world, but the run is started by [start_download]. *)
Lemma start_download_clears_the_flag_witness :
  stop_event (stop_download (Demo.world [])) = true ∧
  ∃ items w',
    start_download Demo.self [Demo.broken] (stop_download (Demo.world []))
      = (Ok tt, w') ∧
    map it_url items = [Demo.broken] ∧
    stop_event w' = false.
Proof.
  split; [reflexivity|].
  destruct (start_download_clears_the_flag Demo.self [Demo.broken]
              (stop_download (Demo.world [])) (Forall_nil_2 _))
    as (items & w' & Hrun & Hmap & _ & _ & Hflag).
  exists items, w'. exact (conj Hrun (conj Hmap Hflag)).
Defined.

(** A progress dictionary without ['status']. *)
Lemma progress_hook_exceptions_witness :
  ∃ e w',
    _progress_hook ∅ (Demo.world []) = (Raise e, w') ∧
    w' = Demo.world [] ∧
    ((∅ : gmap string pyval) !! "status" = None ∧ e = KeyError "status" ∨
     (∅ : gmap string pyval) !! "status" = Some (PyStr "downloading") ∧
     exn_class e = "AttributeError" ∧
     ∃ v, (∅ : gmap string pyval) !! "_percent_str" = Some v ∧ ∀ s, v ≠ PyStr s).
Proof.
  assert (_progress_hook ∅ (Demo.world []) = (Raise (KeyError "status"), Demo.world []))
    as Hrun by (vm_compute; reflexivity).
  exists (KeyError "status"), (Demo.world []).
  exact (conj Hrun (progress_hook_exceptions ∅ (Demo.world []) (KeyError "status")
                      (Demo.world []) Hrun)).
Defined.

(** The playlist of two tracks: both entries are reached. *)
Lemma download_audio_events_witness :
  shutil_which (files (Demo.world [])) "ffmpeg" ≠ None ∧
  ∃ hooks chunks,
    trace (download_audio Demo.self Demo.playlist (Demo.world [])).2 =
      trace (Demo.world []) ++
      ExtractInfo (make_ydl_opts Demo.self) Demo.playlist :: hooks ++ concat chunks ∧
    Forall hook_event hooks ∧
    length chunks = 2.
Proof.
  assert (shutil_which (files (Demo.world [])) "ffmpeg" ≠ None) as Hwhich
    by discriminate.
  assert ((download_audio Demo.self Demo.playlist (Demo.world [])).1 =
            Ok (String.concat newline [Demo.done_a; Demo.done_b])) as Hok
    by (vm_compute; reflexivity).
  assert (length (extracted Demo.self Demo.playlist (files (Demo.world []))) = 2)
    as Hlen2 by (vm_compute; reflexivity).
  split; [exact Hwhich|].
  destruct (download_audio_events Demo.self Demo.playlist (Demo.world []) Hwhich)
    as (hooks & chunks & Ht & Hev & _ & Hlen & _).
  exists hooks, chunks.
  exact (conj Ht (conj Hev (eq_trans (Hlen _ Hok) Hlen2))).
Defined.

(** [stop_download()] during the first of three downloads: one progress
    value, 33.33333333333333, and the flag is set at the end. *)
Lemma loop_progress_of_any_run_witness :
  ∃ evs w',
    _download_all Demo.self [Demo.track; Demo.broken; Demo.playlist]
      (Demo.world Demo.stop_in_first_download) = (Ok tt, w') ∧
    trace w' = trace (Demo.world Demo.stop_in_first_download) ++ evs ∧
    loop_progress evs = [percent_done 0 3] ∧
    stop_event w' = true.
Proof.
  pose (w0 := (_download_all Demo.self [Demo.track; Demo.broken; Demo.playlist]
                 (Demo.world Demo.stop_in_first_download)).2).
  assert (_download_all Demo.self [Demo.track; Demo.broken; Demo.playlist]
            (Demo.world Demo.stop_in_first_download) = (Ok tt, w0)) as Hrun0
    by (vm_compute; reflexivity).
  assert (loop_progress (trace w0) = [percent_done 0 3]) as Hprog0
    by (vm_compute; reflexivity).
  clearbody w0.
  destruct (loop_progress_of_any_run Demo.self [Demo.track; Demo.broken; Demo.playlist]
              (Demo.world Demo.stop_in_first_download))
    as (k & evs & w' & Hrun & Ht & _ & Hprog & Hstop & _).
  pose proof (eq_trans (eq_sym Hrun0) Hrun) as Heq. injection Heq as <-.
  change (trace w0 = evs) in Ht. subst evs.
  pose proof (eq_trans (eq_sym Hprog0) Hprog) as Hk.
  apply (f_equal length) in Hk. rewrite length_map, length_seq in Hk.
  exists (trace w0), w0.
  exact (conj Hrun0 (conj eq_refl (conj Hprog0
          (Hstop (eq_ind 1 (λ k, k < 3) (le_n_S 1 2 (le_n_S 0 1 (le_0_n 1))) k Hk))))).
Defined.

End MoreDemoRuns.

Section FaultyRuns.
#[local] Existing Instance Faulty.externals.

(** The second entry of three has no ['filepath']: the [KeyError] ends the
    download, the line of the first entry is lost and the third entry is
    not processed. *)
Lemma playlist_entry_error_ends_the_download_witness :
  ∃ w1 w2,
    shutil_which (files (Demo.world [])) "ffmpeg" ≠ None ∧
    YoutubeDL_extract_info (make_ydl_opts Demo.self) [_progress_hook] Demo.playlist
      (Demo.world []) = (Ok Faulty.three_tracks, w1) ∧
    entry_messages [Demo.entry "/music/mix/a.mp3" "a"] w1 [Demo.done_a] w2 ∧
    _process_single_entry Faulty.no_filepath w2 = (Raise (KeyError "filepath"), w2) ∧
    download_audio Demo.self Demo.playlist (Demo.world [])
      = (Raise (KeyError "filepath"), w2).
Proof.
  assert (shutil_which (files (Demo.world [])) "ffmpeg" ≠ None) as Hwhich
    by discriminate.
  pose (w1 := (YoutubeDL_extract_info (make_ydl_opts Demo.self) [_progress_hook]
                 Demo.playlist (Demo.world [])).2).
  pose (w2 := (_process_single_entry (Demo.entry "/music/mix/a.mp3" "a") w1).2).
  assert (YoutubeDL_extract_info (make_ydl_opts Demo.self) [_progress_hook]
            Demo.playlist (Demo.world []) = (Ok Faulty.three_tracks, w1)) as Hextract
    by (vm_compute; reflexivity).
  assert (_process_single_entry (Demo.entry "/music/mix/a.mp3" "a") w1
          = (Ok Demo.done_a, w2)) as Ha by (vm_compute; reflexivity).
  assert (_process_single_entry Faulty.no_filepath w2
          = (Raise (KeyError "filepath"), w2)) as Hbad by (vm_compute; reflexivity).
  clearbody w2. clearbody w1.
  assert (entry_messages [Demo.entry "/music/mix/a.mp3" "a"] w1 [Demo.done_a] w2)
    as Hpre.
  { apply (entry_messages_cons _ _ w1 Demo.done_a w2 _ _ Ha).
    apply entry_messages_nil. }
  exists w1, w2.
  exact (conj Hwhich (conj Hextract (conj Hpre (conj Hbad
          (playlist_entry_error_ends_the_download Demo.self Demo.playlist
             (Demo.world []) Faulty.three_tracks w1
             [Demo.entry "/music/mix/a.mp3" "a"] Faulty.no_filepath
             [Demo.entry "/music/mix/b.mp3" "b"] [Demo.done_a] w2
             (KeyError "filepath") w2
             Hwhich Hextract eq_refl eq_refl Hpre Hbad))))).
Defined.

(** An ffmpeg that exits with code 1: the constructor returns all the
    same. *)
Lemma init_returns_iff_witness :
  ∃ self w', __init__ "/music" Faulty.world_frozen = (Ok self, w').
Proof.
  destruct (init_returns_iff "/music" Faulty.world_frozen) as [_ [_ Hif]].
  apply Hif.
  exists ({[ "/music" ]} ∪ files Faulty.world_frozen), {| returncode := 1; stdout := "" |}.
  split; [reflexivity|]. split; [vm_compute; reflexivity|].
  intros Hz. discriminate Hz.
Defined.


(** C7 as it is written, for every entry whose file is on disk, is refuted
    in two ways.
    - A thumbnail that [os.remove] refuses.  [/music/NA/track.webp] is a
      directory: [convert_thumbnail] and [add_metadata] are called and
      return, the converted [.jpg] is removed, and [os.remove] of the
      [.webp] raises [IsADirectoryError].  The exception leaves
      [_process_single_entry], so no status line is returned, although the
      downloaded file is on disk and [add_metadata] was called once.
    - A helper that raises.  [convert_thumbnail] raises for
      [/music/NA/clip.webp]: the exception leaves the function before
      [add_metadata] is called, so [add_metadata] is not invoked at all. *)
Lemma entry_on_disk_can_raise :
  ("/music/NA/track.mp3" ∈ files Demo.world_with_track ∧
   ∃ w',
     _process_single_entry (Demo.entry "/music/NA/track.mp3" "track")
       Demo.world_with_track =
       (Raise (Exception "IsADirectoryError"
                 "[Errno 21] Is a directory: '/music/NA/track.webp'"), w') ∧
     trace w' = trace Demo.world_with_track ++
                [ConvertThumbnail "/music/NA/track.webp";
                 AddMetadata "/music/NA/track.mp3"
                   (Demo.entry "/music/NA/track.mp3" "track")
                   (Some "/music/NA/track.jpg")]) ∧
  ("/music/NA/clip.mp3" ∈ files Faulty.world_with_clip ∧
   ∃ w',
     _process_single_entry (Demo.entry "/music/NA/clip.mp3" "clip")
       Faulty.world_with_clip =
       (Raise (Exception "OSError" "cannot read '/music/NA/clip.webp'"), w') ∧
     trace w' = trace Faulty.world_with_clip ++
                [ConvertThumbnail "/music/NA/clip.webp"] ∧
     List.filter is_AddMetadata (trace w') = []).
Proof.
  split.
  - split; [apply (bool_decide_unpack _); vm_compute; exact I|].
    pose (w0 := (_process_single_entry (Demo.entry "/music/NA/track.mp3" "track")
                   Demo.world_with_track).2).
    assert (_process_single_entry (Demo.entry "/music/NA/track.mp3" "track")
              Demo.world_with_track =
            (Raise (Exception "IsADirectoryError"
                      "[Errno 21] Is a directory: '/music/NA/track.webp'"), w0)) as Hrun
      by (vm_compute; reflexivity).
    assert (trace w0 = trace Demo.world_with_track ++
                 [ConvertThumbnail "/music/NA/track.webp";
                  AddMetadata "/music/NA/track.mp3"
                    (Demo.entry "/music/NA/track.mp3" "track")
                    (Some "/music/NA/track.jpg")]) as Ht
      by (vm_compute; reflexivity).
    clearbody w0. exists w0. exact (conj Hrun Ht).
  - split; [apply (bool_decide_unpack _); vm_compute; exact I|].
    pose (w0 := (_process_single_entry (Demo.entry "/music/NA/clip.mp3" "clip")
                   Faulty.world_with_clip).2).
    assert (_process_single_entry (Demo.entry "/music/NA/clip.mp3" "clip")
              Faulty.world_with_clip =
            (Raise (Exception "OSError" "cannot read '/music/NA/clip.webp'"), w0))
      as Hrun by (vm_compute; reflexivity).
    assert (trace w0 = trace Faulty.world_with_clip ++
                       [ConvertThumbnail "/music/NA/clip.webp"]) as Ht
      by (vm_compute; reflexivity).
    assert (List.filter is_AddMetadata (trace w0) = []) as Hnone
      by (vm_compute; reflexivity).
    clearbody w0. exists w0. exact (conj Hrun (conj Ht Hnone)).
Qed.

End FaultyRuns.
